(** * Image request/response pipeline of the book-cover face merger

    A shallow embedding of [src/gemini_client.py] (class
    [GeminiImageClient]) and of the upload gate and page flow of
    [src/app.py], followed by the properties of the specification.

    Python values are modelled as follows.
    - [int] is [Z]; [float] is IEEE-754 binary64, through the Standard
      Library's executable specification [SpecFloat] with [prec = 53],
      [emax = 1024].
    - [str] is [string]; [dict] is stdpp's [gmap]; [Optional[T]] is
      [option T].
    - An exception is a value of [exn]; code that may raise returns an
      [outcome]; code that also talks to the remote service or prints runs
      in the monad [Py], which threads the log of remote calls. *)

From Stdlib Require Import ZArith Lia List Ascii String.
From Stdlib.Floats Require Import SpecFloat.
From stdpp Require Import base option gmap strings.

Local Open Scope string_scope.
Local Open Scope Z_scope.

(** ** Exceptions and outcomes *)

(** An instance of a subclass of Python's [Exception]: its class name and
    the text [str(e)] gives. *)
Record exn := Exception { exn_class : string; exn_msg : string }.

Definition str_exn (e : exn) : string := exn_msg e.

Definition ValueError (msg : string) : exn := Exception "ValueError" msg.
Definition TypeError (msg : string) : exn := Exception "TypeError" msg.
Definition IndexError (msg : string) : exn := Exception "IndexError" msg.
Definition AttributeError (msg : string) : exn := Exception "AttributeError" msg.
Definition OSError (msg : string) : exn := Exception "OSError" msg.
Definition OverflowError (msg : string) : exn := Exception "OverflowError" msg.
Definition ZeroDivisionError (msg : string) : exn :=
  Exception "ZeroDivisionError" msg.

Inductive outcome (A : Type) : Type :=
| Ok (a : A)
| Raise (e : exn).
Arguments Ok {A} a.
Arguments Raise {A} e.

Definition obind {A B} (m : outcome A) (k : A -> outcome B) : outcome B :=
  match m with
  | Ok a => k a
  | Raise e => Raise e
  end.

Definition raises {A} (m : outcome A) : Prop :=
  match m with Ok _ => False | Raise _ => True end.

Definition returns {A} (m : outcome A) : Prop :=
  match m with Ok _ => True | Raise _ => False end.

Declare Scope outcome_scope.
Delimit Scope outcome_scope with outcome.
Notation "x <- m ;; k" := (obind m (fun x => k))
  (at level 100, m at next level, right associativity) : outcome_scope.

(** ** Python floats *)

Module PyFloat.

Definition prec : Z := 53.
Definition emax : Z := 1024.

Definition float := spec_float.

(** [float(z)]: the nearest binary64 value; exact below [2^53]. *)
Definition of_int (z : Z) : float := binary_normalize prec emax z 0 false.

(** [a / b] on two ints.  Division by zero raises; otherwise the
    quotient of the two converted operands, correctly rounded (what
    CPython computes whenever both operands are below [2^53] in
    magnitude). *)
Definition truediv (a b : Z) : outcome float :=
  if b =? 0 then Raise (ZeroDivisionError "division by zero")
  else Ok (SFdiv prec emax (of_int a) (of_int b)).

(** [a * x] with [a] an int and [x] a float. *)
Definition mul_int (a : Z) (x : float) : float :=
  SFmul prec emax (of_int a) x.

(** [int(x)]: truncation towards zero; raises on infinities and NaN. *)
Definition to_int (x : float) : outcome Z :=
  match x with
  | S754_zero _ => Ok 0
  | S754_finite s m e => Ok (cond_Zopp s (Z.shiftl (Zpos m) e))
  | S754_infinity _ =>
      Raise (OverflowError "cannot convert float infinity to integer")
  | S754_nan => Raise (ValueError "cannot convert float NaN to integer")
  end.

(** The number of low bits a rounding of the mantissa [m] at exponent
    [e] drops. *)
Definition shift_of (m e : Z) : Z :=
  Z.max 0 (fexp prec emax (Zdigits2 m + e) - e).

(** Values are compared after scaling by [2 ^ bias], which makes every
    exponent met here non-negative. *)
Definition bias : Z := 1200.

(** Zero, NaN, or carrying the negative sign. *)
Definition nonpositive (x : float) : Prop :=
  match x with
  | S754_zero _ | S754_nan => True
  | S754_infinity s | S754_finite s _ _ => s = true
  end.

End PyFloat.

(** ** Images (PIL) *)

(** A decoded raster image: the mode string, the size in pixels and the
    pixel buffer. *)
Record Image := mkImage {
  mode : string;
  size : Z * Z;
  pixels : list Z
}.

Definition width (im : Image) : Z := fst (size im).
Definition height (im : Image) : Z := snd (size im).

(** What [Image.open] can return for the size of a decoded file: both
    dimensions positive and within a C [int]. *)
Definition valid_image (im : Image) : Prop :=
  0 < width im < 2 ^ 31 /\ 0 < height im < 2 ^ 31.

(** The parts of Pillow this repository calls.  The pixel transformations
    and the codecs are left abstract; what Pillow decides from the mode
    and the size alone is written out. *)
Section Pillow.

(** Pixel conversion between two modes ([ImagingConvert]); raises for a
    pair of modes Pillow has no conversion for. *)
Variable convert_pixels : string -> string -> Z * Z -> list Z -> outcome (list Z).

(** Resampling of a pixel buffer from one size to another. *)
Variable resample_pixels : string -> Z * Z -> Z * Z -> list Z -> list Z.

(** [image.convert(m)] *)
Definition convert (im : Image) (m : string) : outcome Image :=
  (px <- convert_pixels (mode im) m (size im) (pixels im) ;;
   Ok (mkImage m (size im) px))%outcome.

(** [image.resize(new_size, Image.Resampling.LANCZOS)] on an image whose
    pixel data is loaded: Pillow returns a copy when the size is
    unchanged and refuses a size with a dimension below one.  Reading
    the data of a lazily opened file, which [resize] does first and
    which can fail, is not part of this model. *)
Definition resize (im : Image) (new_size : Z * Z) : outcome Image :=
  if decide (size im = new_size) then Ok im
  else if (fst new_size <? 1) || (snd new_size <? 1)
  then Raise (ValueError "height and width must be > 0")
  else Ok (mkImage (mode im) new_size
             (resample_pixels (mode im) (size im) new_size (pixels im))).

(** [GeminiImageClient._prepare_image_for_api] *)
Definition _prepare_image_for_api (image : Image) (max_size : Z)
  : outcome Image :=
  (image <- (if decide (mode image <> "RGB") then convert image "RGB"
             else Ok image) ;;
   let '(width, height) := size image in
   if Z.max width height >? max_size then
     ratio <- PyFloat.truediv max_size (Z.max width height) ;;
     new_width <- PyFloat.to_int (PyFloat.mul_int width ratio) ;;
     new_height <- PyFloat.to_int (PyFloat.mul_int height ratio) ;;
     resize image (new_width, new_height)
   else Ok image)%outcome.

End Pillow.

(** ** Strings *)

(** [str.title()] on ASCII text: the first letter of every run of letters
    in upper case, the rest of the run in lower case.  Letters outside
    ASCII, which Python also cases, are left as they are: the model is
    that of [str.title()] for ASCII strings only, such as the two roles
    "face" and "book" the program passes. *)
Module PyStr.

Definition is_lower (c : ascii) : bool :=
  let n := nat_of_ascii c in ((97 <=? n) && (n <=? 122))%nat.

Definition is_upper (c : ascii) : bool :=
  let n := nat_of_ascii c in ((65 <=? n) && (n <=? 90))%nat.

Definition to_upper (c : ascii) : ascii :=
  if is_lower c then ascii_of_nat (nat_of_ascii c - 32) else c.

Definition to_lower (c : ascii) : ascii :=
  if is_upper c then ascii_of_nat (nat_of_ascii c + 32) else c.

Fixpoint title_from (previous_is_cased : bool) (s : string) : string :=
  match s with
  | EmptyString => EmptyString
  | String c rest =>
      if is_lower c then
        String (if previous_is_cased then c else to_upper c)
               (title_from true rest)
      else if is_upper c then
        String (if previous_is_cased then to_lower c else c)
               (title_from true rest)
      else String c (title_from false rest)
  end.

Definition title (s : string) : string := title_from false s.

End PyStr.

(** ** The remote service and the world *)

Inductive ContentPart :=
| TextPart (s : string)
| ImagePart (im : Image).

(** One [generate_content] request: the model identifier, the ordered
    contents and the requested response modalities. *)
Record Request := mkRequest {
  req_model : string;
  req_contents : list ContentPart;
  req_modalities : list string
}.

(** The response object, with the optional attributes the code reads:
    [response.candidates[0].content.parts], and on each part [text] and
    [inline_data.data]. *)
Record Blob := mkBlob { data : list Byte.byte }.
Record Part := mkPart { text : option string; inline_data : option Blob }.
Record Content := mkContent { parts : option (list Part) }.
Record Candidate := mkCandidate { content : option Content }.
Record Response := mkResponse { candidates : option (list Candidate) }.

(** The state outside the program: the process environment, the requests
    sent to the remote service so far, and the lines printed. *)
Record world := mkWorld {
  environ : gmap string string;
  calls : list Request;
  stdout : list string
}.

Definition Py (A : Type) : Type := world -> outcome A * world.

Definition ret {A} (a : A) : Py A := fun w => (Ok a, w).

Definition bind {A B} (m : Py A) (k : A -> Py B) : Py B :=
  fun w =>
    match m w with
    | (Ok a, w') => k a w'
    | (Raise e, w') => (Raise e, w')
    end.

Definition lift {A} (m : outcome A) : Py A := fun w => (m, w).

(** [try: body except Exception as e: handler e] *)
Definition try_except {A} (body : Py A) (handler : exn -> Py A) : Py A :=
  fun w =>
    match body w with
    | (Ok a, w') => (Ok a, w')
    | (Raise e, w') => handler e w'
    end.

Definition print (line : string) : Py unit :=
  fun w => (Ok tt, mkWorld (environ w) (calls w) (stdout w ++ [line])).

Declare Scope py_scope.
Delimit Scope py_scope with py.
Notation "x <- m ;; k" := (bind m (fun x => k))
  (at level 100, m at next level, right associativity) : py_scope.
Notation "m ;;; k" := (bind m (fun _ => k))
  (at level 100, right associativity) : py_scope.

Definition MiB10 : Z := 10 * 1024 * 1024.

(** ** The upload gate of [app.py] *)

(** A Streamlit uploaded file: its MIME type, its length in bytes and its
    contents. *)
Record UploadedFile := mkUploadedFile {
  file_type : string;
  file_size : Z;
  file_bytes : list Byte.byte
}.

Section Gate.

(** [Image.open]: the decoder; raises on bytes it cannot identify. *)
Variable Image_open : list Byte.byte -> outcome Image.

(** [validate_uploaded_image] *)
Definition validate_uploaded_image
    (uploaded_file : option UploadedFile) (image_type : string)
  : bool * string * option Image :=
  match uploaded_file with
  | None => (false, "Please upload a " +:+ image_type +:+ " image", None)
  | Some uploaded_file =>
      if negb (bool_decide
                 (file_type uploaded_file
                    ∈ ["image/jpeg"; "image/jpg"; "image/png"]))
      then (false, "Please upload a JPEG or PNG image", None)
      else if file_size uploaded_file >? MiB10
      then (false,
            "File size too large. Please upload an image smaller than 10MB",
            None)
      else
        match
          (image <- Image_open (file_bytes uploaded_file) ;;
           if (fst (size image) <? 100) || (snd (size image) <? 100) then
             let min_size :=
               if decide (image_type = "face") then "100x100"
               else "200x200" in
             Ok (false,
                 PyStr.title image_type
                   +:+ " image too small. Minimum size: " +:+ min_size
                   +:+ " pixels",
                 None)
           else
             Ok (true,
                 PyStr.title image_type +:+ " image uploaded successfully",
                 Some image))%outcome
        with
        | Ok result => result
        | Raise e =>
            (false,
             "Error processing " +:+ image_type +:+ " image: "
               +:+ str_exn e,
             None)
        end
  end.

End Gate.

(** ** The client of [gemini_client.py] *)

Module GeminiImageClient.

Record t := mk { api_key : string; model : string }.

(** [__init__]: reads the key, fails without one, otherwise exports it
    and builds the handle.  Building [genai.Client()] sends nothing. *)
Definition __init__ : Py t :=
  fun w =>
    match environ w !! "GEMINI_API_KEY" with
    | Some key =>
        if decide (key = EmptyString) then
          (Raise (ValueError
                    "GEMINI_API_KEY not found in environment variables"), w)
        else
          (Ok (mk key "gemini-2.0-flash-preview-image-generation"),
           mkWorld (<["GOOGLE_API_KEY" := key]> (environ w))
                   (calls w) (stdout w))
    | None =>
        (Raise (ValueError
                  "GEMINI_API_KEY not found in environment variables"), w)
    end.

Definition base_prompt : string :=
"I have two images: a child's face photo and a book cover. Please merge the child's face seamlessly into the book cover design. "
+:+
"

Requirements:
- Integrate the child's face naturally into the book cover
- Keep the book's title, text, and design elements intact
- Match the lighting and color tone of the book cover
- Make the face placement look professional and appealing
- Ensure the integration appears natural and well-blended".

Definition style_additions : gmap string string :=
  <["natural" :=
      "Keep the child's face realistic with natural lighting that matches the book cover style."]>
  (<["artistic" :=
      "Apply artistic effects to blend the face with the book's illustration style while keeping it recognizable."]>
  (<["cartoon" :=
      "Stylize the face to match cartoon or illustrated book aesthetics if the cover has that style."]>
   ∅)).

Definition newline : string := String (ascii_of_nat 10) EmptyString.

(** [style_additions.get(merge_style, style_additions['natural'])] *)
Definition style_clause (merge_style : string) : string :=
  default (style_additions !!! "natural") (style_additions !! merge_style).

(** [_create_merge_prompt] *)
Definition _create_merge_prompt (merge_style : string) : string :=
  base_prompt +:+ newline +:+ "- " +:+ style_clause merge_style
    +:+ newline +:+ newline
    +:+ "Generate the merged book cover image with the child's face integrated.".

Definition analysis_prompt : string :=
"Analyze these two images for face merging:
1. First image: A child's face photo
2. Second image: A book cover

Provide brief suggestions on:
- Best placement for the face on the book cover
- Color/lighting adjustments needed
- Style compatibility
- Any potential challenges

Keep the analysis concise and practical.".

(** [response.candidates[0].content.parts], with the exception each
    missing level raises. *)
Definition response_parts (response : Response) : outcome (list Part) :=
  match candidates response with
  | None => Raise (TypeError "'NoneType' object is not subscriptable")
  | Some [] => Raise (IndexError "list index out of range")
  | Some (candidate :: _) =>
      match content candidate with
      | None =>
          Raise (AttributeError
                   "'NoneType' object has no attribute 'parts'")
      | Some c =>
          match parts c with
          | None => Raise (TypeError "'NoneType' object is not iterable")
          | Some ps => Ok ps
          end
      end
  end.

(** The three requests the client sends. *)
Definition merge_request (prompt : string) (face_img book_img : Image)
  : Request :=
  mkRequest "gemini-2.0-flash-preview-image-generation"
    [TextPart prompt; ImagePart face_img; ImagePart book_img] ["IMAGE"].

Definition analyze_request (face_img book_img : Image) : Request :=
  mkRequest "gemini-2.0-flash-exp"
    [TextPart analysis_prompt; ImagePart face_img; ImagePart book_img]
    ["TEXT"].

(** [Image.new('RGB', (100, 100), color='red')] *)
Definition test_image : Image :=
  mkImage "RGB" (100, 100) (concat (repeat [255; 0; 0] (100 * 100)%nat)).

Definition probe_request : Request :=
  mkRequest "gemini-2.0-flash-exp"
    [TextPart "What color is this image?"; ImagePart test_image] ["TEXT"].

(** The loop of [analyze_images]: the text of the first part that has
    one, or the sentinel. *)
Fixpoint first_text (ps : list Part) : string :=
  match ps with
  | [] => "Unable to analyze images."
  | part :: rest =>
      match text part with
      | Some t => t
      | None => first_text rest
      end
  end.

(** The loop of [test_api_connection]. *)
Fixpoint any_text (ps : list Part) : bool * string :=
  match ps with
  | [] => (false, "API connection failed - no response")
  | part :: rest =>
      match text part with
      | Some _ => (true, "API connection successful")
      | None => any_text rest
      end
  end.

Section Methods.

Variable convert_pixels :
  string -> string -> Z * Z -> list Z -> outcome (list Z).
Variable resample_pixels : string -> Z * Z -> Z * Z -> list Z -> list Z.
(** [Image.open] on the bytes of an inline payload. *)
Variable Image_open : list Byte.byte -> outcome Image.
(** The JPEG encoder, for an image whose mode JPEG can hold. *)
Variable jpeg_encode : Image -> outcome (list Byte.byte).
(** What the remote service answers to a request. *)
Variable service : Request -> outcome Response.

Definition prepare (image : Image) : outcome Image :=
  _prepare_image_for_api convert_pixels resample_pixels image 1024.

(** [self.client.models.generate_content(...)] *)
Definition generate_content (req : Request) : Py Response :=
  fun w =>
    (service req, mkWorld (environ w) (calls w ++ [req]) (stdout w)).

(** The loop of [merge_face_into_book_cover]: the image decoded from
    the first part that carries inline data. *)
Fixpoint first_inline_image (ps : list Part) : outcome (option Image) :=
  match ps with
  | [] => Ok None
  | part :: rest =>
      match inline_data part with
      | Some blob =>
          (generated_image <- Image_open (data blob) ;;
           Ok (Some generated_image))%outcome
      | None => first_inline_image rest
      end
  end.

(** [merge_face_into_book_cover] *)
Definition merge_face_into_book_cover
    (self : t) (face_image book_cover_image : Image)
    (merge_style : string) : Py (option Image) :=
  try_except
    (face_img <- lift (prepare face_image) ;;
     book_img <- lift (prepare book_cover_image) ;;
     let prompt := _create_merge_prompt merge_style in
     response <- generate_content
                   (merge_request prompt face_img book_img) ;;
     ps <- lift (response_parts response) ;;
     lift (first_inline_image ps))%py
    (fun e =>
       (print ("Error generating merged image: " +:+ str_exn e) ;;;
        ret None)%py).

(** [analyze_images] *)
Definition analyze_images
    (self : t) (face_image book_cover_image : Image) : Py string :=
  try_except
    (face_img <- lift (prepare face_image) ;;
     book_img <- lift (prepare book_cover_image) ;;
     response <- generate_content (analyze_request face_img book_img) ;;
     ps <- lift (response_parts response) ;;
     ret (first_text ps))%py
    (fun e => ret ("Error analyzing images: " +:+ str_exn e)).

(** [image.save(buffer, format='JPEG')] followed by
    [buffer.getvalue()]: Pillow refuses the modes JPEG cannot hold. *)
Definition jpeg_rawmodes : list string :=
  ["1"; "L"; "RGB"; "RGBX"; "CMYK"; "YCbCr"].

Definition save_jpeg (image : Image) : outcome (list Byte.byte) :=
  if bool_decide (mode image ∈ jpeg_rawmodes) then jpeg_encode image
  else Raise (OSError ("cannot write mode " +:+ mode image +:+ " as JPEG")).

(** [validate_images] *)
Definition validate_images
    (self : t) (face_image book_cover_image : Image)
  : Py (bool * string) :=
  try_except
    (if (fst (size face_image) <? 100) || (snd (size face_image) <? 100)
     then ret (false, "Face image is too small (minimum 100x100 pixels)")
     else if (fst (size book_cover_image) <? 200)
             || (snd (size book_cover_image) <? 200)
     then ret (false,
               "Book cover image is too small (minimum 200x200 pixels)")
     else
       face_bytes <- lift (save_jpeg face_image) ;;
       if Z.of_nat (length face_bytes) >? MiB10
       then ret (false, "Face image file is too large (max 10MB)")
       else
         book_bytes <- lift (save_jpeg book_cover_image) ;;
         if Z.of_nat (length book_bytes) >? MiB10
         then ret (false, "Book cover image file is too large (max 10MB)")
         else ret (true, "Images are suitable for merging"))%py
    (fun e => ret (false, "Error validating images: " +:+ str_exn e)).

(** [test_api_connection] *)
Definition test_api_connection (self : t) : Py (bool * string) :=
  try_except
    (response <- generate_content probe_request ;;
     ps <- lift (response_parts response) ;;
     ret (any_text ps))%py
    (fun e => ret (false, "API connection failed: " +:+ str_exn e)).

End Methods.

End GeminiImageClient.

(** ** Base64 ([base64.b64encode]) *)

Module Base64.

Definition alphabet : string :=
  "ABCDEFGHIJKLMNOPQRSTUVWXYZabcdefghijklmnopqrstuvwxyz0123456789+/".

Definition pad : ascii := "="%char.

(** The character of a six-bit value. *)
Definition char_of (i : Z) : ascii :=
  match String.get (Z.to_nat i) alphabet with
  | Some c => c
  | None => pad
  end.

Definition byte_val (b : Byte.byte) : Z := Z.of_N (Byte.to_N b).

(** [base64.b64encode(data).decode()]: three bytes give four characters;
    a last group of one or two bytes is padded with [=]. *)
Fixpoint b64encode (data : list Byte.byte) : string :=
  match data with
  | [] => EmptyString
  | [a] =>
      let n := byte_val a * 65536 in
      String (char_of (n / 262144))
        (String (char_of (n / 4096 mod 64)) (String pad (String pad EmptyString)))
  | [a; b] =>
      let n := byte_val a * 65536 + byte_val b * 256 in
      String (char_of (n / 262144))
        (String (char_of (n / 4096 mod 64))
           (String (char_of (n / 64 mod 64)) (String pad EmptyString)))
  | a :: b :: c :: rest =>
      let n := byte_val a * 65536 + byte_val b * 256 + byte_val c in
      String (char_of (n / 262144))
        (String (char_of (n / 4096 mod 64))
           (String (char_of (n / 64 mod 64))
              (String (char_of (n mod 64)) (b64encode rest))))
  end.

(** The six-bit value of a character of the alphabet. *)
Fixpoint index_from (i : Z) (s : string) (c : ascii) : option Z :=
  match s with
  | EmptyString => None
  | String d rest => if Ascii.eqb c d then Some i else index_from (i + 1) rest c
  end.

Definition value_of (c : ascii) : option Z := index_from 0 alphabet c.

Definition byte_of (z : Z) : option Byte.byte := Byte.of_N (Z.to_N z).

(** The inverse reading: four characters give three bytes, with the two
    padded forms at the end. *)
Fixpoint b64decode_fuel (fuel : nat) (s : string) : option (list Byte.byte) :=
  match fuel with
  | O => None
  | S fuel =>
      match s with
      | EmptyString => Some []
      | String c1 (String c2 (String c3 (String c4 rest))) =>
          v1 ← value_of c1; v2 ← value_of c2;
          if Ascii.eqb c3 pad then
            if Ascii.eqb c4 pad then
              match rest with
              | EmptyString => a ← byte_of ((v1 * 64 + v2) / 16); Some [a]
              | _ => None
              end
            else None
          else
            v3 ← value_of c3;
            if Ascii.eqb c4 pad then
              match rest with
              | EmptyString =>
                  let n := (v1 * 64 + v2) * 64 + v3 in
                  a ← byte_of (n / 1024); b ← byte_of (n / 4 mod 256);
                  Some [a; b]
              | _ => None
              end
            else
              v4 ← value_of c4;
              let n := ((v1 * 64 + v2) * 64 + v3) * 64 + v4 in
              a ← byte_of (n / 65536); b ← byte_of (n / 256 mod 256);
              c ← byte_of (n mod 256);
              tail ← b64decode_fuel fuel rest;
              Some (a :: b :: c :: tail)
      | _ => None
      end
  end.

Definition b64decode (s : string) : option (list Byte.byte) :=
  b64decode_fuel (S (String.length s)) s.

(** The characters base64 text is made of. *)
Definition b64_char (c : ascii) : Prop := is_Some (value_of c) \/ c = pad.

Fixpoint string_forall (P : ascii -> Prop) (s : string) : Prop :=
  match s with
  | EmptyString => True
  | String c rest => P c /\ string_forall P rest
  end.

(** The table of the alphabet read both ways at one six-bit value. *)
Definition sextet_ok (n : nat) : bool :=
  match value_of (char_of (Z.of_nat n)) with
  | Some v => (v =? Z.of_nat n) && negb (Ascii.eqb (char_of (Z.of_nat n)) pad)
  | None => false
  end.

End Base64.

(** ** The page flow of [app.py] *)

Module App.

(** [st.session_state] *)
Record session_state := mkSession {
  gemini_client : option GeminiImageClient.t;
  face_image : option Image;
  book_image : option Image;
  merged_image : option Image
}.

(** What the widgets return during one run of the script: the two
    uploaders, the style select box, and for each button whether it was
    pressed (a button that is not drawn in this run is not read). *)
Record widgets := mkWidgets {
  face_file : option UploadedFile;
  book_file : option UploadedFile;
  merge_style : string;
  test_button : bool;
  analyze_button : bool;
  validate_button : bool;
  generate_button : bool;
  reset_button : bool
}.

Definition set_client (c : option GeminiImageClient.t) (st : session_state) :=
  mkSession c (face_image st) (book_image st) (merged_image st).
Definition set_face (i : option Image) (st : session_state) :=
  mkSession (gemini_client st) i (book_image st) (merged_image st).
Definition set_book (i : option Image) (st : session_state) :=
  mkSession (gemini_client st) (face_image st) i (merged_image st).
Definition set_merged (i : option Image) (st : session_state) :=
  mkSession (gemini_client st) (face_image st) (book_image st) i.

(** [initialize_gemini_client] *)
Definition initialize_gemini_client (st : session_state)
  : Py (bool * string * session_state) :=
  try_except
    (match gemini_client st with
     | None =>
         (c <- GeminiImageClient.__init__ ;;
          ret (true, "Gemini client initialized successfully",
               set_client (Some c) st))%py
     | Some _ =>
         ret (true, "Gemini client initialized successfully", st)
     end)
    (fun e =>
       if decide (exn_class e = "ValueError")
       then ret (false, str_exn e, st)
       else ret (false,
                 "Error initializing Gemini client: " +:+ str_exn e, st)).

Section Main.

Variable convert_pixels :
  string -> string -> Z * Z -> list Z -> outcome (list Z).
Variable resample_pixels : string -> Z * Z -> Z * Z -> list Z -> list Z.
Variable Image_open : list Byte.byte -> outcome Image.
Variable jpeg_encode : Image -> outcome (list Byte.byte).
Variable service : Request -> outcome Response.

(** One upload column: a present file is validated and the slot of
    the session is set to its image or cleared. *)
Definition upload_column
    (file : option UploadedFile) (image_type : string)
    (set : option Image -> session_state -> session_state)
    (st : session_state) : session_state :=
  match file with
  | Some f =>
      let '(is_valid, msg, img) :=
        validate_uploaded_image Image_open (Some f) image_type in
      if is_valid then set img st else set None st
  | None => st
  end.

(** The three buttons under the uploads, drawn only when both slots
    of the session hold an image. *)
Definition action_row (ui : widgets) (st : session_state)
  : Py session_state :=
  match face_image st, book_image st with
  | Some face, Some book =>
      (_ <- (if analyze_button ui then
               match gemini_client st with
               | Some c =>
                   (_ <- GeminiImageClient.analyze_images
                           convert_pixels resample_pixels service
                           c face book ;;
                    ret tt)%py
               | None =>
                   lift (Raise (AttributeError
                     "'NoneType' object has no attribute 'analyze_images'"))
               end
             else ret tt) ;;
       _ <- (if validate_button ui then
               match gemini_client st with
               | Some c =>
                   (_ <- GeminiImageClient.validate_images
                           jpeg_encode c face book ;;
                    ret tt)%py
               | None =>
                   lift (Raise (AttributeError
                     "'NoneType' object has no attribute 'validate_images'"))
               end
             else ret tt) ;;
       if generate_button ui then
         match gemini_client st with
         | Some c =>
             (merged <- GeminiImageClient.merge_face_into_book_cover
                          convert_pixels resample_pixels Image_open
                          service c face book (merge_style ui) ;;
              match merged with
              | Some m => ret (set_merged (Some m) st)
              | None => ret st
              end)%py
         | None => ret st
         end
       else ret st)%py
  | _, _ => ret st
  end.

(** [main]: one run of the script on the current session, as far as the
    client and the session are concerned: the [st.image] calls and the
    PNG buffer of the results section are left out here and are part of
    [page] below. *)
Definition main (ui : widgets) (st : session_state) : Py session_state :=
  fun w =>
    match environ w !! "GEMINI_API_KEY" with
    | None => (Ok st, w)
    | Some key =>
        if decide (key = EmptyString) then (Ok st, w)
        else
          (r <- initialize_gemini_client st ;;
           let '(client_ok, client_msg, st) := r in
           if negb client_ok then ret st
           else
             _ <- (if test_button ui then
                     match gemini_client st with
                     | Some c =>
                         (_ <- GeminiImageClient.test_api_connection
                                 service c ;;
                          ret tt)%py
                     | None =>
                         lift (Raise (AttributeError
                           "'NoneType' object has no attribute 'test_api_connection'"))
                     end
                   else ret tt) ;;
             let st := upload_column (face_file ui) "face" set_face st in
             let st := upload_column (book_file ui) "book" set_book st in
             st <- action_row ui st ;;
             match merged_image st with
             | Some _ =>
                 if reset_button ui then ret (set_merged None st)
                 else ret st
             | None => ret st
             end)%py w
    end.

End Main.

(** ** The results section and the download link *)

Definition dquote : string := String "034"%char EmptyString.

Section Results.

Variable convert_pixels :
  string -> string -> Z * Z -> list Z -> outcome (list Z).
Variable resample_pixels : string -> Z * Z -> Z * Z -> list Z -> list Z.
Variable Image_open : list Byte.byte -> outcome Image.
Variable jpeg_encode : Image -> outcome (list Byte.byte).
Variable service : Request -> outcome Response.

(** [image.save(buffer, format="PNG")] followed by [buffer.getvalue()]:
    the PNG writer of Pillow, which raises for an image it cannot
    hold. *)
Variable save_png : Image -> outcome (list Byte.byte).

(** [create_download_link] *)
Definition create_download_link (image : Image) (filename : string)
  : outcome string :=
  (img_data <- save_png image ;;
   let b64 := Base64.b64encode img_data in
   Ok ("<a href=" +:+ dquote +:+ "data:image/png;base64," +:+ b64
       +:+ dquote +:+ " download=" +:+ dquote +:+ filename +:+ dquote
       +:+ ">Download Merged Image</a>"))%outcome.

(** [st.image(image, ...)]: Streamlit draws the value it is given.  For
    that it reads the pixel data of the image and encodes it, and it
    raises when the data cannot be read or the mode cannot be
    encoded. *)
Variable st_image : option Image -> outcome unit.

(** One upload column of [main], the drawing included: a present file
    is validated; an accepted image is put in its slot of the session
    and drawn; a rejection clears the slot. *)
Definition upload_section
    (file : option UploadedFile) (image_type : string)
    (set : option Image -> session_state -> session_state)
    (st : session_state) : Py session_state :=
  match file with
  | Some f =>
      let '(is_valid, msg, img) :=
        validate_uploaded_image Image_open (Some f) image_type in
      if is_valid then
        let st := set img st in
        (_ <- lift (st_image img) ;; ret st)%py
      else ret (set None st)
  | None => ret st
  end.

(** The results section of [main]: when the session holds a result, it
    is drawn, then written as PNG for the download button, and then the
    reset button is read. *)
Definition results_section (ui : widgets) (st : session_state)
  : Py session_state :=
  match merged_image st with
  | Some m =>
      (_ <- lift (st_image (merged_image st)) ;;
       _ <- lift (save_png m) ;;
       if reset_button ui then ret (set_merged None st) else ret st)%py
  | None => ret st
  end.

(** [main] in full: one run of the script, with the three [st.image]
    calls and the PNG buffer of the download button.  The widget calls
    that draw fixed text or a message ([st.title], [st.success],
    [st.error], ...) are taken to return and are left out.  A run that
    raises returns no session here: what it had already stored is not
    tracked. *)
Definition page (ui : widgets) (st : session_state) : Py session_state :=
  fun w =>
    match environ w !! "GEMINI_API_KEY" with
    | None => (Ok st, w)
    | Some key =>
        if decide (key = EmptyString) then (Ok st, w)
        else
          (r <- initialize_gemini_client st ;;
           let '(client_ok, client_msg, st) := r in
           if negb client_ok then ret st
           else
             _ <- (if test_button ui then
                     match gemini_client st with
                     | Some c =>
                         (_ <- GeminiImageClient.test_api_connection
                                 service c ;;
                          ret tt)%py
                     | None =>
                         lift (Raise (AttributeError
                           "'NoneType' object has no attribute 'test_api_connection'"))
                     end
                   else ret tt) ;;
             st <- upload_section (face_file ui) "face" set_face st ;;
             st <- upload_section (book_file ui) "book" set_book st ;;
             st <- action_row convert_pixels resample_pixels Image_open
                     jpeg_encode service ui st ;;
             results_section ui st)%py w
    end.

End Results.

End App.

(** ** Sample collaborators and inputs *)

(** A Pillow whose pixel operations leave the buffer alone, a decoder that
    always yields one given image, an encoder with a fixed output, and
    three remote services: one that answers with an empty list of
    parts, one that answers with a text part followed by an inline image,
    one that always fails. *)
Definition plain_convert (_ _ : string) (_ : Z * Z) (px : list Z)
  : outcome (list Z) := Ok px.
Definition plain_resample (_ : string) (_ _ : Z * Z) (px : list Z)
  : list Z := px.
Definition decode_as (im : Image) (_ : list Byte.byte) : outcome Image :=
  Ok im.
Definition encode_empty (_ : Image) : outcome (list Byte.byte) := Ok [].

Definition empty_response : Response :=
  mkResponse (Some [mkCandidate (Some (mkContent (Some [])))]).
Definition quiet_service (_ : Request) : outcome Response :=
  Ok empty_response.
Definition picture_response : Response :=
  mkResponse
    (Some [mkCandidate
             (Some (mkContent
                      (Some [mkPart (Some "Here is the cover.") None;
                             mkPart None (Some (mkBlob []))])))]).
Definition picture_service (_ : Request) : outcome Response :=
  Ok picture_response.
Definition failing_service (_ : Request) : outcome Response :=
  Raise (Exception "ServerError" "503 UNAVAILABLE").

Definition decode_fails (_ : list Byte.byte) : outcome Image :=
  Raise (Exception "UnidentifiedImageError" "cannot identify image file").

(** A decoder that knows PNG data by its first four bytes and nothing
    else, and a service whose answer holds a text part, an inline part
    that is no image, and an inline part that is one. *)
Definition decode_png_only (bytes : list Byte.byte) : outcome Image :=
  match bytes with
  | Byte.x89 :: Byte.x50 :: Byte.x4e :: Byte.x47 :: _ =>
      Ok (mkImage "RGB" (8, 8) [])
  | _ => Raise (Exception "UnidentifiedImageError"
                  "cannot identify image file")
  end.
Definition garbled_response : Response :=
  mkResponse
    (Some [mkCandidate
             (Some (mkContent
                      (Some [mkPart (Some "Here is the cover.") None;
                             mkPart None (Some (mkBlob [Byte.x00]));
                             mkPart None
                               (Some (mkBlob [Byte.x89; Byte.x50; Byte.x4e;
                                              Byte.x47]))])))]).
Definition garbled_service (_ : Request) : outcome Response :=
  Ok garbled_response.

(** A Streamlit that draws every image, and one that cannot draw what
    is not in three- or four-channel colour. *)
Definition draw_any (_ : option Image) : outcome unit := Ok tt.
Definition draw_rgb (image : option Image) : outcome unit :=
  match image with
  | Some im =>
      if bool_decide (mode im ∈ ["RGB"; "RGBA"]) then Ok tt
      else Raise (OSError ("cannot write mode " +:+ mode im +:+ " as PNG"))
  | None => Ok tt
  end.

(** A PNG writer with a fixed output that refuses, as Pillow does, the
    modes outside its table. *)
Definition png_writer (image : Image) : outcome (list Byte.byte) :=
  if bool_decide (mode image ∈ ["1"; "L"; "LA"; "I"; "P"; "RGB"; "RGBA"])
  then Ok [Byte.x89; Byte.x50; Byte.x4e; Byte.x47]
  else Raise (OSError ("cannot write mode " +:+ mode image +:+ " as PNG")).

Definition rgb (w h : Z) : Image := mkImage "RGB" (w, h) [].
Definition cmyk (w h : Z) : Image := mkImage "CMYK" (w, h) [].
Definition rgba (w h : Z) : Image := mkImage "RGBA" (w, h) [].
Definition png_upload : UploadedFile := mkUploadedFile "image/png" 2048 [].

(** A slot of the session that is empty or holds an image of at least
    100x100 pixels. *)
Definition at_least_100 (slot : option Image) : Prop :=
  forall image, slot = Some image ->
                100 <= fst (size image) /\ 100 <= snd (size image).

Definition sample_client : GeminiImageClient.t :=
  GeminiImageClient.mk "key" "gemini-2.0-flash-preview-image-generation".
Definition empty_world : world := mkWorld ∅ [] [].

(** Widgets of a run with both uploads present and the given buttons
    (test, analyze, validate, generate) pressed; a fresh session. *)
Definition both_uploads (test analyze validate generate : bool)
  : App.widgets :=
  App.mkWidgets (Some png_upload) (Some png_upload) "cartoon"
    test analyze validate generate false.
Definition fresh_session : App.session_state :=
  App.mkSession None None None None.
Definition keyed_world : world :=
  mkWorld (<["GEMINI_API_KEY" := "key"]> ∅) [] [].

(** * Properties *)

(** ** Rounding in binary64 *)

Module Binary64.

Import PyFloat.

Lemma digits2_pos_bounds (p : positive) :
  2 ^ (Zpos (digits2_pos p) - 1) <= Zpos p < 2 ^ Zpos (digits2_pos p).
Proof.
  induction p as [p IH | p IH |]; cbn [digits2_pos].
  - rewrite Pos2Z.inj_succ.
    replace (Z.succ (Zpos (digits2_pos p)) - 1) with (Z.succ (Zpos (digits2_pos p) - 1)) by lia.
    rewrite !Z.pow_succ_r by lia. lia.
  - rewrite Pos2Z.inj_succ.
    replace (Z.succ (Zpos (digits2_pos p)) - 1) with (Z.succ (Zpos (digits2_pos p) - 1)) by lia.
    rewrite !Z.pow_succ_r by lia. lia.
  - simpl. lia.
Qed.

Lemma shr_1_m (mrs : shr_record) :
  0 <= shr_m mrs -> shr_m (shr_1 mrs) = shr_m mrs / 2.
Proof.
  destruct mrs as [m r s]. cbn [shr_m]. intros Hm.
  destruct m as [|[p|p|]|p]; cbn [shr_1 shr_m]; [reflexivity| | |reflexivity|lia].
  - apply Z.div_unique with 1; lia.
  - apply Z.div_unique with 0; lia.
Qed.

Lemma iter_pos_shr_1_m (p : positive) (mrs : shr_record) :
  0 <= shr_m mrs ->
  shr_m (SpecFloat.iter_pos shr_1 p mrs) = shr_m mrs / 2 ^ Zpos p.
Proof.
  revert mrs. induction p as [p IH | p IH |]; intros mrs Hm; cbn [SpecFloat.iter_pos].
  - assert (H1 : 0 <= shr_m (shr_1 mrs)).
    { rewrite shr_1_m by done. apply Z.div_pos; lia. }
    assert (H2 : 0 <= shr_m (SpecFloat.iter_pos shr_1 p (shr_1 mrs))).
    { rewrite IH by done. apply Z.div_pos; [done|]. apply Z.pow_pos_nonneg; lia. }
    rewrite IH, IH, shr_1_m by done.
    rewrite !Z.div_div by (try apply Z.pow_pos_nonneg; lia).
    f_equal. replace (Zpos p~1) with (1 + Zpos p + Zpos p) by lia.
    rewrite !Z.pow_add_r by lia. lia.
  - assert (H2 : 0 <= shr_m (SpecFloat.iter_pos shr_1 p mrs)).
    { rewrite IH by done. apply Z.div_pos; [done|]. apply Z.pow_pos_nonneg; lia. }
    rewrite IH, IH by done.
    rewrite !Z.div_div by (try apply Z.pow_pos_nonneg; lia).
    f_equal. replace (Zpos p~0) with (Zpos p + Zpos p) by lia.
    rewrite !Z.pow_add_r by lia. lia.
  - rewrite shr_1_m by done. reflexivity.
Qed.

Lemma shr_spec (mrs : shr_record) (e n : Z) :
  0 <= shr_m mrs ->
  shr_m (fst (shr mrs e n)) = shr_m mrs / 2 ^ Z.max 0 n /\
  snd (shr mrs e n) = e + Z.max 0 n.
Proof.
  intros Hm. destruct n as [|p|p]; cbn [shr fst snd].
  - rewrite Z.max_id. simpl. rewrite Z.div_1_r. lia.
  - rewrite Z.max_r by lia. split; [by apply iter_pos_shr_1_m | lia].
  - rewrite Z.max_l by lia. simpl. rewrite Z.div_1_r. lia.
Qed.

Lemma shr_record_of_loc_m (m : Z) (l : location) :
  shr_m (shr_record_of_loc m l) = m.
Proof. by destruct l as [|[]]. Qed.

Lemma shr_fexp_spec (m e : Z) (l : location) :
  0 <= m ->
  shr_m (fst (shr_fexp prec emax m e l)) = m / 2 ^ shift_of m e /\
  snd (shr_fexp prec emax m e l) = e + shift_of m e.
Proof.
  intros Hm. unfold shr_fexp, shift_of.
  pose proof (shr_spec (shr_record_of_loc m l) e
                (fexp prec emax (Zdigits2 m + e) - e)) as H.
  rewrite shr_record_of_loc_m in H. by apply H.
Qed.

Lemma round_nearest_even_bounds (m : Z) (l : location) :
  m <= round_nearest_even m l <= m + 1.
Proof.
  destruct l as [|[]]; cbn [round_nearest_even]; try lia.
  destruct (Z.even m); lia.
Qed.

Lemma binary_round_aux_finite (s : bool) (m e : Z) (l : location)
    (s' : bool) (m3 : positive) (e3 : Z) :
  0 <= m ->
  binary_round_aux prec emax s m e l = S754_finite s' m3 e3 ->
  s' = s /\
  exists m2 n2 : Z,
    0 <= n2 /\
    m / 2 ^ shift_of m e <= m2 <= m / 2 ^ shift_of m e + 1 /\
    Zpos m3 = m2 / 2 ^ n2 /\
    e3 = e + shift_of m e + n2.
Proof.
  intros Hm. unfold binary_round_aux.
  pose proof (shr_fexp_spec m e l Hm) as [H1m H1e].
  destruct (shr_fexp prec emax m e l) as [mrs1 e1]. cbn [fst snd] in H1m, H1e.
  set (m2 := round_nearest_even (shr_m mrs1) (loc_of_shr_record mrs1)).
  pose proof (round_nearest_even_bounds (shr_m mrs1) (loc_of_shr_record mrs1)) as Hr.
  fold m2 in Hr.
  assert (Hm1 : 0 <= shr_m mrs1).
  { rewrite H1m. apply Z.div_pos; [done|]. apply Z.pow_pos_nonneg; unfold shift_of; lia. }
  assert (Hm2 : 0 <= m2) by lia.
  pose proof (shr_fexp_spec m2 e1 loc_Exact Hm2) as [H2m H2e].
  destruct (shr_fexp prec emax m2 e1 loc_Exact) as [mrs2 e2]. cbn [fst snd] in H2m, H2e.
  destruct (shr_m mrs2) as [|p|p] eqn:Hp; try discriminate.
  destruct (e2 <=? emax - prec); try discriminate.
  intros [= <- <- <-]. split; [done|].
  exists m2, (shift_of m2 e1). repeat split.
  - unfold shift_of; lia.
  - rewrite <- H1m. lia.
  - rewrite <- H1m. lia.
  - done.
  - lia.
Qed.

Lemma binary_round_aux_canonical (s : bool) (m : positive) (e : Z) :
  fexp prec emax (Zpos (digits2_pos m) + e) = e ->
  e <= emax - prec ->
  binary_round_aux prec emax s (Zpos m) e loc_Exact = S754_finite s m e.
Proof.
  intros Hc He. unfold binary_round_aux, shr_fexp.
  cbn [Zdigits2 shr_record_of_loc]. rewrite Hc, Z.sub_diag.
  cbn [shr loc_of_shr_record shr_m round_nearest_even Zdigits2 shr_record_of_loc].
  rewrite Hc, Z.sub_diag. cbn [shr shr_m].
  by rewrite (proj2 (Z.leb_le _ _) He).
Qed.

Lemma iter_xO_spec (p k : positive) :
  Zpos (Pos.iter xO p k) = Zpos p * 2 ^ Zpos k /\
  Zpos (digits2_pos (Pos.iter xO p k)) = Zpos (digits2_pos p) + Zpos k.
Proof.
  induction k as [|k [IH1 IH2]] using Pos.peano_ind.
  - cbn [Pos.iter digits2_pos]. split; lia.
  - rewrite Pos.iter_succ. cbn [digits2_pos].
    rewrite Pos2Z.inj_xO, IH1, !Pos2Z.inj_succ, IH2, Z.pow_succ_r by lia. lia.
Qed.

Lemma fexp_normal (x : Z) : -1021 <= x -> fexp prec emax x = x - 53.
Proof. unfold fexp, emin, prec, emax. lia. Qed.

Lemma fexp_le (x b : Z) : x - 53 <= b -> -1074 <= b -> fexp prec emax x <= b.
Proof. unfold fexp, emin, prec, emax. lia. Qed.

Lemma fexp_ge (x : Z) : -1074 <= fexp prec emax x.
Proof. unfold fexp, emin, prec, emax. lia. Qed.

Lemma of_int_pos (s : bool) (p : positive) :
  Zpos p < 2 ^ 53 ->
  exists (m : positive) (e : Z),
    binary_round prec emax s p 0 = S754_finite s m e /\
    -52 <= e <= 0 /\
    Zpos m = Zpos p * 2 ^ (- e) /\
    e = Zpos (digits2_pos p) - 53.
Proof.
  intros Hp. pose proof (digits2_pos_bounds p) as [Hlo Hhi].
  assert (Hd : Zpos (digits2_pos p) <= 53).
  { destruct (Z_le_gt_dec (Zpos (digits2_pos p)) 53) as [|Hgt]; [done|].
    assert (2 ^ 53 <= 2 ^ (Zpos (digits2_pos p) - 1)) by (apply Z.pow_le_mono_r; lia).
    lia. }
  unfold binary_round. rewrite fexp_normal by lia. unfold shl_align.
  destruct (Zpos (digits2_pos p) + 0 - 53 - 0) as [|k|k] eqn:Hk; [|lia|].
  - exists p, 0. split; [|split; [lia|split; [simpl; lia|lia]]].
    apply binary_round_aux_canonical; [|unfold emax, prec; lia].
    rewrite fexp_normal by lia. lia.
  - pose proof (iter_xO_spec p k) as [Hv Hdg].
    exists (Pos.iter xO p k), (Zpos (digits2_pos p) + 0 - 53).
    split; [|split; [lia|split; [|lia]]].
    + apply binary_round_aux_canonical; [|unfold emax, prec; lia].
      rewrite Hdg, fexp_normal by lia. lia.
    + rewrite Hv. do 2 f_equal. lia.
Qed.

Lemma pow2_pos (k : Z) : 0 <= k -> 0 < 2 ^ k.
Proof. intros. apply Z.pow_pos_nonneg; lia. Qed.

Lemma pow2_sum (a b c : Z) :
  0 <= a -> 0 <= b -> c = a + b -> 2 ^ c = 2 ^ a * 2 ^ b.
Proof. intros ? ? ->. by apply Z.pow_add_r. Qed.

Lemma pow2_lt_inv (a b : Z) : 0 <= a -> 0 <= b -> 2 ^ a < 2 ^ b -> a < b.
Proof. intros Ha Hb H. apply (Z.pow_lt_mono_r_iff 2); lia. Qed.

Lemma pow2_le (a b : Z) : 0 <= a <= b -> 2 ^ a <= 2 ^ b.
Proof. intros. apply Z.pow_le_mono_r; lia. Qed.

Lemma Zdigits2_nonneg (m : Z) : 0 <= Zdigits2 m.
Proof. destruct m; simpl; lia. Qed.

Lemma Zdigits2_lower (m : Z) : 0 < m -> 2 ^ (Zdigits2 m - 1) <= m.
Proof.
  destruct m as [|p|p]; try lia. intros _. cbn [Zdigits2].
  apply digits2_pos_bounds.
Qed.

(** Upper bound on the value a rounding returns: at most one unit in the
    last place above the value rounded. *)
Lemma binary_round_aux_value (s : bool) (m e : Z) (l : location)
    (s' : bool) (m3 : positive) (e3 : Z) :
  0 <= m -> - bias <= e ->
  binary_round_aux prec emax s m e l = S754_finite s' m3 e3 ->
  s' = s /\ e + shift_of m e <= e3 /\
  Zpos m3 * 2 ^ (e3 + bias)
    <= m * 2 ^ (e + bias) + 2 ^ (e + shift_of m e + bias).
Proof.
  intros Hm He H.
  destruct (binary_round_aux_finite _ _ _ _ _ _ _ Hm H)
    as (-> & m2 & n2 & Hn2 & Hm2 & Hm3 & ->).
  assert (Hn : 0 <= shift_of m e) by (unfold shift_of; lia).
  split; [done|]. split; [lia|].
  set (n := shift_of m e) in *.
  rewrite (pow2_sum n2 (n + (e + bias)) (e + n + n2 + bias)) by lia.
  rewrite (pow2_sum n (e + bias) (e + n + bias)) by lia.
  rewrite (pow2_sum n (e + bias) (n + (e + bias))) by lia.
  pose proof (pow2_pos (e + bias) ltac:(lia)) as HA.
  pose proof (pow2_pos n Hn) as HB.
  pose proof (pow2_pos n2 Hn2) as HC.
  pose proof (Z.mul_div_le m2 (2 ^ n2) HC) as H3.
  pose proof (Z.mul_div_le m (2 ^ n) HB) as H4.
  rewrite <- Hm3 in H3.
  set (A := 2 ^ (e + bias)) in *. set (B := 2 ^ n) in *. set (C := 2 ^ n2) in *.
  set (q := m / B) in *.
  assert (H5 : Zpos m3 * C <= q + 1) by lia.
  assert (H6 : Zpos m3 * C * (B * A) <= (q + 1) * (B * A)).
  { apply Z.mul_le_mono_nonneg_r; nia. }
  assert (H7 : B * q * A <= m * A).
  { apply Z.mul_le_mono_nonneg_r; lia. }
  nia.
Qed.

Lemma float_floor_le (m : positive) (e B : Z) :
  - bias <= e ->
  Zpos m * 2 ^ (e + bias) < (B + 1) * 2 ^ bias ->
  Z.shiftl (Zpos m) e <= B.
Proof.
  intros He H. destruct (Z_le_gt_dec 0 e) as [Hpos|Hneg].
  - rewrite Z.shiftl_mul_pow2 by done.
    rewrite (pow2_sum e bias (e + bias)) in H by (unfold bias; lia).
    pose proof (pow2_pos bias ltac:(unfold bias; lia)).
    nia.
  - rewrite Z.shiftl_div_pow2 by lia.
    rewrite (pow2_sum (- e) (e + bias) bias) in H by lia.
    pose proof (pow2_pos (e + bias) ltac:(lia)).
    pose proof (pow2_pos (- e) ltac:(lia)).
    assert (Zpos m < (B + 1) * 2 ^ (- e)) by nia.
    assert (Zpos m / 2 ^ (- e) < B + 1); [|lia].
    apply Z.div_lt_upper_bound; lia.
Qed.

Lemma SFdiv_core_binary_spec (m1 m2 : positive) (e1 e2 : Z) :
  let '(q, e', l) := SFdiv_core_binary prec emax (Zpos m1) e1 (Zpos m2) e2 in
  0 <= q /\
  e' = Z.min (fexp prec emax (Zpos (digits2_pos m1) + e1
                              - (Zpos (digits2_pos m2) + e2))) (e1 - e2) /\
  q * Zpos m2 <= Zpos m1 * 2 ^ (e1 - e2 - e').
Proof.
  unfold SFdiv_core_binary. cbn [Zdigits2].
  set (e' := Z.min _ _).
  set (sh := e1 - e2 - e').
  assert (Hs : 0 <= sh) by (unfold sh, e'; lia).
  set (m' := match sh with Z0 => Zpos m1 | Zpos _ => Z.shiftl (Zpos m1) sh | Zneg _ => 0 end).
  assert (Hm' : m' = Zpos m1 * 2 ^ sh).
  { unfold m'. destruct sh as [|k|k] eqn:Hk; [simpl; lia| |lia].
    by rewrite Z.shiftl_mul_pow2. }
  pose proof (Z.div_eucl_eq m' (Zpos m2) ltac:(lia)) as Heq.
  pose proof (Z.mod_pos_bound m' (Zpos m2) ltac:(lia)) as Hr.
  pose proof (pow2_pos sh Hs) as Hp.
  unfold Z.modulo in Hr.
  destruct (Z.div_eucl m' (Zpos m2)) as [q r].
  split; [nia|]. split; [done|].
  change (q * Z.pos m2 <= Z.pos m1 * 2 ^ sh). rewrite <- Hm'. lia.
Qed.

Lemma of_int_finite (z : Z) :
  0 < z < 2 ^ 31 ->
  exists (m : positive) (e : Z),
    of_int z = S754_finite false m e /\
    -52 <= e <= -22 /\
    Zpos m = z * 2 ^ (- e) /\
    Zpos (digits2_pos m) + e = Zdigits2 z.
Proof.
  intros [Hz Hz']. destruct z as [|p|p]; try lia.
  destruct (of_int_pos false p) as (m & e & Hr & He & Hm & Hd); [lia|].
  exists m, e. split; [done|].
  pose proof (digits2_pos_bounds p) as [Hlo Hhi].
  assert (Zpos (digits2_pos p) <= 31).
  { destruct (Z_le_gt_dec (Zpos (digits2_pos p)) 31) as [|Hgt]; [done|].
    assert (2 ^ 31 <= 2 ^ (Zpos (digits2_pos p) - 1)) by (apply Z.pow_le_mono_r; lia).
    lia. }
  split; [lia|]. split; [done|].
  cbn [Zdigits2].
  pose proof (digits2_pos_bounds m) as [Hmlo Hmhi].
  assert (Hpe : 0 < 2 ^ (- e)) by (apply pow2_pos; lia).
  (* digits m = digits p - e *)
  assert (Zpos (digits2_pos m) = Zpos (digits2_pos p) - e); [|lia].
  apply Z.le_antisymm.
  - assert (Zpos (digits2_pos m) - 1 < Zpos (digits2_pos p) - e); [|lia].
    apply pow2_lt_inv; [lia|lia|].
    rewrite (pow2_sum (Zpos (digits2_pos p)) (- e) (Zpos (digits2_pos p) - e)) by lia.
    nia.
  - assert (Zpos (digits2_pos p) - e - 1 < Zpos (digits2_pos m)); [|lia].
    apply pow2_lt_inv; [lia|lia|].
    rewrite (pow2_sum (Zpos (digits2_pos p) - 1) (- e) (Zpos (digits2_pos p) - e - 1)) by lia.
    nia.
Qed.

Lemma Zdigits2_mono (a b : Z) : 0 < a <= b -> Zdigits2 a <= Zdigits2 b.
Proof.
  intros [Ha Hab]. destruct a as [|p|p], b as [|q|q]; try lia. cbn [Zdigits2].
  pose proof (digits2_pos_bounds p) as [Hlo _].
  pose proof (digits2_pos_bounds q) as [_ Hhi].
  assert (Zpos (digits2_pos p) - 1 < Zpos (digits2_pos q)); [|lia].
  apply pow2_lt_inv; lia.
Qed.

Lemma ratio_bound (M mx : Z) (sr : bool) (mr : positive) (er : Z) :
  0 < M < mx -> mx < 2 ^ 31 ->
  SFdiv prec emax (of_int M) (of_int mx) = S754_finite sr mr er ->
  sr = false /\ -1074 <= er <= 0 /\
  Zpos mr * 2 ^ (er + bias) * mx <= M * 2 ^ bias + mx * 2 ^ (bias - 53).
Proof.
  intros HM Hmx.
  destruct (of_int_finite M ltac:(lia)) as (mM & eM & -> & HeM & HvM & HdM).
  destruct (of_int_finite mx ltac:(lia)) as (mX & eX & -> & HeX & HvX & HdX).
  cbn [SFdiv xorb].
  pose proof (SFdiv_core_binary_spec mM mX eM eX) as Hcore.
  destruct (SFdiv_core_binary prec emax (Zpos mM) eM (Zpos mX) eX) as [[q e'] l].
  destruct Hcore as (Hq & He' & Hqm). intros Hr.
  pose proof (Zdigits2_mono M mx ltac:(lia)) as Hdig.
  pose proof (fexp_ge (Zpos (digits2_pos mM) + eM - (Zpos (digits2_pos mX) + eX))) as Hge.
  pose proof (fexp_le (Zpos (digits2_pos mM) + eM - (Zpos (digits2_pos mX) + eX)) (-53)
                ltac:(lia) ltac:(lia)) as Hle.
  assert (He'lo : -1074 <= e') by lia.
  assert (He'hi : e' <= -53) by lia.
  (* the quotient, as a value, is at most M / mx *)
  assert (HD1 : q * 2 ^ (e' + bias) * mx <= M * 2 ^ bias).
  { rewrite (pow2_sum (- eX) (e' + bias + eX) (e' + bias)) by (unfold bias; lia).
    rewrite (pow2_sum (- eM + (eM - eX - e')) (e' + bias + eX) bias) by (unfold bias; lia).
    rewrite (pow2_sum (- eM) (eM - eX - e') (- eM + (eM - eX - e'))) by lia.
    pose proof (pow2_pos (e' + bias + eX) ltac:(unfold bias; lia)) as HT.
    rewrite HvM, HvX in Hqm.
    set (T := 2 ^ (e' + bias + eX)) in *.
    set (A := 2 ^ (- eX)) in *. set (B := 2 ^ (- eM)) in *.
    set (C := 2 ^ (eM - eX - e')) in *.
    assert (q * (mx * A) * T <= M * B * C * T)
      by (apply Z.mul_le_mono_nonneg_r; lia).
    lia. }
  pose proof (pow2_pos bias ltac:(unfold bias; lia)) as HL.
  pose proof (pow2_pos (e' + bias) ltac:(unfold bias; lia)) as HE.
  assert (HD2 : Zdigits2 q + e' <= 0).
  { destruct (Z.eq_dec q 0) as [->|Hq0]; [simpl; lia|].
    pose proof (Zdigits2_lower q ltac:(lia)) as Hlow.
    pose proof (Zdigits2_nonneg q).
    destruct (Z.eq_dec (Zdigits2 q) 0) as [->|]; [lia|].
    assert (Zdigits2 q - 1 + (e' + bias) < bias); [|lia].
    apply pow2_lt_inv; [unfold bias; lia|unfold bias; lia|].
    rewrite (pow2_sum (Zdigits2 q - 1) (e' + bias) (Zdigits2 q - 1 + (e' + bias)))
      by (unfold bias; lia).
    set (E := 2 ^ (e' + bias)) in *. set (L := 2 ^ bias) in *.
    set (D := 2 ^ (Zdigits2 q - 1)) in *. clearbody E L D.
    assert (M * L < mx * L) by (apply Z.mul_lt_mono_pos_r; lia).
    assert (q * E < L).
    { apply (Z.mul_lt_mono_pos_r mx); [lia|]. clear - HD1 H0. lia. }
    assert (D * E <= q * E) by (apply Z.mul_le_mono_nonneg_r; lia).
    lia. }
  assert (Hbe : - bias <= e') by (unfold bias; lia).
  destruct (binary_round_aux_value _ _ _ _ _ _ _ Hq Hbe Hr) as (-> & HE3 & HV).
  assert (Hsh : e' + shift_of q e' <= -53).
  { unfold shift_of.
    pose proof (fexp_le (Zdigits2 q + e') (-53) ltac:(lia) ltac:(lia)). lia. }
  assert (Hsh' : -1074 <= e' + shift_of q e') by (unfold shift_of; lia).
  pose proof (pow2_le (e' + shift_of q e' + bias) (bias - 53)
                ltac:(unfold bias; lia)) as Hulp.
  assert (HD3 : Zpos mr * 2 ^ (er + bias) * mx
                <= M * 2 ^ bias + mx * 2 ^ (bias - 53)) by nia.
  split; [done|]. split; [|done]. split; [lia|].
  pose proof (pow2_pos (er + bias) ltac:(unfold bias; lia)) as HR.
  assert (2 ^ (bias - 53) < 2 ^ bias).
  { apply Z.pow_lt_mono_r; unfold bias; lia. }
  assert (2 ^ (er + bias) < 2 ^ (bias + 1)).
  { rewrite (pow2_sum bias 1 (bias + 1)) by (unfold bias; lia).
    change (2 ^ 1) with 2.
    set (R := 2 ^ (er + bias)) in *. set (L := 2 ^ bias) in *.
    set (U := 2 ^ (bias - 53)) in *. clearbody R L U.
    assert (1 * (R * mx) <= Zpos mr * (R * mx))
      by (apply Z.mul_le_mono_nonneg_r; nia).
    assert (M * L < mx * L) by (apply Z.mul_lt_mono_pos_r; lia).
    assert (mx * U < mx * L) by (apply Z.mul_lt_mono_pos_l; lia).
    apply (Z.mul_lt_mono_pos_r mx); [lia|]. lia. }
  assert (er + bias < bias + 1); [|lia].
  apply pow2_lt_inv; unfold bias; unfold bias in *; lia.
Qed.

Lemma scaled_value_bound (w mx M : Z) :
  0 < w <= mx -> mx < 2 ^ 31 -> 0 < M < mx ->
  match SFmul prec emax (of_int w)
          (SFdiv prec emax (of_int M) (of_int mx)) with
  | S754_finite s m e => s = false /\ Z.shiftl (Zpos m) e <= M
  | _ => True
  end.
Proof.
  intros Hw Hmx HM.
  destruct (SFdiv prec emax (of_int M) (of_int mx)) as [sr|sr| |sr mr er] eqn:Hr.
  1-3: destruct (of_int_finite w ltac:(lia)) as (mW & eW & -> & _); by cbn.
  destruct (ratio_bound M mx sr mr er HM Hmx Hr) as (-> & Her & HVr).
  destruct (of_int_finite w ltac:(lia)) as (mW & eW & -> & HeW & HvW & HdW).
  cbn [SFmul xorb].
  destruct (binary_round_aux prec emax false (Zpos (mW * mr)) (eW + er) loc_Exact)
    as [s3|s3| |s3 m3 e3] eqn:HR; try done.
  assert (Hm : 0 <= Zpos (mW * mr)) by lia.
  assert (Hbe : - bias <= eW + er) by (unfold bias; lia).
  destruct (binary_round_aux_value _ _ _ _ _ _ _ Hm Hbe HR) as (-> & HE3 & HV).
  split; [done|].
  apply float_floor_le; [unfold bias in *; unfold shift_of in *; lia|].
  (* the exact product is w times the ratio *)
  assert (HP : Zpos (mW * mr) * 2 ^ (eW + er + bias)
               = w * (Zpos mr * 2 ^ (er + bias))).
  { rewrite Pos2Z.inj_mul, HvW.
    rewrite (pow2_sum (- eW) (eW + er + bias) (er + bias)) by (unfold bias; lia).
    ring. }
  rewrite HP in HV.
  pose proof (pow2_pos bias ltac:(unfold bias; lia)) as HL.
  pose proof (pow2_pos (er + bias) ltac:(unfold bias; lia)) as HRr.
  pose proof (pow2_pos (bias - 53) ltac:(unfold bias; lia)) as HU.
  assert (HUL : 2 ^ 31 * 2 ^ (bias - 53) = 2 ^ (bias - 22)).
  { symmetry. apply pow2_sum; unfold bias; lia. }
  assert (HUL2 : 2 ^ (bias - 21) = 2 * 2 ^ (bias - 22)).
  { change 2 with (2 ^ 1) at 2. apply pow2_sum; unfold bias; lia. }
  assert (HUL3 : 2 ^ bias = 2 ^ 22 * 2 ^ (bias - 22)).
  { apply pow2_sum; unfold bias; lia. }
  assert (HUL4 : 2 ^ (bias + 32) = 2 ^ 32 * 2 ^ bias).
  { apply pow2_sum; unfold bias; lia. }
  pose proof (pow2_pos (bias - 22) ltac:(unfold bias; lia)) as HU22.
  (* the ratio is below two *)
  assert (HVr2 : Zpos mr * 2 ^ (er + bias) < 2 * 2 ^ bias).
  { assert (2 ^ (bias - 53) < 2 ^ bias)
      by (apply Z.pow_lt_mono_r; unfold bias; lia).
    set (Vr := Zpos mr * 2 ^ (er + bias)) in *.
    set (L := 2 ^ bias) in *. set (U := 2 ^ (bias - 53)) in *. clearbody Vr L U.
    assert (M * L < mx * L) by (apply Z.mul_lt_mono_pos_r; lia).
    assert (mx * U < mx * L) by (apply Z.mul_lt_mono_pos_l; lia).
    apply (Z.mul_lt_mono_pos_r mx); [lia|]. lia. }
  (* the unit in the last place of the product is at most 2^-21 *)
  assert (Hsh : eW + er + shift_of (Zpos (mW * mr)) (eW + er) <= -21).
  { unfold shift_of.
    assert (Zdigits2 (Zpos (mW * mr)) + (eW + er) <= 32).
    { pose proof (Zdigits2_lower (Zpos (mW * mr)) ltac:(lia)) as Hlow.
      pose proof (Zdigits2_nonneg (Zpos (mW * mr))).
      assert (Zdigits2 (Zpos (mW * mr)) - 1 + (eW + er + bias) < bias + 32); [|lia].
      cbn [Zdigits2] in *.
      apply pow2_lt_inv; [unfold bias; lia|unfold bias; lia|].
      rewrite (pow2_sum (Zpos (digits2_pos (mW * mr)) - 1) (eW + er + bias)
                 (Zpos (digits2_pos (mW * mr)) - 1 + (eW + er + bias)))
        by (unfold bias; lia).
      rewrite HUL4.
      pose proof (pow2_pos (eW + er + bias) ltac:(unfold bias; lia)) as HEE.
      set (D := 2 ^ (Zpos (digits2_pos (mW * mr)) - 1)) in *.
      set (EE := 2 ^ (eW + er + bias)) in *.
      set (Vr := Zpos mr * 2 ^ (er + bias)) in *.
      set (L := 2 ^ bias) in *. clearbody D EE Vr L.
      assert (D * EE <= Zpos (mW * mr) * EE)
        by (apply Z.mul_le_mono_nonneg_r; lia).
      assert (w * Vr <= 2 ^ 31 * Vr) by (apply Z.mul_le_mono_nonneg_r; lia).
      lia. }
    pose proof (fexp_le (Zdigits2 (Zpos (mW * mr)) + (eW + er)) (-21)
                  ltac:(lia) ltac:(lia)).
    lia. }
  assert (Hsh' : - bias <= eW + er + shift_of (Zpos (mW * mr)) (eW + er))
    by (unfold shift_of, bias; lia).
  pose proof (pow2_le (eW + er + shift_of (Zpos (mW * mr)) (eW + er) + bias)
                (bias - 21) ltac:(unfold bias in *; lia)) as Hulp.
  set (V3 := Zpos m3 * 2 ^ (e3 + bias)) in *.
  set (Vr := Zpos mr * 2 ^ (er + bias)) in *.
  set (L := 2 ^ bias) in *. set (U := 2 ^ (bias - 53)) in *.
  set (U22 := 2 ^ (bias - 22)) in *. set (U21 := 2 ^ (bias - 21)) in *.
  set (X := 2 ^ (eW + er + shift_of (Zpos (mW * mr)) (eW + er) + bias)) in *.
  clearbody V3 Vr L U U22 U21 X.
  assert (H1 : w * (Vr * mx) <= w * (M * L + mx * U))
    by (apply Z.mul_le_mono_nonneg_l; lia).
  assert (H2 : w * (M * L) <= mx * (M * L))
    by (apply Z.mul_le_mono_nonneg_r; nia).
  assert (H3 : w * (mx * U) <= 2 ^ 31 * (mx * U))
    by (apply Z.mul_le_mono_nonneg_r; nia).
  assert (H4 : V3 * mx <= (w * Vr + X) * mx)
    by (apply Z.mul_le_mono_nonneg_r; lia).
  assert (H5 : X * mx <= U21 * mx)
    by (apply Z.mul_le_mono_nonneg_r; lia).
  assert (H6 : 2 ^ 31 * (mx * U) = mx * U22) by (rewrite <- HUL; ring).
  apply (Z.mul_lt_mono_pos_r mx); [lia|].
  assert (H7 : mx * (3 * U22) < mx * L)
    by (apply Z.mul_lt_mono_pos_l; lia).
  lia.
Qed.

Lemma binary_round_aux_sign (s : bool) (m e : Z) (l : location) :
  match binary_round_aux prec emax s m e l with
  | S754_zero s' | S754_infinity s' | S754_finite s' _ _ => s' = s
  | S754_nan => True
  end.
Proof.
  unfold binary_round_aux.
  destruct (shr_fexp prec emax m e l) as [mrs1 e1].
  destruct (shr_fexp prec emax _ e1 loc_Exact) as [mrs2 e2].
  destruct (shr_m mrs2); [done| |done].
  by destruct (e2 <=? emax - prec).
Qed.

Lemma binary_round_aux_nonpositive (m e : Z) (l : location) :
  nonpositive (binary_round_aux prec emax true m e l).
Proof.
  pose proof (binary_round_aux_sign true m e l) as H.
  by destruct (binary_round_aux prec emax true m e l).
Qed.

Lemma of_int_nonpositive (z : Z) : z <= 0 -> nonpositive (of_int z).
Proof.
  intros Hz. destruct z as [|p|p]; [done|lia|].
  unfold of_int, binary_normalize, binary_round.
  destruct (shl_align p 0 _) as [mz ez]. apply binary_round_aux_nonpositive.
Qed.

Lemma SFdiv_nonpositive (x : spec_float) (m : positive) (e : Z) :
  nonpositive x -> nonpositive (SFdiv prec emax x (S754_finite false m e)).
Proof.
  destruct x as [s|s| |s mx ex]; cbn [SFdiv nonpositive]; try done.
  - intros ->. done.
  - intros ->. cbn [xorb].
    destruct (SFdiv_core_binary prec emax (Zpos mx) ex (Zpos m) e) as [[q e'] l].
    apply binary_round_aux_nonpositive.
Qed.

Lemma SFmul_nonpositive (x : spec_float) (m : positive) (e : Z) :
  nonpositive x -> nonpositive (SFmul prec emax (S754_finite false m e) x).
Proof.
  destruct x as [s|s| |s mx ex]; cbn [SFmul nonpositive]; try done.
  intros ->. cbn [xorb]. apply binary_round_aux_nonpositive.
Qed.

End Binary64.

(** ** The preprocessor *)

Section Preprocessor.

Variable convert_pixels : string -> string -> Z * Z -> list Z -> outcome (list Z).
Variable resample_pixels : string -> Z * Z -> Z * Z -> list Z -> list Z.

Local Abbreviation prepare_for_api :=
  (_prepare_image_for_api convert_pixels resample_pixels).

(** A dimension scaled by the ratio and truncated never exceeds the
    requested maximum (and is not positive when the maximum is not). *)
Lemma scaled_dimension_le (w mx M n : Z) (ratio : PyFloat.float) :
  0 < w <= mx -> mx < 2 ^ 31 -> M < mx ->
  PyFloat.truediv M mx = Ok ratio ->
  PyFloat.to_int (PyFloat.mul_int w ratio) = Ok n ->
  n <= Z.max 0 M.
Proof.
  intros Hw Hmx HM. unfold PyFloat.truediv, PyFloat.mul_int.
  destruct (mx =? 0) eqn:E; [lia|]. intros [= <-].
  destruct (Z_lt_le_dec 0 M) as [Hpos|Hneg].
  - pose proof (Binary64.scaled_value_bound w mx M Hw Hmx (conj Hpos HM)) as Hb.
    destruct (SFmul _ _ _ _) as [s|s| |s m e]; cbn [PyFloat.to_int];
      try discriminate; intros [= <-]; [lia|].
    destruct Hb as [-> Hb]. cbn [cond_Zopp]. lia.
  - destruct (Binary64.of_int_finite mx ltac:(lia)) as (mX & eX & HX & _).
    destruct (Binary64.of_int_finite w ltac:(lia)) as (mW & eW & HW & _).
    pose proof (Binary64.SFmul_nonpositive _ mW eW
                  (Binary64.SFdiv_nonpositive _ mX eX
                     (Binary64.of_int_nonpositive M Hneg))) as Hn.
    rewrite HX, HW.
    destruct (SFmul _ _ _ _) as [s|s| |s m e]; cbn [PyFloat.to_int];
      try discriminate; intros [= <-]; [lia|].
    cbn [PyFloat.nonpositive] in Hn. subst s. cbn [cond_Zopp].
    pose proof (proj2 (Z.shiftl_nonneg (Zpos m) e) ltac:(lia)). lia.
Qed.

(** An image that already conforms is returned as it is. *)
Lemma prepare_conforming (image : Image) (max_size : Z) :
  mode image = "RGB" ->
  Z.max (width image) (height image) <= max_size ->
  prepare_for_api image max_size = Ok image.
Proof.
  intros Hmode Hmax. unfold _prepare_image_for_api, width, height in *.
  destruct (decide (mode image <> "RGB")) as [Hne|_]; [done|].
  cbn [obind]. destruct (size image) as [w h]. cbn [fst snd] in Hmax.
  destruct (Z.gtb_spec (Z.max w h) max_size); [lia|done].
Qed.

(** What the preprocessor returns is in three-channel colour and within
    the maximum. *)
Lemma prepare_result (image image' : Image) (max_size : Z) :
  valid_image image ->
  prepare_for_api image max_size = Ok image' ->
  mode image' = "RGB" /\
  Z.max (width image') (height image') <= max_size.
Proof.
  intros [Hw Hh]. unfold _prepare_image_for_api.
  set (converted := if decide (mode image <> "RGB")
                    then convert convert_pixels image "RGB" else Ok image).
  assert (Hc : forall im, converted = Ok im ->
                          mode im = "RGB" /\ size im = size image).
  { intros im. unfold converted, convert.
    destruct (decide (mode image <> "RGB")) as [Hne|He].
    - destruct (convert_pixels _ _ _ _); cbn [obind]; [|done].
      by intros [= <-].
    - intros [= <-]. split; [|done].
      by destruct (decide (mode image = "RGB")). }
  destruct converted as [im|e]; cbn [obind]; [|done].
  destruct (Hc im eq_refl) as [Hmode Hsize]. clear Hc.
  unfold width, height in *. rewrite <- Hsize in Hw, Hh.
  destruct (size im) as [w h] eqn:Hs. cbn [fst snd] in Hw, Hh.
  destruct (Z.gtb_spec (Z.max w h) max_size) as [Hgt|Hle].
  - destruct (PyFloat.truediv max_size (Z.max w h)) as [ratio|e] eqn:Hr;
      cbn [obind]; [|done].
    destruct (PyFloat.to_int (PyFloat.mul_int w ratio)) as [nw|e] eqn:Hnw;
      cbn [obind]; [|done].
    destruct (PyFloat.to_int (PyFloat.mul_int h ratio)) as [nh|e] eqn:Hnh;
      cbn [obind]; [|done].
    pose proof (scaled_dimension_le w (Z.max w h) max_size nw ratio
                  ltac:(lia) ltac:(lia) Hgt Hr Hnw) as Hbw.
    pose proof (scaled_dimension_le h (Z.max w h) max_size nh ratio
                  ltac:(lia) ltac:(lia) Hgt Hr Hnh) as Hbh.
    unfold resize. rewrite Hs.
    destruct (decide ((w, h) = (nw, nh))) as [[= <- <-]|Hne].
    + intros [= <-]. rewrite Hs. cbn [fst snd]. split; [done|lia].
    + cbn [fst snd].
      destruct (Z.ltb_spec nw 1); cbn [orb]; [done|].
      destruct (Z.ltb_spec nh 1); [done|].
      intros [= <-]. cbn [mode size fst snd]. split; [done|lia].
  - intros [= <-]. rewrite Hs. by cbn [fst snd].
Qed.

(** C3: the preprocessor is idempotent.  For every valid image and every
    maximum, preparing the prepared image gives what preparing once gives
    (the same image, or the same exception); and an image already in
    three-channel colour whose larger dimension is at most the maximum is
    returned unchanged. *)
Theorem prepare_idempotent (image : Image) (max_size : Z) :
  valid_image image ->
  obind (_prepare_image_for_api convert_pixels resample_pixels
           image max_size)
        (fun prepared =>
           _prepare_image_for_api convert_pixels resample_pixels
             prepared max_size)
    = _prepare_image_for_api convert_pixels resample_pixels image max_size
  /\ (mode image = "RGB" ->
      Z.max (width image) (height image) <= max_size ->
      _prepare_image_for_api convert_pixels resample_pixels image max_size
        = Ok image).
Proof.
  intros Hvalid. split; [|apply prepare_conforming].
  destruct (prepare_for_api image max_size) as [prepared|e] eqn:H;
    cbn [obind]; [|done].
  destruct (prepare_result image prepared max_size Hvalid H) as [Hmode Hmax].
  by apply prepare_conforming.
Qed.

(** C2, at a 1568x1000 image with the default maximum: the ratio
    1024 / 1568 rounds down in binary64, the product 1568 * ratio falls
    just below 1024, and truncation gives 1023 (and 653 for the height):
    the larger dimension of the result is 1023, not 1024. *)
Theorem prepare_1568x1000 (px : list Z) :
  let image := mkImage "RGB" (1568, 1000) px in
  Z.max (width image) (height image) > 1024
  /\ exists prepared,
       _prepare_image_for_api convert_pixels resample_pixels image 1024
         = Ok prepared
       /\ size prepared = (1023, 653)
       /\ Z.max (width prepared) (height prepared) = 1023.
Proof.
  cbv zeta. split; [reflexivity|].
  eexists. split; [vm_compute; reflexivity|]. split; reflexivity.
Qed.

(** C9, at a 100x102500 image, which the upload gate accepts as a face:
    the width scales to 100 * (1024 / 102500), below one, truncation
    gives 0, and the resize refuses the size. *)
Theorem prepare_100x102500_raises (px : list Z) :
  let image := mkImage "RGB" (100, 102500) px in
  validate_uploaded_image (decode_as image) (Some png_upload) "face"
    = (true, "Face image uploaded successfully", Some image)
  /\ (exists ratio,
        PyFloat.truediv 1024 (Z.max (width image) (height image)) = Ok ratio
        /\ PyFloat.to_int (PyFloat.mul_int (width image) ratio) = Ok 0)
  /\ _prepare_image_for_api convert_pixels resample_pixels image 1024
     = Raise (ValueError "height and width must be > 0").
Proof.
  cbv zeta. split; [vm_compute; reflexivity|]. split.
  - eexists. split; vm_compute; reflexivity.
  - vm_compute; reflexivity.
Qed.

End Preprocessor.

Lemma prepare_idempotent_witness :
  valid_image (rgba 2048 1025) /\
  obind (_prepare_image_for_api plain_convert plain_resample
           (rgba 2048 1025) 1024)
        (fun prepared =>
           _prepare_image_for_api plain_convert plain_resample prepared 1024)
    = _prepare_image_for_api plain_convert plain_resample
        (rgba 2048 1025) 1024.
Proof.
  assert (H : valid_image (rgba 2048 1025))
    by (unfold valid_image; cbn; lia).
  split; [exact H|].
  exact (proj1 (prepare_idempotent plain_convert plain_resample
                  (rgba 2048 1025) 1024 H)).
Defined.

(** ** The upload gate *)

Section GateFacts.

Variable Image_open : list Byte.byte -> outcome Image.


End GateFacts.

(** C1, at a 150x150 PNG uploaded as the book cover: the gate compares
    both dimensions with 100 whatever the role, so the image is accepted
    although it is below the 200x200 minimum the rejection message of the
    same function names for this role. *)
Theorem gate_accepts_book_150x150 (px : list Z) :
  validate_uploaded_image (decode_as (mkImage "RGB" (150, 150) px))
                          (Some png_upload) "book"
    = (true, "Book image uploaded successfully",
       Some (mkImage "RGB" (150, 150) px)).
Proof. reflexivity. Qed.

(** ** The client *)

(** C8: without the credential variable in the environment the
    constructor raises the configuration error at once; the world, and
    with it the log of remote calls, is left as it was. *)
Theorem init_without_key (w : world) :
  environ w !! "GEMINI_API_KEY" = None ->
  GeminiImageClient.__init__ w
    = (Raise (ValueError "GEMINI_API_KEY not found in environment variables"),
       w).
Proof. intros H. unfold GeminiImageClient.__init__. by rewrite H. Qed.

Lemma init_without_key_witness :
  GeminiImageClient.__init__ empty_world
    = (Raise (ValueError "GEMINI_API_KEY not found in environment variables"),
       empty_world).
Proof. apply (init_without_key empty_world). reflexivity. Defined.

Lemma style_additions_other (style : string) :
  style <> "natural" -> style <> "artistic" -> style <> "cartoon" ->
  GeminiImageClient.style_additions !! style = None.
Proof.
  intros H1 H2 H3. unfold GeminiImageClient.style_additions.
  rewrite !lookup_insert_ne by done. apply lookup_empty.
Qed.

(** C4: the prompt is a function of the style alone.  For each of the
    three named styles it is the base instruction, the clause the table
    holds for that style, and the closing sentence; the three prompts are
    pairwise distinct; every other style gives the prompt of "natural". *)
Theorem create_merge_prompt_styles (style : string) :
  let frame clause :=
    GeminiImageClient.base_prompt +:+ GeminiImageClient.newline +:+ "- "
      +:+ clause +:+ GeminiImageClient.newline +:+ GeminiImageClient.newline
      +:+ "Generate the merged book cover image with the child's face integrated." in
  let prompt := GeminiImageClient._create_merge_prompt in
  (prompt "natural" = frame (GeminiImageClient.style_additions !!! "natural")
   /\ prompt "artistic"
      = frame (GeminiImageClient.style_additions !!! "artistic")
   /\ prompt "cartoon"
      = frame (GeminiImageClient.style_additions !!! "cartoon"))
  /\ (prompt "natural" <> prompt "artistic"
      /\ prompt "natural" <> prompt "cartoon"
      /\ prompt "artistic" <> prompt "cartoon")
  /\ (style <> "natural" -> style <> "artistic" -> style <> "cartoon" ->
      prompt style = prompt "natural").
Proof.
  cbv zeta. split; [|split].
  - repeat split; vm_compute; reflexivity.
  - repeat split; vm_compute; discriminate.
  - intros H1 H2 H3.
    unfold GeminiImageClient._create_merge_prompt,
      GeminiImageClient.style_clause.
    by rewrite (style_additions_other style H1 H2 H3).
Qed.

Lemma create_merge_prompt_styles_witness :
  GeminiImageClient._create_merge_prompt "watercolor"
    = GeminiImageClient._create_merge_prompt "natural".
Proof.
  apply (proj2 (proj2 (create_merge_prompt_styles "watercolor")));
    discriminate.
Defined.

Section ClientFacts.

Variable convert_pixels : string -> string -> Z * Z -> list Z -> outcome (list Z).
Variable resample_pixels : string -> Z * Z -> Z * Z -> list Z -> list Z.
Variable Image_open : list Byte.byte -> outcome Image.
Variable jpeg_encode : Image -> outcome (list Byte.byte).
Variable service : Request -> outcome Response.

Local Abbreviation prepare :=
  (GeminiImageClient.prepare convert_pixels resample_pixels).
Local Abbreviation merge :=
  (GeminiImageClient.merge_face_into_book_cover
     convert_pixels resample_pixels Image_open service).
Local Abbreviation analyze :=
  (GeminiImageClient.analyze_images convert_pixels resample_pixels service).
Local Abbreviation validate := (GeminiImageClient.validate_images jpeg_encode).
Local Abbreviation test_connection :=
  (GeminiImageClient.test_api_connection service).
Local Abbreviation first_inline_image :=
  (GeminiImageClient.first_inline_image Image_open).

Ltac run_py :=
  unfold try_except, bind, lift, ret, print,
    GeminiImageClient.generate_content in *;
  cbn [fst snd] in *.

Ltac verdict :=
  do 2 eexists; (split; [reflexivity | cbn; discriminate]).

Lemma first_inline_image_none (ps : list Part) :
  Forall (fun part => inline_data part = None) ps ->
  first_inline_image ps = Ok None.
Proof.
  induction 1 as [|part rest Hpart _ IH]; [done|].
  cbn [GeminiImageClient.first_inline_image]. by rewrite Hpart.
Qed.

Lemma first_inline_image_first (before after : list Part) (part : Part)
    (blob : Blob) :
  Forall (fun part => inline_data part = None) before ->
  inline_data part = Some blob ->
  first_inline_image (before ++ part :: after)
    = obind (Image_open (data blob)) (fun image => Ok (Some image)).
Proof.
  intros Hbefore Hpart.
  induction Hbefore as [|p rest Hp _ IH]; cbn [app GeminiImageClient.first_inline_image].
  - by rewrite Hpart.
  - by rewrite Hp.
Qed.

(** Whatever happens inside, the merge hands back a value. *)
Lemma merge_returns (self : GeminiImageClient.t) (face book : Image)
    (style : string) (w : world) :
  returns (fst (merge self face book style w)).
Proof.
  unfold GeminiImageClient.merge_face_into_book_cover. run_py.
  repeat (match goal with
          | |- context [match ?x with _ => _ end] => destruct x
          end; cbn [fst snd returns]); done.
Qed.

(** C5, amended: let the remote service answer [resp].  If no part of
    [resp] carries inline data (there may be no parts at all, or the list
    may be unreachable), the merge returns the absent result and does not
    raise.  If some part carries inline data, only the first such part
    counts: the merge returns the image decoded from it when its bytes
    decode, and the absent result, again without raising, when they do
    not, whatever the later parts hold. *)
Theorem merge_response_extraction
    (self : GeminiImageClient.t) (face book : Image) (style : string)
    (w : world) (resp : Response) :
  (forall req, service req = Ok resp) ->
  ((forall ps, GeminiImageClient.response_parts resp = Ok ps ->
               Forall (fun part => inline_data part = None) ps) ->
   fst (merge self face book style w) = Ok None)
  /\ (forall (before after : list Part) (part : Part) (blob : Blob)
             (generated : Image),
        returns (prepare face) -> returns (prepare book) ->
        GeminiImageClient.response_parts resp
          = Ok (before ++ part :: after)%list ->
        Forall (fun part => inline_data part = None) before ->
        inline_data part = Some blob ->
        Image_open (data blob) = Ok generated ->
        fst (merge self face book style w) = Ok (Some generated))
  /\ (forall (before after : list Part) (part : Part) (blob : Blob),
        GeminiImageClient.response_parts resp
          = Ok (before ++ part :: after)%list ->
        Forall (fun part => inline_data part = None) before ->
        inline_data part = Some blob ->
        raises (Image_open (data blob)) ->
        fst (merge self face book style w) = Ok None).
Proof.
  intros Hservice. split; [|split].
  3: { intros before after part blob Hparts Hbefore Hpart Hopen.
       unfold GeminiImageClient.merge_face_into_book_cover. run_py.
       destruct (prepare face) as [face_img|e]; [|done].
       destruct (prepare book) as [book_img|e]; [|done].
       rewrite Hservice. cbn [fst snd]. rewrite Hparts.
       rewrite (first_inline_image_first before after part blob Hbefore
                  Hpart).
       by destruct (Image_open (data blob)). }
  - intros Hnone. unfold GeminiImageClient.merge_face_into_book_cover. run_py.
    destruct (prepare face) as [face_img|e]; [|done].
    destruct (prepare book) as [book_img|e]; [|done].
    rewrite Hservice. cbn [fst snd].
    destruct (GeminiImageClient.response_parts resp) as [ps|e]; [|done].
    by rewrite (first_inline_image_none ps (Hnone ps eq_refl)).
  - intros before after part blob generated Hface Hbook Hparts Hbefore Hpart
      Hopen.
    unfold GeminiImageClient.merge_face_into_book_cover. run_py.
    destruct (prepare face) as [face_img|e]; [|done].
    destruct (prepare book) as [book_img|e]; [|done].
    rewrite Hservice. cbn [fst snd]. rewrite Hparts.
    rewrite (first_inline_image_first before after part blob Hbefore Hpart).
    by rewrite Hopen.
Qed.

Lemma analyze_returns (self : GeminiImageClient.t) (face book : Image)
    (w : world) :
  returns (fst (analyze self face book w)).
Proof.
  unfold GeminiImageClient.analyze_images. run_py.
  repeat (match goal with
          | |- context [match ?x with _ => _ end] => destruct x
          end; cbn [fst snd returns]); done.
Qed.

Lemma test_connection_returns (self : GeminiImageClient.t) (w : world) :
  returns (fst (test_connection self w)).
Proof.
  unfold GeminiImageClient.test_api_connection. run_py.
  repeat (match goal with
          | |- context [match ?x with _ => _ end] => destruct x
          end; cbn [fst snd returns]); done.
Qed.

(** The validation always hands back a verdict with a non-empty message. *)
Lemma validate_returns (self : GeminiImageClient.t) (face book : Image)
    (w : world) :
  exists (verdict : bool) (message : string),
    fst (validate self face book w) = Ok (verdict, message)
    /\ message <> EmptyString.
Proof.
  unfold GeminiImageClient.validate_images. run_py.
  destruct ((fst (size face) <? 100) || (snd (size face) <? 100));
    [verdict|].
  destruct ((fst (size book) <? 200) || (snd (size book) <? 200));
    [verdict|].
  destruct (GeminiImageClient.save_jpeg jpeg_encode face)
    as [face_bytes|e]; [|verdict].
  destruct (Z.of_nat (length face_bytes) >? MiB10); [verdict|].
  destruct (GeminiImageClient.save_jpeg jpeg_encode book)
    as [book_bytes|e]; [|verdict].
  destruct (Z.of_nat (length book_bytes) >? MiB10); verdict.
Qed.

(** C6: none of the four operations raises, whatever the remote service
    and Pillow do.  When the remote service raises [e] the merge returns
    the absent result, the analysis returns the error text of the first
    failure met (of the preprocessing, else [e]) and the connection test
    returns false with the text of [e]; when encoding the face image
    raises, the validation returns false with the text of that
    exception. *)
Theorem operations_never_raise
    (self : GeminiImageClient.t) (face book : Image) (style : string)
    (w : world) :
  (returns (fst (merge self face book style w))
   /\ returns (fst (analyze self face book w))
   /\ returns (fst (validate self face book w))
   /\ returns (fst (test_connection self w)))
  /\ (forall e : exn,
        (forall req, service req = Raise e) ->
        fst (merge self face book style w) = Ok None
        /\ fst (analyze self face book w)
           = Ok ("Error analyzing images: "
                   +:+ str_exn match prepare face, prepare book with
                               | Raise e1, _ => e1
                               | Ok _, Raise e2 => e2
                               | Ok _, Ok _ => e
                               end)
        /\ fst (test_connection self w)
           = Ok (false, "API connection failed: " +:+ str_exn e))
  /\ (forall e : exn,
        100 <= fst (size face) -> 100 <= snd (size face) ->
        200 <= fst (size book) -> 200 <= snd (size book) ->
        GeminiImageClient.save_jpeg jpeg_encode face = Raise e ->
        fst (validate self face book w)
          = Ok (false, "Error validating images: " +:+ str_exn e)).
Proof.
  split; [|split].
  - split; [apply merge_returns|].
    split; [apply analyze_returns|].
    split; [|apply test_connection_returns].
    destruct (validate_returns self face book w) as (v & m & -> & _). done.
  - intros e Hservice. split; [|split].
    + unfold GeminiImageClient.merge_face_into_book_cover. run_py.
      destruct (prepare face); [|done]. destruct (prepare book); [|done].
      by rewrite Hservice.
    + unfold GeminiImageClient.analyze_images. run_py.
      destruct (prepare face); [|done]. destruct (prepare book); [|done].
      by rewrite Hservice.
    + unfold GeminiImageClient.test_api_connection. run_py.
      by rewrite Hservice.
  - intros e Hfw Hfh Hbw Hbh Hsave.
    unfold GeminiImageClient.validate_images. run_py.
    destruct (Z.ltb_spec (fst (size face)) 100); [lia|].
    destruct (Z.ltb_spec (snd (size face)) 100); [lia|].
    destruct (Z.ltb_spec (fst (size book)) 200); [lia|].
    destruct (Z.ltb_spec (snd (size book)) 200); [lia|].
    cbn [orb]. by rewrite Hsave.
Qed.

(** C10: the validation estimates the transmitted size from a JPEG
    encoding of each image.  It always returns a verdict with a non-empty
    message and never raises; and when the dimensions satisfy both
    minima, a face image in a mode JPEG cannot hold (RGBA, say) makes it
    return false with the text of the encoder's refusal, and so does any
    image of the pair in such a mode; when both encodings succeed the
    verdict is decided by the lengths of the two JPEG encodings alone. *)
Theorem validate_images_jpeg
    (self : GeminiImageClient.t) (face book : Image) (w : world) :
  (exists (verdict : bool) (message : string),
     fst (validate self face book w) = Ok (verdict, message)
     /\ message <> EmptyString)
  /\ (100 <= fst (size face) -> 100 <= snd (size face) ->
      200 <= fst (size book) -> 200 <= snd (size book) ->
      (mode face ∉ GeminiImageClient.jpeg_rawmodes ->
       fst (validate self face book w)
         = Ok (false,
               "Error validating images: cannot write mode "
                 +:+ mode face +:+ " as JPEG"))
      /\ (mode face ∉ GeminiImageClient.jpeg_rawmodes
          \/ mode book ∉ GeminiImageClient.jpeg_rawmodes ->
          exists message,
            fst (validate self face book w) = Ok (false, message))
      /\ (forall face_bytes book_bytes : list Byte.byte,
            GeminiImageClient.save_jpeg jpeg_encode face = Ok face_bytes ->
            GeminiImageClient.save_jpeg jpeg_encode book = Ok book_bytes ->
            fst (validate self face book w)
              = Ok (if Z.of_nat (length face_bytes) >? MiB10
                    then (false, "Face image file is too large (max 10MB)")
                    else if Z.of_nat (length book_bytes) >? MiB10
                    then (false,
                          "Book cover image file is too large (max 10MB)")
                    else (true, "Images are suitable for merging")))).
Proof.
  split; [apply validate_returns|].
  intros Hfw Hfh Hbw Hbh.
  unfold GeminiImageClient.validate_images, GeminiImageClient.save_jpeg.
  run_py.
  destruct (Z.ltb_spec (fst (size face)) 100); [lia|].
  destruct (Z.ltb_spec (snd (size face)) 100); [lia|].
  destruct (Z.ltb_spec (fst (size book)) 200); [lia|].
  destruct (Z.ltb_spec (snd (size book)) 200); [lia|].
  cbn [orb]. split; [|split].
  - intros Hmode. by rewrite (bool_decide_eq_false_2 _ Hmode).
  - intros Hmodes.
    destruct (bool_decide_reflect (mode face ∈ GeminiImageClient.jpeg_rawmodes))
      as [Hf|Hf]; [|by eexists].
    destruct Hmodes as [Hmode|Hmode]; [done|].
    rewrite (bool_decide_eq_false_2 _ Hmode).
    destruct (jpeg_encode face) as [face_bytes|e]; [|by eexists].
    destruct (Z.of_nat (length face_bytes) >? MiB10); by eexists.
  - intros face_bytes book_bytes -> Hbook.
    destruct (Z.of_nat (length face_bytes) >? MiB10); [done|].
    rewrite Hbook.
    by destruct (Z.of_nat (length book_bytes) >? MiB10).
Qed.

End ClientFacts.

Lemma merge_response_extraction_witness :
  fst (GeminiImageClient.merge_face_into_book_cover
         plain_convert plain_resample (decode_as (rgb 8 8)) quiet_service
         sample_client (rgb 300 300) (rgb 400 600) "cartoon" keyed_world)
    = Ok None
  /\ fst (GeminiImageClient.merge_face_into_book_cover
            plain_convert plain_resample (decode_as (rgb 8 8)) picture_service
            sample_client (rgb 300 300) (rgb 400 600) "cartoon" keyed_world)
     = Ok (Some (rgb 8 8)).
Proof.
  split.
  - apply (proj1 (merge_response_extraction
                    plain_convert plain_resample (decode_as (rgb 8 8))
                    quiet_service sample_client (rgb 300 300) (rgb 400 600)
                    "cartoon" keyed_world empty_response
                    (fun req => eq_refl))).
    intros ps [= <-]. constructor.
  - apply (proj1 (proj2 (merge_response_extraction
                    plain_convert plain_resample (decode_as (rgb 8 8))
                    picture_service sample_client (rgb 300 300) (rgb 400 600)
                    "cartoon" keyed_world picture_response
                    (fun req => eq_refl)))
             [mkPart (Some "Here is the cover.") None] []
             (mkPart None (Some (mkBlob []))) (mkBlob []) (rgb 8 8)).
    + exact I.
    + exact I.
    + reflexivity.
    + repeat constructor.
    + reflexivity.
    + reflexivity.
Defined.

Lemma operations_never_raise_witness :
  fst (GeminiImageClient.merge_face_into_book_cover
         plain_convert plain_resample (decode_as (rgb 8 8)) failing_service
         sample_client (rgb 300 300) (rgb 400 600) "natural" keyed_world)
    = Ok None
  /\ fst (GeminiImageClient.analyze_images
            plain_convert plain_resample failing_service
            sample_client (rgb 300 300) (rgb 400 600) keyed_world)
     = Ok "Error analyzing images: 503 UNAVAILABLE"
  /\ fst (GeminiImageClient.test_api_connection failing_service
            sample_client keyed_world)
     = Ok (false, "API connection failed: 503 UNAVAILABLE").
Proof.
  exact (proj1 (proj2 (operations_never_raise
                         plain_convert plain_resample (decode_as (rgb 8 8))
                         encode_empty failing_service
                         sample_client (rgb 300 300) (rgb 400 600) "natural"
                         keyed_world))
               (Exception "ServerError" "503 UNAVAILABLE")
               (fun req => eq_refl)).
Defined.

Lemma validate_images_jpeg_witness :
  fst (GeminiImageClient.validate_images encode_empty sample_client
         (rgba 300 300) (rgb 400 600) keyed_world)
    = Ok (false, "Error validating images: cannot write mode RGBA as JPEG").
Proof.
  apply (proj2 (validate_images_jpeg encode_empty sample_client
                  (rgba 300 300) (rgb 400 600) keyed_world));
    cbn; try lia.
  exact (proj1 (bool_decide_eq_false
                  ("RGBA" ∈ GeminiImageClient.jpeg_rawmodes)) eq_refl).
Defined.

(** C5 as stated fails: an inline part being present is not enough.  The
    answer below holds two inline parts; the bytes of the first are no
    image, those of the second decode.  The merge stops at the first,
    catches the decoder's exception and returns the absent result, not
    the image of an inline part. *)
Lemma merge_undecodable_first_inline :
  GeminiImageClient.response_parts garbled_response
    = Ok [mkPart (Some "Here is the cover.") None;
          mkPart None (Some (mkBlob [Byte.x00]));
          mkPart None
            (Some (mkBlob [Byte.x89; Byte.x50; Byte.x4e; Byte.x47]))]
  /\ raises (decode_png_only [Byte.x00])
  /\ decode_png_only [Byte.x89; Byte.x50; Byte.x4e; Byte.x47]
     = Ok (mkImage "RGB" (8, 8) [])
  /\ GeminiImageClient.merge_face_into_book_cover
       plain_convert plain_resample decode_png_only garbled_service
       sample_client (mkImage "RGB" (300, 300) [])
       (mkImage "RGB" (400, 600) []) "natural" keyed_world
     = (Ok None,
        mkWorld (environ keyed_world)
          [GeminiImageClient.merge_request
             (GeminiImageClient._create_merge_prompt "natural")
             (mkImage "RGB" (300, 300) []) (mkImage "RGB" (400, 600) [])]
          ["Error generating merged image: cannot identify image file"]).
Proof. repeat split; vm_compute; reflexivity. Qed.

(** ** The page flow *)


Section PageFacts.

Variable convert_pixels : string -> string -> Z * Z -> list Z -> outcome (list Z).
Variable resample_pixels : string -> Z * Z -> Z * Z -> list Z -> list Z.
Variable Image_open : list Byte.byte -> outcome Image.
Variable jpeg_encode : Image -> outcome (list Byte.byte).
Variable service : Request -> outcome Response.

Local Abbreviation main :=
  (App.main convert_pixels resample_pixels Image_open jpeg_encode service).
Local Abbreviation action_row :=
  (App.action_row convert_pixels resample_pixels Image_open jpeg_encode
     service).
Local Abbreviation upload_column := (App.upload_column Image_open).


Lemma test_connection_calls (self : GeminiImageClient.t) (w : world) :
  exists r,
    GeminiImageClient.test_api_connection service self w
      = (Ok r, mkWorld (environ w)
                 (calls w ++ [GeminiImageClient.probe_request]) (stdout w)).
Proof.
  unfold GeminiImageClient.test_api_connection, try_except, bind, lift, ret,
    GeminiImageClient.generate_content.
  destruct (service GeminiImageClient.probe_request) as [resp|e];
    [|by eexists].
  destruct (GeminiImageClient.response_parts resp); by eexists.
Qed.





End PageFacts.


(** * Further properties of the code *)

(** ** The upload gate, continued *)

Section GateMore.

Variable Image_open : list Byte.byte -> outcome Image.

Lemma gate_accepts_inv
    (f : UploadedFile) (image_type message : string) (img : option Image) :
  validate_uploaded_image Image_open (Some f) image_type
    = (true, message, img)
  <-> file_type f ∈ ["image/jpeg"; "image/jpg"; "image/png"]
      /\ file_size f <= MiB10
      /\ exists image,
           Image_open (file_bytes f) = Ok image
           /\ 100 <= fst (size image) /\ 100 <= snd (size image)
           /\ message
              = PyStr.title image_type +:+ " image uploaded successfully"
           /\ img = Some image.
Proof.
  unfold validate_uploaded_image.
  destruct (bool_decide_reflect
              (file_type f ∈ ["image/jpeg"; "image/jpg"; "image/png"]))
    as [Hin|Hnin]; cbn [negb]; [|split; [done|tauto]].
  destruct (Z.gtb_spec (file_size f) MiB10) as [Hbig|Hfit];
    [split; [done|lia]|].
  destruct (Image_open (file_bytes f)) as [image|e]; cbn [obind];
    [|split; [done|by intros (_ & _ & image & ? & _)]].
  destruct (Z.ltb_spec (fst (size image)) 100) as [Hw|Hw]; cbn [orb].
  { split; [done|]. intros (_ & _ & image' & [= <-] & ? & _). lia. }
  destruct (Z.ltb_spec (snd (size image)) 100) as [Hh|Hh].
  { split; [done|]. intros (_ & _ & image' & [= <-] & _ & ? & _). lia. }
  split.
  - intros [= <- <-]. repeat split; try done. by exists image.
  - by intros (_ & _ & image' & [= <-] & _ & _ & -> & ->).
Qed.

(** For the two roles the program passes, "face" and "book", the gate
    accepts a present file exactly when its type is one of the three
    accepted ones, it is no longer than 10 MiB, [Image.open] returns an
    image for it, and both dimensions of that image are at least 100, for
    the book as for the face; it then returns that image and the
    confirmation of the role. *)
Theorem gate_accepts_iff
    (f : UploadedFile) (image_type message : string) (img : option Image) :
  image_type = "face" \/ image_type = "book" ->
  validate_uploaded_image Image_open (Some f) image_type
    = (true, message, img)
  <-> file_type f ∈ ["image/jpeg"; "image/jpg"; "image/png"]
      /\ file_size f <= MiB10
      /\ exists image,
           Image_open (file_bytes f) = Ok image
           /\ 100 <= fst (size image) /\ 100 <= snd (size image)
           /\ message
              = (if decide (image_type = "face")
                 then "Face image uploaded successfully"
                 else "Book image uploaded successfully")
           /\ img = Some image.
Proof. intros [-> | ->]; apply gate_accepts_inv. Qed.

(** The gate hands back an image exactly when it reports success: a
    rejection never carries an image and an acceptance always does. *)
Theorem gate_image_iff_accepted
    (uploaded_file : option UploadedFile) (image_type : string) :
  fst (fst (validate_uploaded_image Image_open uploaded_file image_type))
    = true
  <-> is_Some
        (snd (validate_uploaded_image Image_open uploaded_file image_type)).
Proof.
  unfold validate_uploaded_image.
  destruct uploaded_file as [f|]; [|split; [done|by intros [? ?]]].
  destruct (negb _); [split; [done|by intros [? ?]]|].
  destruct (file_size f >? MiB10); [split; [done|by intros [? ?]]|].
  destruct (Image_open (file_bytes f)) as [image|e]; cbn [obind];
    [|split; [done|by intros [? ?]]].
  destruct ((fst (size image) <? 100) || (snd (size image) <? 100));
    cbn [fst snd]; [split; [done|by intros [? ?]]|].
  split; [by eexists|done].
Qed.

End GateMore.

(** A file of a type that is not accepted, or longer than 10 MiB, is
    rejected before it is decoded: the verdict is the same for every
    decoder, and it is a rejection. *)
Theorem gate_rejects_before_decoding
    (Image_open Image_open' : list Byte.byte -> outcome Image)
    (f : UploadedFile) (image_type : string) :
  file_type f ∉ ["image/jpeg"; "image/jpg"; "image/png"]
  \/ MiB10 < file_size f ->
  validate_uploaded_image Image_open (Some f) image_type
    = validate_uploaded_image Image_open' (Some f) image_type
  /\ fst (fst (validate_uploaded_image Image_open (Some f) image_type))
     = false.
Proof.
  intros Hbad. unfold validate_uploaded_image.
  destruct (bool_decide_reflect
              (file_type f ∈ ["image/jpeg"; "image/jpg"; "image/png"]))
    as [Hin|Hnin]; cbn [negb]; [|done].
  destruct Hbad as [Hnin|Hbig]; [done|].
  by destruct (Z.gtb_spec (file_size f) MiB10) as [_|Hfit]; [|lia].
Qed.

Lemma gate_accepts_iff_witness :
  validate_uploaded_image (decode_as (rgb 150 150)) (Some png_upload) "book"
  = (true, "Book image uploaded successfully", Some (rgb 150 150)).
Proof.
  apply (proj2 (gate_accepts_iff (decode_as (rgb 150 150)) png_upload "book"
                  "Book image uploaded successfully" (Some (rgb 150 150))
                  (or_intror eq_refl))).
  split; [|split].
  - exact (proj1 (bool_decide_eq_true
                    ("image/png" ∈ ["image/jpeg"; "image/jpg"; "image/png"]))
                 eq_refl).
  - vm_compute. discriminate.
  - exists (rgb 150 150).
    repeat split; try reflexivity; vm_compute; discriminate.
Defined.

Lemma gate_rejects_before_decoding_witness :
  validate_uploaded_image (decode_as (rgb 300 300))
    (Some (mkUploadedFile "image/gif" 2048 [])) "face"
  = validate_uploaded_image (fun _ => Raise (OSError "unreadable"))
      (Some (mkUploadedFile "image/gif" 2048 [])) "face".
Proof.
  apply (gate_rejects_before_decoding
           (decode_as (rgb 300 300)) (fun _ => Raise (OSError "unreadable"))
           (mkUploadedFile "image/gif" 2048 []) "face").
  left.
  exact (proj1 (bool_decide_eq_false
                  ("image/gif" ∈ ["image/jpeg"; "image/jpg"; "image/png"]))
               eq_refl).
Defined.

(** ** The constructor, continued *)

(** The constructor succeeds exactly when the credential variable holds a
    non-empty string: an empty key is refused like a missing one. *)
Theorem init_succeeds_iff (w : world) :
  returns (fst (GeminiImageClient.__init__ w))
  <-> exists key,
        environ w !! "GEMINI_API_KEY" = Some key /\ key <> EmptyString.
Proof.
  unfold GeminiImageClient.__init__.
  destruct (environ w !! "GEMINI_API_KEY") as [key|].
  - destruct (decide (key = EmptyString)) as [->|Hne]; cbn [fst returns].
    + split; [done|]. by intros (key & [= <-] & ?).
    + split; [|done]. intros _. by exists key.
  - split; [done|]. by intros (key & ? & _).
Qed.

(** With a key, the constructor returns a handle holding it and the
    image-generation model name, exports the key as [GOOGLE_API_KEY],
    leaves every other variable of the environment as it was, and sends
    and prints nothing. *)
Theorem init_with_key (w : world) (key : string) :
  environ w !! "GEMINI_API_KEY" = Some key ->
  key <> EmptyString ->
  exists w',
    GeminiImageClient.__init__ w
      = (Ok (GeminiImageClient.mk
               key "gemini-2.0-flash-preview-image-generation"), w')
    /\ environ w' !! "GOOGLE_API_KEY" = Some key
    /\ (forall name, name <> "GOOGLE_API_KEY" ->
                     environ w' !! name = environ w !! name)
    /\ calls w' = calls w /\ stdout w' = stdout w.
Proof.
  intros Hkey Hne. unfold GeminiImageClient.__init__. rewrite Hkey.
  destruct (decide (key = EmptyString)); [done|].
  eexists. split; [reflexivity|]. cbn [environ calls stdout].
  split; [apply lookup_insert_eq|]. split; [|done].
  intros name Hname. by apply lookup_insert_ne.
Qed.

Lemma init_with_key_witness :
  exists w',
    GeminiImageClient.__init__ keyed_world = (Ok sample_client, w')
    /\ environ w' !! "GOOGLE_API_KEY" = Some "key"
    /\ (forall name, name <> "GOOGLE_API_KEY" ->
                     environ w' !! name = environ keyed_world !! name)
    /\ calls w' = calls keyed_world /\ stdout w' = stdout keyed_world.
Proof.
  apply (init_with_key keyed_world "key"); [reflexivity | discriminate].
Defined.

(** ** The client, continued *)

Section ClientMore.

Variable convert_pixels : string -> string -> Z * Z -> list Z -> outcome (list Z).
Variable resample_pixels : string -> Z * Z -> Z * Z -> list Z -> list Z.
Variable Image_open : list Byte.byte -> outcome Image.
Variable jpeg_encode : Image -> outcome (list Byte.byte).
Variable service : Request -> outcome Response.

Ltac step_py :=
  unfold try_except, bind, lift, ret, print,
    GeminiImageClient.generate_content in *;
  cbn [fst snd] in *.

(** When both images can be prepared the merge sends exactly one request:
    the image-generation model, three contents in the order prompt,
    prepared face, prepared book cover, and the IMAGE modality; the
    environment is not touched. *)
Theorem merge_sends_one_request
    (self : GeminiImageClient.t) (face book face_img book_img : Image)
    (style : string) (w : world) :
  GeminiImageClient.prepare convert_pixels resample_pixels face
    = Ok face_img ->
  GeminiImageClient.prepare convert_pixels resample_pixels book
    = Ok book_img ->
  let w' := snd (GeminiImageClient.merge_face_into_book_cover
                   convert_pixels resample_pixels Image_open service
                   self face book style w) in
  calls w'
    = (calls w
         ++ [mkRequest "gemini-2.0-flash-preview-image-generation"
               [TextPart (GeminiImageClient._create_merge_prompt style);
                ImagePart face_img; ImagePart book_img]
               ["IMAGE"]])%list
  /\ environ w' = environ w.
Proof.
  intros Hface Hbook.
  unfold GeminiImageClient.merge_face_into_book_cover. step_py.
  rewrite Hface, Hbook.
  destruct (service _) as [resp|e]; cbn [fst snd]; [|done].
  destruct (GeminiImageClient.response_parts resp) as [ps|e]; [|done].
  by destruct (GeminiImageClient.first_inline_image Image_open ps)
    as [[generated|]|e].
Qed.

(** When one of the two images cannot be prepared the merge sends
    nothing: it returns the absent result and prints one line with the
    text of the exception (of the face first). *)
Theorem merge_preprocessing_failure
    (self : GeminiImageClient.t) (face book : Image) (style : string)
    (w : world) (e : exn) :
  GeminiImageClient.prepare convert_pixels resample_pixels face = Raise e
  \/ (returns (GeminiImageClient.prepare convert_pixels resample_pixels face)
      /\ GeminiImageClient.prepare convert_pixels resample_pixels book
         = Raise e) ->
  GeminiImageClient.merge_face_into_book_cover
    convert_pixels resample_pixels Image_open service self face book style w
  = (Ok None,
     mkWorld (environ w) (calls w)
       (stdout w ++ ["Error generating merged image: " +:+ str_exn e])).
Proof.
  intros H. unfold GeminiImageClient.merge_face_into_book_cover. step_py.
  destruct H as [->|[Hface ->]]; [done|].
  by destruct (GeminiImageClient.prepare convert_pixels resample_pixels face).
Qed.

(** The absent result is logged exactly when it comes from an exception.
    A response without inline image ends the merge silently; an
    exception of the remote service ends it with one printed line. *)
Theorem merge_none_silent_or_logged
    (self : GeminiImageClient.t) (face book face_img book_img : Image)
    (style : string) (w : world) :
  GeminiImageClient.prepare convert_pixels resample_pixels face
    = Ok face_img ->
  GeminiImageClient.prepare convert_pixels resample_pixels book
    = Ok book_img ->
  let req := GeminiImageClient.merge_request
               (GeminiImageClient._create_merge_prompt style)
               face_img book_img in
  let run := GeminiImageClient.merge_face_into_book_cover
               convert_pixels resample_pixels Image_open service
               self face book style w in
  (forall resp ps,
     service req = Ok resp ->
     GeminiImageClient.response_parts resp = Ok ps ->
     Forall (fun part => inline_data part = None) ps ->
     run = (Ok None, mkWorld (environ w) (calls w ++ [req]) (stdout w)))
  /\ (forall e,
        service req = Raise e ->
        run = (Ok None,
               mkWorld (environ w) (calls w ++ [req])
                 (stdout w
                    ++ ["Error generating merged image: " +:+ str_exn e]))).
Proof.
  intros Hface Hbook. cbv zeta.
  unfold GeminiImageClient.merge_face_into_book_cover. step_py.
  rewrite Hface, Hbook. split.
  - intros resp ps -> Hps Hnone. cbn [fst snd]. rewrite Hps.
    by rewrite (first_inline_image_none Image_open ps Hnone).
  - by intros e ->.
Qed.

(** The merge looks at the first part with inline data only: when its
    bytes cannot be decoded the result is absent (and the failure is
    printed), whatever the parts after it hold. *)
Theorem merge_stops_at_first_inline
    (self : GeminiImageClient.t) (face book face_img book_img : Image)
    (style : string) (w : world) (resp : Response)
    (before after : list Part) (part : Part) (blob : Blob) (e : exn) :
  GeminiImageClient.prepare convert_pixels resample_pixels face
    = Ok face_img ->
  GeminiImageClient.prepare convert_pixels resample_pixels book
    = Ok book_img ->
  service (GeminiImageClient.merge_request
             (GeminiImageClient._create_merge_prompt style)
             face_img book_img) = Ok resp ->
  GeminiImageClient.response_parts resp
    = Ok (before ++ part :: after)%list ->
  Forall (fun part => inline_data part = None) before ->
  inline_data part = Some blob ->
  Image_open (data blob) = Raise e ->
  let run := GeminiImageClient.merge_face_into_book_cover
               convert_pixels resample_pixels Image_open service
               self face book style w in
  fst run = Ok None
  /\ stdout (snd run)
     = (stdout w ++ ["Error generating merged image: " +:+ str_exn e])%list.
Proof.
  intros Hface Hbook Hservice Hparts Hbefore Hpart Hopen. cbv zeta.
  unfold GeminiImageClient.merge_face_into_book_cover. step_py.
  rewrite Hface, Hbook, Hservice. cbn [fst snd]. rewrite Hparts.
  rewrite (first_inline_image_first Image_open before after part blob
             Hbefore Hpart), Hopen.
  done.
Qed.

Lemma first_text_none (ps : list Part) :
  Forall (fun part => text part = None) ps ->
  GeminiImageClient.first_text ps = "Unable to analyze images.".
Proof.
  induction 1 as [|part rest Hpart _ IH]; [done|].
  cbn [GeminiImageClient.first_text]. by rewrite Hpart.
Qed.

Lemma first_text_first (before after : list Part) (part : Part) (t : string) :
  Forall (fun part => text part = None) before ->
  text part = Some t ->
  GeminiImageClient.first_text (before ++ part :: after) = t.
Proof.
  intros Hbefore Hpart.
  induction Hbefore as [|p rest Hp _ IH];
    cbn [app GeminiImageClient.first_text].
  - by rewrite Hpart.
  - by rewrite Hp.
Qed.

(** When both images can be prepared and the service answers, the
    analysis sends one request (the text model, the fixed analysis prompt
    and the two prepared images, TEXT modality), prints nothing, and
    returns the text of the first part that has one, or the fixed
    sentence when no part has text. *)
Theorem analyze_returns_first_text
    (self : GeminiImageClient.t) (face book face_img book_img : Image)
    (w : world) (resp : Response) (ps : list Part) :
  GeminiImageClient.prepare convert_pixels resample_pixels face
    = Ok face_img ->
  GeminiImageClient.prepare convert_pixels resample_pixels book
    = Ok book_img ->
  let req := mkRequest "gemini-2.0-flash-exp"
               [TextPart GeminiImageClient.analysis_prompt;
                ImagePart face_img; ImagePart book_img]
               ["TEXT"] in
  service req = Ok resp ->
  GeminiImageClient.response_parts resp = Ok ps ->
  let run := GeminiImageClient.analyze_images
               convert_pixels resample_pixels service self face book w in
  snd run = mkWorld (environ w) (calls w ++ [req]) (stdout w)
  /\ (Forall (fun part => text part = None) ps ->
      fst run = Ok "Unable to analyze images.")
  /\ (forall (before after : list Part) (part : Part) (t : string),
        ps = (before ++ part :: after)%list ->
        Forall (fun part => text part = None) before ->
        text part = Some t ->
        fst run = Ok t).
Proof.
  intros Hface Hbook req Hservice Hparts. cbv zeta.
  unfold GeminiImageClient.analyze_images. step_py.
  rewrite Hface, Hbook.
  change (GeminiImageClient.analyze_request face_img book_img) with req.
  rewrite Hservice. cbn [fst snd]. rewrite Hparts. cbn [fst snd].
  split; [done|]. split.
  - intros Hnone. by rewrite (first_text_none ps Hnone).
  - intros before after part t -> Hbefore Hpart.
    by rewrite (first_text_first before after part t Hbefore Hpart).
Qed.

Lemma any_text_true (ps : list Part) :
  GeminiImageClient.any_text ps = (true, "API connection successful")
  <-> Exists (fun part => text part <> None) ps.
Proof.
  induction ps as [|part rest IH]; cbn [GeminiImageClient.any_text].
  - split; [done|]. intros H. inversion H.
  - destruct (text part) as [t|] eqn:Hpart.
    + split; [|done]. intros _. left. by rewrite Hpart.
    + rewrite IH. split; [by right|].
      intros H. inversion H as [? ? Hhead|]; [|done]. by rewrite Hpart in Hhead.
Qed.

(** The connection test reports success exactly when the service answers
    the probe with a reachable list of parts in which some part carries
    text; in every case it has sent the probe, and nothing else. *)
Theorem test_connection_succeeds_iff
    (self : GeminiImageClient.t) (w : world) :
  (fst (GeminiImageClient.test_api_connection service self w)
     = Ok (true, "API connection successful")
   <-> exists resp ps,
         service GeminiImageClient.probe_request = Ok resp
         /\ GeminiImageClient.response_parts resp = Ok ps
         /\ Exists (fun part => text part <> None) ps)
  /\ calls (snd (GeminiImageClient.test_api_connection service self w))
     = (calls w ++ [GeminiImageClient.probe_request])%list.
Proof.
  unfold GeminiImageClient.test_api_connection. step_py.
  destruct (service GeminiImageClient.probe_request) as [resp|e];
    cbn [fst snd].
  - destruct (GeminiImageClient.response_parts resp) as [ps|e] eqn:Hps;
      cbn [fst snd].
    + split; [|done]. split.
      * intros Heq. exists resp, ps. split; [done|]. split; [done|].
        apply any_text_true. congruence.
      * intros (resp' & ps' & [= <-] & Hps' & H).
        rewrite Hps in Hps'. injection Hps' as <-.
        by rewrite (proj2 (any_text_true ps) H).
    + split; [|done]. split; [done|].
      intros (resp' & ps' & [= <-] & Hps' & _). congruence.
  - split; [|done]. split; [done|]. by intros (resp' & ps' & ? & _).
Qed.

Lemma validate_images_keeps_world
    (self : GeminiImageClient.t) (face book : Image) (w : world) :
  snd (GeminiImageClient.validate_images jpeg_encode self face book w) = w.
Proof.
  unfold GeminiImageClient.validate_images. step_py.
  destruct ((fst (size face) <? 100) || (snd (size face) <? 100)); [done|].
  destruct ((fst (size book) <? 200) || (snd (size book) <? 200)); [done|].
  destruct (GeminiImageClient.save_jpeg jpeg_encode face)
    as [face_bytes|e]; [|done].
  destruct (Z.of_nat (length face_bytes) >? MiB10); [done|].
  destruct (GeminiImageClient.save_jpeg jpeg_encode book)
    as [book_bytes|e]; [|done].
  by destruct (Z.of_nat (length book_bytes) >? MiB10).
Qed.

(** The validation is local: it sends no request, prints nothing and
    leaves the environment alone. *)
Theorem validate_images_is_local
    (self : GeminiImageClient.t) (face book : Image) (w : world) :
  snd (GeminiImageClient.validate_images jpeg_encode self face book w) = w.
Proof. apply validate_images_keeps_world. Qed.

(** The validation accepts a pair exactly when the face is at least
    100x100, the book cover at least 200x200, both images can be encoded
    as JPEG, and neither encoding is longer than 10 MiB. *)
Theorem validate_images_accepts_iff
    (self : GeminiImageClient.t) (face book : Image) (w : world)
    (message : string) :
  fst (GeminiImageClient.validate_images jpeg_encode self face book w)
    = Ok (true, message)
  <-> (100 <= fst (size face) /\ 100 <= snd (size face))
      /\ (200 <= fst (size book) /\ 200 <= snd (size book))
      /\ (exists face_bytes book_bytes,
            GeminiImageClient.save_jpeg jpeg_encode face = Ok face_bytes
            /\ Z.of_nat (length face_bytes) <= MiB10
            /\ GeminiImageClient.save_jpeg jpeg_encode book = Ok book_bytes
            /\ Z.of_nat (length book_bytes) <= MiB10)
      /\ message = "Images are suitable for merging".
Proof.
  unfold GeminiImageClient.validate_images. step_py.
  destruct (Z.ltb_spec (fst (size face)) 100); cbn [orb];
    [split; [done|lia]|].
  destruct (Z.ltb_spec (snd (size face)) 100); cbn [orb];
    [split; [done|lia]|].
  destruct (Z.ltb_spec (fst (size book)) 200); cbn [orb];
    [split; [done|lia]|].
  destruct (Z.ltb_spec (snd (size book)) 200); cbn [orb];
    [split; [done|lia]|].
  destruct (GeminiImageClient.save_jpeg jpeg_encode face)
    as [face_bytes|e];
    [|split; [done|by intros (_ & _ & (fb & bb & ? & _) & _)]].
  destruct (Z.gtb_spec (Z.of_nat (length face_bytes)) MiB10).
  { split; [done|]. intros (_ & _ & (fb & bb & [= <-] & ? & _) & _). lia. }
  destruct (GeminiImageClient.save_jpeg jpeg_encode book)
    as [book_bytes|e];
    [|split; [done|by intros (_ & _ & (fb & bb & _ & _ & ? & _) & _)]].
  destruct (Z.gtb_spec (Z.of_nat (length book_bytes)) MiB10).
  { split; [done|].
    intros (_ & _ & (fb & bb & _ & _ & [= <-] & ?) & _). lia. }
  split.
  - intros [= <-]. repeat split; try lia. by exists face_bytes, book_bytes.
  - by intros (_ & _ & _ & ->).
Qed.

(** The two validation stages disagree on book covers.  For a pair of
    uploads the gate has accepted, the validation never finds the face
    too small, but it rejects the pair as soon as a dimension of the
    book cover is below 200. *)
Theorem gate_then_validate_images
    (self : GeminiImageClient.t) (w : world)
    (face_upload book_upload : UploadedFile) (face book : Image)
    (face_message book_message : string) :
  validate_uploaded_image Image_open (Some face_upload) "face"
    = (true, face_message, Some face) ->
  validate_uploaded_image Image_open (Some book_upload) "book"
    = (true, book_message, Some book) ->
  fst (GeminiImageClient.validate_images jpeg_encode self face book w)
    <> Ok (false, "Face image is too small (minimum 100x100 pixels)")
  /\ (fst (size book) < 200 \/ snd (size book) < 200 ->
      fst (GeminiImageClient.validate_images jpeg_encode self face book w)
        = Ok (false,
              "Book cover image is too small (minimum 200x200 pixels)")).
Proof.
  intros Hface Hbook.
  apply gate_accepts_inv in Hface
    as (_ & _ & face' & _ & Hfw & Hfh & _ & [= <-]).
  apply gate_accepts_inv in Hbook
    as (_ & _ & book' & _ & Hbw & Hbh & _ & [= <-]).
  unfold GeminiImageClient.validate_images. step_py.
  destruct (Z.ltb_spec (fst (size face)) 100); [lia|].
  destruct (Z.ltb_spec (snd (size face)) 100); [lia|]. cbn [orb].
  split.
  - destruct ((fst (size book) <? 200) || (snd (size book) <? 200));
      [done|].
    destruct (GeminiImageClient.save_jpeg jpeg_encode face)
      as [face_bytes|e]; [|cbn; discriminate].
    destruct (Z.of_nat (length face_bytes) >? MiB10); [done|].
    destruct (GeminiImageClient.save_jpeg jpeg_encode book)
      as [book_bytes|e]; [|cbn; discriminate].
    by destruct (Z.of_nat (length book_bytes) >? MiB10).
  - intros Hsmall.
    assert (Hb : (fst (size book) <? 200) || (snd (size book) <? 200) = true).
    { apply orb_true_iff. rewrite !Z.ltb_lt. lia. }
    by rewrite Hb.
Qed.

End ClientMore.

Lemma merge_sends_one_request_witness :
  calls (snd (GeminiImageClient.merge_face_into_book_cover
                plain_convert plain_resample (decode_as (rgb 8 8))
                quiet_service sample_client
                (rgb 300 300) (rgb 400 600) "cartoon" keyed_world))
  = [mkRequest "gemini-2.0-flash-preview-image-generation"
       [TextPart (GeminiImageClient._create_merge_prompt "cartoon");
        ImagePart (rgb 300 300); ImagePart (rgb 400 600)]
       ["IMAGE"]].
Proof.
  exact (proj1 (merge_sends_one_request
                  plain_convert plain_resample (decode_as (rgb 8 8))
                  quiet_service sample_client
                  (rgb 300 300) (rgb 400 600) (rgb 300 300) (rgb 400 600)
                  "cartoon" keyed_world eq_refl eq_refl)).
Defined.

Lemma merge_preprocessing_failure_witness :
  GeminiImageClient.merge_face_into_book_cover
    plain_convert plain_resample (decode_as (rgb 8 8)) quiet_service
    sample_client (rgb 100 102500) (rgb 400 600) "natural" keyed_world
  = (Ok None,
     mkWorld (environ keyed_world) []
       ["Error generating merged image: height and width must be > 0"]).
Proof.
  apply (merge_preprocessing_failure
           plain_convert plain_resample (decode_as (rgb 8 8)) quiet_service
           sample_client (rgb 100 102500) (rgb 400 600) "natural"
           keyed_world (ValueError "height and width must be > 0")).
  left. vm_compute. reflexivity.
Defined.

Lemma merge_none_silent_or_logged_witness :
  GeminiImageClient.merge_face_into_book_cover
    plain_convert plain_resample (decode_as (rgb 8 8)) failing_service
    sample_client (rgb 300 300) (rgb 400 600) "natural" keyed_world
  = (Ok None,
     mkWorld (environ keyed_world)
       [GeminiImageClient.merge_request
          (GeminiImageClient._create_merge_prompt "natural")
          (rgb 300 300) (rgb 400 600)]
       ["Error generating merged image: 503 UNAVAILABLE"]).
Proof.
  exact (proj2 (merge_none_silent_or_logged
                  plain_convert plain_resample (decode_as (rgb 8 8))
                  failing_service sample_client
                  (rgb 300 300) (rgb 400 600) (rgb 300 300) (rgb 400 600)
                  "natural" keyed_world eq_refl eq_refl)
               (Exception "ServerError" "503 UNAVAILABLE") eq_refl).
Defined.

Lemma merge_stops_at_first_inline_witness :
  fst (GeminiImageClient.merge_face_into_book_cover
         plain_convert plain_resample decode_fails picture_service
         sample_client (rgb 300 300) (rgb 400 600) "natural" keyed_world)
  = Ok None.
Proof.
  apply (merge_stops_at_first_inline
           plain_convert plain_resample decode_fails picture_service
           sample_client (rgb 300 300) (rgb 400 600) (rgb 300 300)
           (rgb 400 600) "natural" keyed_world picture_response
           [mkPart (Some "Here is the cover.") None] []
           (mkPart None (Some (mkBlob []))) (mkBlob [])
           (Exception "UnidentifiedImageError" "cannot identify image file")).
  - reflexivity.
  - reflexivity.
  - reflexivity.
  - reflexivity.
  - repeat constructor.
  - reflexivity.
  - reflexivity.
Defined.

Lemma analyze_returns_first_text_witness :
  fst (GeminiImageClient.analyze_images
         plain_convert plain_resample picture_service
         sample_client (rgb 300 300) (rgb 400 600) keyed_world)
  = Ok "Here is the cover.".
Proof.
  apply (proj2 (proj2 (analyze_returns_first_text
                         plain_convert plain_resample picture_service
                         sample_client (rgb 300 300) (rgb 400 600)
                         (rgb 300 300) (rgb 400 600) keyed_world
                         picture_response
                         [mkPart (Some "Here is the cover.") None;
                          mkPart None (Some (mkBlob []))]
                         eq_refl eq_refl eq_refl eq_refl))
           [] [mkPart None (Some (mkBlob []))]
           (mkPart (Some "Here is the cover.") None)).
  - reflexivity.
  - constructor.
  - reflexivity.
Defined.

Lemma gate_then_validate_images_witness :
  fst (GeminiImageClient.validate_images encode_empty sample_client
         (rgb 150 150) (rgb 150 150) keyed_world)
  = Ok (false, "Book cover image is too small (minimum 200x200 pixels)").
Proof.
  apply (proj2 (gate_then_validate_images
                  (decode_as (rgb 150 150)) encode_empty sample_client
                  keyed_world png_upload png_upload (rgb 150 150)
                  (rgb 150 150) "Face image uploaded successfully"
                  "Book image uploaded successfully" eq_refl eq_refl)).
  left. cbn. lia.
Defined.

(** ** The page flow, continued *)

Section PageMore.

Variable convert_pixels : string -> string -> Z * Z -> list Z -> outcome (list Z).
Variable resample_pixels : string -> Z * Z -> Z * Z -> list Z -> list Z.
Variable Image_open : list Byte.byte -> outcome Image.
Variable jpeg_encode : Image -> outcome (list Byte.byte).
Variable service : Request -> outcome Response.

Local Abbreviation main :=
  (App.main convert_pixels resample_pixels Image_open jpeg_encode service).
Local Abbreviation action_row :=
  (App.action_row convert_pixels resample_pixels Image_open jpeg_encode
     service).
Local Abbreviation upload_column := (App.upload_column Image_open).
Local Abbreviation merge :=
  (GeminiImageClient.merge_face_into_book_cover
     convert_pixels resample_pixels Image_open service).
Local Abbreviation analyze :=
  (GeminiImageClient.analyze_images convert_pixels resample_pixels service).

Lemma initialize_cases
    (st : App.session_state) (w : world) :
  exists ok message st' w',
    App.initialize_gemini_client st w = (Ok (ok, message, st'), w')
    /\ (ok = true
        <-> is_Some (App.gemini_client st)
            \/ exists key, environ w !! "GEMINI_API_KEY" = Some key
                           /\ key <> EmptyString)
    /\ (ok = true -> is_Some (App.gemini_client st'))
    /\ (is_Some (App.gemini_client st) -> st' = st /\ w' = w)
    /\ (ok = false ->
        st' = st /\ w' = w
        /\ message = "GEMINI_API_KEY not found in environment variables")
    /\ App.face_image st' = App.face_image st
    /\ App.book_image st' = App.book_image st
    /\ App.merged_image st' = App.merged_image st
    /\ calls w' = calls w.
Proof.
  unfold App.initialize_gemini_client, try_except, bind, ret,
    GeminiImageClient.__init__.
  destruct (App.gemini_client st) as [c|] eqn:Hc.
  { exists true, "Gemini client initialized successfully", st, w.
    rewrite Hc. repeat split; eauto; done. }
  destruct (environ w !! "GEMINI_API_KEY") as [key|] eqn:Hkey.
  - destruct (decide (key = EmptyString)) as [->|Hne].
    + exists false, "GEMINI_API_KEY not found in environment variables", st, w.
      rewrite Hc. repeat split; try done; try (by intros [? ?]).
      intros [[? ?]|(key & [= <-] & ?)]; done.
    + eexists true, _, _, _. split; [reflexivity|].
      cbn [App.set_client App.gemini_client App.face_image App.book_image
             App.merged_image calls].
      repeat split; eauto; try done; by intros [? ?].
  - exists false, "GEMINI_API_KEY not found in environment variables", st, w.
    rewrite Hc. repeat split; try done; try (by intros [? ?]).
    intros [[? ?]|(key & ? & _)]; done.
Qed.

(** The initialisation never raises.  A client already held by the
    session is reused without looking at the environment; otherwise it
    succeeds exactly when the key is present and non-empty.  Success
    leaves a client in the session; failure changes neither the session
    nor the world and reports the text of the configuration error.  The
    image slots and the log of remote calls are never touched. *)
Theorem initialize_gemini_client_outcome
    (st : App.session_state) (w : world) :
  exists ok message st' w',
    App.initialize_gemini_client st w = (Ok (ok, message, st'), w')
    /\ (ok = true
        <-> is_Some (App.gemini_client st)
            \/ exists key, environ w !! "GEMINI_API_KEY" = Some key
                           /\ key <> EmptyString)
    /\ (ok = true -> is_Some (App.gemini_client st'))
    /\ (is_Some (App.gemini_client st) -> st' = st /\ w' = w)
    /\ (ok = false ->
        st' = st /\ w' = w
        /\ message = "GEMINI_API_KEY not found in environment variables")
    /\ App.face_image st' = App.face_image st
    /\ App.book_image st' = App.book_image st
    /\ App.merged_image st' = App.merged_image st
    /\ calls w' = calls w.
Proof. apply initialize_cases. Qed.

Lemma main_without_key_aux
    (ui : App.widgets) (st : App.session_state) (w : world) :
  environ w !! "GEMINI_API_KEY" = None
  \/ environ w !! "GEMINI_API_KEY" = Some EmptyString ->
  main ui st w = (Ok st, w).
Proof.
  intros [H|H]; unfold App.main; rewrite H; [done|].
  by destruct (decide (EmptyString = EmptyString)).
Qed.

Lemma analyze_total (c : GeminiImageClient.t) (face book : Image)
    (w : world) :
  exists r, analyze c face book w = (Ok r, snd (analyze c face book w)).
Proof.
  pose proof (analyze_returns convert_pixels resample_pixels service
                c face book w) as H.
  destruct (analyze c face book w) as [[r|e] w']; [by eexists|done].
Qed.

Lemma validate_total (c : GeminiImageClient.t) (face book : Image)
    (w : world) :
  exists r,
    GeminiImageClient.validate_images jpeg_encode c face book w = (Ok r, w).
Proof.
  destruct (validate_returns jpeg_encode c face book w) as (v & m & H & _).
  pose proof (validate_images_keeps_world jpeg_encode c face book w) as Hw.
  destruct (GeminiImageClient.validate_images jpeg_encode c face book w)
    as [r w']. cbn [fst snd] in *. subst. by eexists.
Qed.

Lemma merge_total (c : GeminiImageClient.t) (face book : Image)
    (style : string) (w : world) :
  exists r,
    merge c face book style w = (Ok r, snd (merge c face book style w)).
Proof.
  pose proof (merge_returns convert_pixels resample_pixels Image_open service
                c face book style w) as H.
  destruct (merge c face book style w) as [[r|e] w']; [by eexists|done].
Qed.

(** The row of buttons, with a client in the session, stage by stage. *)
Lemma action_row_stages (ui : App.widgets) (st : App.session_state)
    (w : world) (c : GeminiImageClient.t) :
  App.gemini_client st = Some c ->
  action_row ui st w
  = match App.face_image st, App.book_image st with
    | Some face, Some book =>
        let w1 := if App.analyze_button ui
                  then snd (analyze c face book w) else w in
        if App.generate_button ui then
          let r := merge c face book (App.merge_style ui) w1 in
          (Ok match fst r with
              | Ok (Some m) => App.set_merged (Some m) st
              | _ => st
              end,
           snd r)
        else (Ok st, w1)
    | _, _ => (Ok st, w)
    end.
Proof.
  intros Hc. unfold App.action_row. rewrite Hc.
  destruct (App.face_image st) as [face|]; [|done].
  destruct (App.book_image st) as [book|]; [|done].
  cbv zeta. unfold bind at 1.
  assert (Hstep1 :
    exists u,
      (if App.analyze_button ui
       then (_ <- analyze c face book ;; ret tt)%py
       else ret tt) w
      = (Ok u, if App.analyze_button ui
               then snd (analyze c face book w) else w)).
  { destruct (App.analyze_button ui); [|by eexists].
    unfold bind. destruct (analyze_total c face book w) as [r ->].
    by eexists. }
  destruct Hstep1 as [u ->].
  set (w1 := if App.analyze_button ui
             then snd (analyze c face book w) else w).
  unfold bind at 1.
  assert (Hstep2 :
    exists u,
      (if App.validate_button ui
       then (_ <- GeminiImageClient.validate_images jpeg_encode c face book ;;
             ret tt)%py
       else ret tt) w1 = (Ok u, w1)).
  { destruct (App.validate_button ui); [|by eexists].
    unfold bind. destruct (validate_total c face book w1) as [r ->].
    by eexists. }
  destruct Hstep2 as [u' ->].
  destruct (App.generate_button ui); [|done].
  unfold bind.
  destruct (merge_total c face book (App.merge_style ui) w1) as [r Hr].
  rewrite Hr. cbn [fst snd]. by destruct r.
Qed.

(** A run of the page with a usable key, stage by stage: a client is in
    the session (the held one, or a fresh one), then the probe if asked
    for, the two upload columns, the row of buttons and the reset. *)
Lemma main_stages (ui : App.widgets) (st : App.session_state) (w : world)
    (key : string) :
  environ w !! "GEMINI_API_KEY" = Some key -> key <> EmptyString ->
  exists c st1 w1,
    App.gemini_client st1 = Some c
    /\ App.face_image st1 = App.face_image st
    /\ App.book_image st1 = App.book_image st
    /\ App.merged_image st1 = App.merged_image st
    /\ calls w1 = calls w
    /\ main ui st w
       = let w2 := if App.test_button ui
                   then mkWorld (environ w1)
                          (calls w1 ++ [GeminiImageClient.probe_request])
                          (stdout w1)
                   else w1 in
         let st3 := upload_column (App.book_file ui) "book" App.set_book
                      (upload_column (App.face_file ui) "face" App.set_face
                         st1) in
         match action_row ui st3 w2 with
         | (Ok st4, w3) =>
             (Ok match App.merged_image st4 with
                 | Some _ =>
                     if App.reset_button ui then App.set_merged None st4
                     else st4
                 | None => st4
                 end,
              w3)
         | (Raise e, w3) => (Raise e, w3)
         end.
Proof.
  intros Hkey Hne. unfold App.main. rewrite Hkey.
  destruct (decide (key = EmptyString)); [done|].
  destruct (initialize_cases st w)
    as (ok & msg & st1 & w1 & Hinit & Hok & Hclient & _ & _ & Hf & Hb & Hm
        & Hcalls).
  assert (ok = true) as -> by (apply Hok; right; by exists key).
  destruct (Hclient eq_refl) as [c Hc].
  exists c, st1, w1. repeat split; try done.
  unfold bind at 1. rewrite Hinit. cbn [negb]. cbv zeta.
  unfold bind at 1. rewrite Hc.
  assert (Hprobe :
    exists u,
      (if App.test_button ui
       then (_ <- GeminiImageClient.test_api_connection service c ;;
             ret tt)%py
       else ret tt) w1
      = (Ok u,
         if App.test_button ui
         then mkWorld (environ w1)
                (calls w1 ++ [GeminiImageClient.probe_request]) (stdout w1)
         else w1)).
  { destruct (App.test_button ui); [|by eexists].
    unfold bind. destruct (test_connection_calls service c w1) as [r ->].
    by eexists. }
  destruct Hprobe as [u ->].
  unfold bind.
  destruct (action_row ui _ _) as [[st4|e] w3]; [|done].
  destruct (App.merged_image st4); [|done].
  by destruct (App.reset_button ui).
Qed.

Lemma upload_column_client (file : option UploadedFile)
    (image_type : string) (st : App.session_state) :
  App.gemini_client (upload_column file image_type App.set_face st)
    = App.gemini_client st
  /\ App.gemini_client (upload_column file image_type App.set_book st)
     = App.gemini_client st.
Proof.
  unfold App.upload_column. destruct file as [f|]; [|done].
  destruct (validate_uploaded_image Image_open (Some f) image_type)
    as [[[] msg] img]; done.
Qed.

(** Up to the results section nothing raises: [App.main], which leaves
    the PNG buffer of the download button out, always returns. *)
Lemma main_never_raises
    (ui : App.widgets) (st : App.session_state) (w : world) :
  returns (fst (main ui st w)).
Proof.
  destruct (environ w !! "GEMINI_API_KEY") as [key|] eqn:Hkey;
    [|by rewrite (main_without_key_aux ui st w (or_introl Hkey))].
  destruct (decide (key = EmptyString)) as [->|Hne];
    [by rewrite (main_without_key_aux ui st w (or_intror Hkey))|].
  destruct (main_stages ui st w key Hkey Hne)
    as (c & st1 & w1 & Hc & _ & _ & _ & _ & ->).
  cbv zeta.
  rewrite (action_row_stages ui _ _ c);
    [|by rewrite (proj2 (upload_column_client _ _ _)),
                 (proj1 (upload_column_client _ _ _))].
  destruct (App.face_image _) as [face|]; [|done].
  destruct (App.book_image _) as [book|]; [|done].
  cbv zeta. by destruct (App.generate_button ui).
Qed.

Lemma upload_face_cases (file : option UploadedFile)
    (st : App.session_state) :
  let st' := upload_column file "face" App.set_face st in
  App.book_image st' = App.book_image st
  /\ App.merged_image st' = App.merged_image st
  /\ (App.face_image st' = App.face_image st
      \/ App.face_image st' = None
      \/ exists f message image,
           file = Some f
           /\ validate_uploaded_image Image_open (Some f) "face"
              = (true, message, Some image)
           /\ App.face_image st' = Some image).
Proof.
  cbv zeta. unfold App.upload_column. destruct file as [f|]; [|by auto].
  destruct (validate_uploaded_image Image_open (Some f) "face")
    as [[ok msg] img] eqn:Hv.
  destruct ok; [|by auto].
  destruct (proj1 (gate_accepts_inv Image_open f "face" msg img) Hv)
    as (_ & _ & image & _ & _ & _ & _ & ->).
  repeat split; try done. right. right. by exists f, msg, image.
Qed.

Lemma upload_book_cases (file : option UploadedFile)
    (st : App.session_state) :
  let st' := upload_column file "book" App.set_book st in
  App.face_image st' = App.face_image st
  /\ App.merged_image st' = App.merged_image st
  /\ (App.book_image st' = App.book_image st
      \/ App.book_image st' = None
      \/ exists f message image,
           file = Some f
           /\ validate_uploaded_image Image_open (Some f) "book"
              = (true, message, Some image)
           /\ App.book_image st' = Some image).
Proof.
  cbv zeta. unfold App.upload_column. destruct file as [f|]; [|by auto].
  destruct (validate_uploaded_image Image_open (Some f) "book")
    as [[ok msg] img] eqn:Hv.
  destruct ok; [|by auto].
  destruct (proj1 (gate_accepts_inv Image_open f "book" msg img) Hv)
    as (_ & _ & image & _ & _ & _ & _ & ->).
  repeat split; try done. right. right. by exists f, msg, image.
Qed.

Lemma accepted_at_least_100 (f : UploadedFile) (image_type message : string)
    (image : Image) :
  validate_uploaded_image Image_open (Some f) image_type
    = (true, message, Some image) ->
  100 <= fst (size image) /\ 100 <= snd (size image).
Proof.
  intros H. apply gate_accepts_inv in H
    as (_ & _ & image' & _ & ? & ? & _ & [= <-]). done.
Qed.

(** What the row of buttons and the reset leave in the two image slots. *)
Lemma main_slots (ui : App.widgets) (st st' : App.session_state)
    (w w' : world) :
  main ui st w = (Ok st', w') ->
  (App.face_image st' = App.face_image st
   /\ App.book_image st' = App.book_image st)
  \/ exists c st1,
       App.gemini_client st1 = Some c
       /\ App.face_image st1 = App.face_image st
       /\ App.book_image st1 = App.book_image st
       /\ App.merged_image st1 = App.merged_image st
       /\ let st3 := upload_column (App.book_file ui) "book" App.set_book
                       (upload_column (App.face_file ui) "face" App.set_face
                          st1) in
          App.face_image st' = App.face_image st3
          /\ App.book_image st' = App.book_image st3.
Proof.
  intros Hrun.
  destruct (environ w !! "GEMINI_API_KEY") as [key|] eqn:Hkey;
    [|rewrite (main_without_key_aux ui st w (or_introl Hkey)) in Hrun;
      injection Hrun as <- <-; by left].
  destruct (decide (key = EmptyString)) as [->|Hne];
    [rewrite (main_without_key_aux ui st w (or_intror Hkey)) in Hrun;
     injection Hrun as <- <-; by left|].
  destruct (main_stages ui st w key Hkey Hne)
    as (c & st1 & w1 & Hc & Hf & Hb & Hm & _ & Hmain).
  right. exists c, st1. do 4 (split; [done|]). cbv zeta.
  rewrite Hmain in Hrun. cbv zeta in Hrun.
  rewrite (action_row_stages ui _ _ c) in Hrun;
    [|by rewrite (proj2 (upload_column_client _ _ _)),
                 (proj1 (upload_column_client _ _ _))].
  set (st3 := upload_column (App.book_file ui) "book" App.set_book
                (upload_column (App.face_file ui) "face" App.set_face st1))
    in *.
  assert (Hst4 : forall st4 : App.session_state,
            App.face_image st4 = App.face_image st3 ->
            App.book_image st4 = App.book_image st3 ->
            App.face_image
              match App.merged_image st4 with
              | Some _ =>
                  if App.reset_button ui then App.set_merged None st4
                  else st4
              | None => st4
              end = App.face_image st3
            /\ App.book_image
                 match App.merged_image st4 with
                 | Some _ =>
                     if App.reset_button ui then App.set_merged None st4
                     else st4
                 | None => st4
                 end = App.book_image st3).
  { intros st4 H1 H2. destruct (App.merged_image st4); [|done].
    by destruct (App.reset_button ui). }
  enough (Hen : exists st4,
             st' = match App.merged_image st4 with
                   | Some _ =>
                       if App.reset_button ui then App.set_merged None st4
                       else st4
                   | None => st4
                   end
             /\ App.face_image st4 = App.face_image st3
             /\ App.book_image st4 = App.book_image st3)
    by (destruct Hen as (st4 & -> & H1 & H2); by apply Hst4).
  destruct (App.face_image st3) as [face|] eqn:Hface;
    [|injection Hrun as <- <-; by exists st3].
  destruct (App.book_image st3) as [book|] eqn:Hbook;
    [|injection Hrun as <- <-; by exists st3].
  cbv zeta in Hrun.
  destruct (App.generate_button ui);
    [|injection Hrun as <- <-; by exists st3].
  injection Hrun as <- <-.
  eexists. split; [reflexivity|]. by destruct (fst _) as [[m|]|e].
Qed.

(** Up to the results section, the two image slots keep the sizes the
    gate asks for. *)
Lemma main_keeps_gate_sizes
    (ui : App.widgets) (st st' : App.session_state) (w w' : world) :
  at_least_100 (App.face_image st) ->
  at_least_100 (App.book_image st) ->
  main ui st w = (Ok st', w') ->
  at_least_100 (App.face_image st') /\ at_least_100 (App.book_image st').
Proof.
  intros Hface Hbook Hrun.
  destruct (main_slots ui st st' w w' Hrun)
    as [[-> ->]|(c & st1 & _ & Hf & Hb & _ & Hslots)]; [done|].
  cbv zeta in Hslots. destruct Hslots as [-> ->].
  destruct (upload_book_cases (App.book_file ui)
              (upload_column (App.face_file ui) "face" App.set_face st1))
    as (-> & _ & Hbk).
  destruct (upload_face_cases (App.face_file ui) st1) as (Hbk' & _ & Hfc).
  split.
  - destruct Hfc as [->|[->|(f & msg & image & _ & Hv & ->)]].
    + by rewrite Hf.
    + by intros image.
    + intros image' [= <-]. by apply (accepted_at_least_100 f "face" msg).
  - destruct Hbk as [->|[->|(f & msg & image & _ & Hv & ->)]].
    + by rewrite Hbk', Hb.
    + by intros image.
    + intros image' [= <-]. by apply (accepted_at_least_100 f "book" msg).
Qed.

(** Up to the results section, a run without Test, Analyze and Generate
    sends no request. *)
Lemma main_uploads_are_local
    (ui : App.widgets) (st : App.session_state) (w : world) :
  App.test_button ui = false ->
  App.analyze_button ui = false ->
  App.generate_button ui = false ->
  calls (snd (main ui st w)) = calls w.
Proof.
  intros Htest Hanalyze Hgenerate.
  destruct (environ w !! "GEMINI_API_KEY") as [key|] eqn:Hkey;
    [|by rewrite (main_without_key_aux ui st w (or_introl Hkey))].
  destruct (decide (key = EmptyString)) as [->|Hne];
    [by rewrite (main_without_key_aux ui st w (or_intror Hkey))|].
  destruct (main_stages ui st w key Hkey Hne)
    as (c & st1 & w1 & Hc & _ & _ & _ & Hcalls & ->).
  cbv zeta. rewrite Htest.
  rewrite (action_row_stages ui _ _ c);
    [|by rewrite (proj2 (upload_column_client _ _ _)),
                 (proj1 (upload_column_client _ _ _))].
  rewrite Hanalyze, Hgenerate.
  destruct (App.face_image _) as [face|]; [|done].
  by destruct (App.book_image _) as [book|].
Qed.

(** Up to the results section, the stored result changes only through
    the reset button or a generation that returned an image. *)
Lemma main_merged_image
    (ui : App.widgets) (st st' : App.session_state) (w w' : world) :
  main ui st w = (Ok st', w') ->
  App.merged_image st' = App.merged_image st
  \/ (App.reset_button ui = true /\ App.merged_image st' = None)
  \/ (App.generate_button ui = true
      /\ exists c face book w0 generated,
           App.face_image st' = Some face
           /\ App.book_image st' = Some book
           /\ fst (GeminiImageClient.merge_face_into_book_cover
                     convert_pixels resample_pixels Image_open service
                     c face book (App.merge_style ui) w0)
              = Ok (Some generated)
           /\ App.merged_image st' = Some generated).
Proof.
  intros Hrun.
  destruct (environ w !! "GEMINI_API_KEY") as [key|] eqn:Hkey;
    [|rewrite (main_without_key_aux ui st w (or_introl Hkey)) in Hrun;
      injection Hrun as <- <-; by left].
  destruct (decide (key = EmptyString)) as [->|Hne];
    [rewrite (main_without_key_aux ui st w (or_intror Hkey)) in Hrun;
     injection Hrun as <- <-; by left|].
  destruct (main_stages ui st w key Hkey Hne)
    as (c & st1 & w1 & Hc & _ & _ & Hm & _ & Hmain).
  rewrite Hmain in Hrun. clear Hmain. cbv zeta in Hrun.
  rewrite (action_row_stages ui _ _ c) in Hrun;
    [|by rewrite (proj2 (upload_column_client _ _ _)),
                 (proj1 (upload_column_client _ _ _))].
  set (st3 := upload_column (App.book_file ui) "book" App.set_book
                (upload_column (App.face_file ui) "face" App.set_face st1))
    in *.
  assert (Hm3 : App.merged_image st3 = App.merged_image st).
  { unfold st3.
    rewrite (proj1 (proj2 (upload_book_cases _ _))),
            (proj1 (proj2 (upload_face_cases _ _))). done. }
  assert (Hkeep : forall w3,
            (Ok match App.merged_image st3 with
                | Some _ =>
                    if App.reset_button ui then App.set_merged None st3
                    else st3
                | None => st3
                end, w3) = (Ok st', w') ->
            App.merged_image st' = App.merged_image st
            \/ (App.reset_button ui = true /\ App.merged_image st' = None)).
  { intros w3 [= <- _]. destruct (App.merged_image st3) eqn:H3.
    - destruct (App.reset_button ui); [by right|]. left. by rewrite H3, <- Hm3.
    - left. by rewrite H3, <- Hm3. }
  destruct (App.face_image st3) as [face|] eqn:Hface;
    [|destruct (Hkeep _ Hrun); by auto].
  destruct (App.book_image st3) as [book|] eqn:Hbook;
    [|destruct (Hkeep _ Hrun); by auto].
  cbv zeta in Hrun.
  destruct (App.generate_button ui);
    [|destruct (Hkeep _ Hrun); by auto].
  cbv zeta in Hrun.
  destruct (fst (GeminiImageClient.merge_face_into_book_cover _ _ _ _ _ _ _ _ _))
    as [[generated|]|e] eqn:Hmerge;
    [|destruct (Hkeep _ Hrun); by auto..].
  injection Hrun as <- _. cbn [App.set_merged App.merged_image].
  destruct (App.reset_button ui); [right; left; by split|].
  right. right. split; [done|].
  eexists c, face, book, _, generated.
  cbn [App.face_image App.book_image App.merged_image].
  split; [done|]. split; [done|]. split; [exact Hmerge|done].
Qed.

Lemma merge_success (c : GeminiImageClient.t)
    (face book face_img book_img generated : Image) (style : string)
    (w : world) (resp : Response) (before after : list Part) (part : Part)
    (blob : Blob) :
  GeminiImageClient.prepare convert_pixels resample_pixels face
    = Ok face_img ->
  GeminiImageClient.prepare convert_pixels resample_pixels book
    = Ok book_img ->
  service (GeminiImageClient.merge_request
             (GeminiImageClient._create_merge_prompt style)
             face_img book_img) = Ok resp ->
  GeminiImageClient.response_parts resp
    = Ok (before ++ part :: after)%list ->
  Forall (fun part => inline_data part = None) before ->
  inline_data part = Some blob ->
  Image_open (data blob) = Ok generated ->
  merge c face book style w
  = (Ok (Some generated),
     mkWorld (environ w)
       (calls w ++ [GeminiImageClient.merge_request
                      (GeminiImageClient._create_merge_prompt style)
                      face_img book_img])
       (stdout w)).
Proof.
  intros Hface Hbook Hservice Hparts Hbefore Hpart Hopen.
  unfold GeminiImageClient.merge_face_into_book_cover, try_except, bind,
    lift, GeminiImageClient.generate_content.
  rewrite Hface, Hbook, Hservice. cbn [fst snd]. rewrite Hparts.
  rewrite (first_inline_image_first Image_open before after part blob
             Hbefore Hpart), Hopen.
  done.
Qed.

(** Up to the results section, the whole pipeline of one generation. *)
Lemma main_generates
    (ui : App.widgets) (st : App.session_state) (w : world) (key : string)
    (face_upload book_upload : UploadedFile)
    (face book face_img book_img generated : Image)
    (face_message book_message : string)
    (resp : Response) (before after : list Part) (part : Part)
    (blob : Blob) :
  environ w !! "GEMINI_API_KEY" = Some key -> key <> EmptyString ->
  App.face_file ui = Some face_upload ->
  App.book_file ui = Some book_upload ->
  validate_uploaded_image Image_open (Some face_upload) "face"
    = (true, face_message, Some face) ->
  validate_uploaded_image Image_open (Some book_upload) "book"
    = (true, book_message, Some book) ->
  App.test_button ui = false -> App.analyze_button ui = false ->
  App.generate_button ui = true -> App.reset_button ui = false ->
  GeminiImageClient.prepare convert_pixels resample_pixels face
    = Ok face_img ->
  GeminiImageClient.prepare convert_pixels resample_pixels book
    = Ok book_img ->
  service (GeminiImageClient.merge_request
             (GeminiImageClient._create_merge_prompt (App.merge_style ui))
             face_img book_img) = Ok resp ->
  GeminiImageClient.response_parts resp
    = Ok (before ++ part :: after)%list ->
  Forall (fun part => inline_data part = None) before ->
  inline_data part = Some blob ->
  Image_open (data blob) = Ok generated ->
  exists st' w',
    main ui st w = (Ok st', w')
    /\ App.face_image st' = Some face
    /\ App.book_image st' = Some book
    /\ App.merged_image st' = Some generated
    /\ calls w'
       = (calls w
            ++ [mkRequest "gemini-2.0-flash-preview-image-generation"
                  [TextPart (GeminiImageClient._create_merge_prompt
                               (App.merge_style ui));
                   ImagePart face_img; ImagePart book_img]
                  ["IMAGE"]])%list.
Proof.
  intros Hkey Hne Hff Hbf Hvf Hvb Htest Hanalyze Hgenerate Hreset
    Hpf Hpb Hservice Hparts Hbefore Hpart Hopen.
  destruct (main_stages ui st w key Hkey Hne)
    as (c & st1 & w1 & Hc & _ & _ & _ & Hcalls & ->).
  cbv zeta. rewrite Htest, Hff, Hbf.
  unfold App.upload_column at 2. rewrite Hvf.
  unfold App.upload_column at 1. rewrite Hvb.
  rewrite (action_row_stages ui _ _ c) by done.
  cbn [App.set_book App.set_face App.face_image App.book_image].
  rewrite Hanalyze, Hgenerate. cbv zeta.
  rewrite (merge_success c face book face_img book_img generated
             (App.merge_style ui) w1 resp before after part blob
             Hpf Hpb Hservice Hparts Hbefore Hpart Hopen).
  cbn [fst snd App.set_merged App.merged_image]. rewrite Hreset.
  eexists _, _. split; [reflexivity|].
  cbn [App.face_image App.book_image App.merged_image calls].
  by rewrite Hcalls.
Qed.

(** ** The page in full *)

Variable save_png : Image -> outcome (list Byte.byte).
Variable st_image : option Image -> outcome unit.

Local Abbreviation page :=
  (App.page convert_pixels resample_pixels Image_open jpeg_encode service
     save_png st_image).
Local Abbreviation results_section :=
  (App.results_section save_png st_image).
Local Abbreviation upload_section := (App.upload_section Image_open st_image).
Local Abbreviation without_reset ui :=
  (App.mkWidgets (App.face_file ui) (App.book_file ui) (App.merge_style ui)
     (App.test_button ui) (App.analyze_button ui) (App.validate_button ui)
     (App.generate_button ui) false).

Lemma results_section_cases (ui : App.widgets) (st : App.session_state)
    (w : world) :
  results_section ui st w
  = (match App.merged_image st with
     | Some m =>
         match st_image (Some m) with
         | Ok _ =>
             match save_png m with
             | Ok _ => Ok (if App.reset_button ui
                           then App.set_merged None st else st)
             | Raise e => Raise e
             end
         | Raise e => Raise e
         end
     | None => Ok st
     end, w).
Proof.
  unfold App.results_section. destruct (App.merged_image st) as [m|]; [|done].
  unfold bind, lift. destruct (st_image (Some m)); [|done].
  destruct (save_png m); [|done].
  by destruct (App.reset_button ui).
Qed.

(** An upload column with its drawing either raises what the drawing of
    the accepted image raised, or leaves the session as the column
    without drawing does; the world is not touched. *)
Lemma upload_section_cases (file : option UploadedFile)
    (image_type : string)
    (set : option Image -> App.session_state -> App.session_state)
    (st : App.session_state) (w : world) :
  upload_section file image_type set st w
    = (Ok (upload_column file image_type set st), w)
  \/ exists f message image e,
       file = Some f
       /\ validate_uploaded_image Image_open (Some f) image_type
          = (true, message, Some image)
       /\ st_image (Some image) = Raise e
       /\ upload_section file image_type set st w = (Raise e, w).
Proof.
  unfold App.upload_section, App.upload_column.
  destruct file as [f|]; [|by left].
  destruct (validate_uploaded_image Image_open (Some f) image_type)
    as [[ok msg] img] eqn:Hv.
  destruct ok; [|by left].
  destruct (proj1 (gate_accepts_inv Image_open f image_type msg img) Hv)
    as (_ & _ & image & _ & _ & _ & _ & ->).
  cbv beta iota zeta. unfold bind, lift, ret.
  destruct (st_image (Some image)) as [u|e] eqn:Hdraw; [by left|].
  right. by exists f, msg, image, e.
Qed.

Lemma action_row_without_reset (ui : App.widgets) (st : App.session_state)
    (w : world) :
  action_row (without_reset ui) st w = action_row ui st w.
Proof. reflexivity. Qed.

(** A run of the page with a usable key is the run of [App.main] with
    the reset button left alone, followed by the results section, unless
    the drawing of an accepted upload raises on the way. *)
Lemma page_results (ui : App.widgets) (st : App.session_state) (w : world)
    (key : string) :
  environ w !! "GEMINI_API_KEY" = Some key -> key <> EmptyString ->
  exists st4 w3,
    main (without_reset ui) st w = (Ok st4, w3)
    /\ (page ui st w = results_section ui st4 w3
        \/ exists e w2 f image_type message image,
             page ui st w = (Raise e, w2)
             /\ (App.test_button ui = false -> calls w2 = calls w)
             /\ (image_type = "face" /\ App.face_file ui = Some f
                 \/ image_type = "book" /\ App.book_file ui = Some f)
             /\ validate_uploaded_image Image_open (Some f) image_type
                = (true, message, Some image)
             /\ st_image (Some image) = Raise e).
Proof.
  intros Hkey Hne.
  pose proof (main_never_raises (without_reset ui) st w) as Hret.
  destruct (initialize_cases st w)
    as (ok & msg & st1 & w1 & Hinit & Hok & Hclient & _ & _ & _ & _ & _
        & Hcalls).
  assert (ok = true) as -> by (apply Hok; right; by exists key).
  destruct (Hclient eq_refl) as [c Hc].
  assert (Hprobe :
    exists u w2,
      (if App.test_button ui
       then (_ <- GeminiImageClient.test_api_connection service c ;;
             ret tt)%py
       else ret tt) w1 = (Ok u, w2)
      /\ (App.test_button ui = false -> w2 = w1)).
  { destruct (App.test_button ui); [|by eexists _, _].
    unfold bind. destruct (test_connection_calls service c w1) as [r ->].
    by eexists _, _. }
  destruct Hprobe as (u & w2 & Hprobe & Hw2).
  set (st2 := upload_column (App.face_file ui) "face" App.set_face st1).
  set (st3 := upload_column (App.book_file ui) "book" App.set_book st2).
  assert (Hmain :
    main (without_reset ui) st w
    = match action_row ui st3 w2 with
      | (Ok st4, w3) => (Ok st4, w3)
      | (Raise e, w3) => (Raise e, w3)
      end).
  { unfold App.main. rewrite Hkey.
    destruct (decide (key = EmptyString)); [done|].
    unfold bind at 1. rewrite Hinit. cbn [negb]. cbv zeta.
    cbn [App.test_button App.face_file App.book_file App.reset_button].
    unfold bind at 1. rewrite Hc, Hprobe.
    unfold bind. rewrite action_row_without_reset. fold st2 st3.
    destruct (action_row ui st3 w2) as [[st4|e] w3]; [|done].
    by destruct (App.merged_image st4). }
  assert (Hpage :
    page ui st w
    = (s2 <- upload_section (App.face_file ui) "face" App.set_face st1 ;;
       s3 <- upload_section (App.book_file ui) "book" App.set_book s2 ;;
       s4 <- action_row ui s3 ;;
       results_section ui s4)%py w2).
  { unfold App.page. rewrite Hkey.
    destruct (decide (key = EmptyString)); [done|].
    unfold bind at 1. rewrite Hinit. cbn [negb]. cbv zeta.
    unfold bind at 1. by rewrite Hc, Hprobe. }
  rewrite Hmain in Hret |- *.
  destruct (action_row ui st3 w2) as [[st4|e] w3] eqn:Hrow; [|done].
  exists st4, w3. split; [done|].
  remember (page ui st w) as r eqn:Hr. clear Hr.
  unfold bind at 1 in Hpage.
  destruct (upload_section_cases (App.face_file ui) "face" App.set_face
              st1 w2)
    as [Hf1|(f & m1 & image & e & Hfile & Hv & Hdraw & Hf1)];
    rewrite Hf1 in Hpage; cbv beta iota in Hpage.
  2: { right. exists e, w2, f, "face", m1, image.
       split; [done|]. split; [intros Ht; by rewrite (Hw2 Ht)|].
       split; [by left|]. done. }
  fold st2 in Hpage. unfold bind at 1 in Hpage.
  destruct (upload_section_cases (App.book_file ui) "book" App.set_book
              st2 w2)
    as [Hb1|(f & m1 & image & e & Hfile & Hv & Hdraw & Hb1)];
    rewrite Hb1 in Hpage; cbv beta iota in Hpage.
  2: { right. exists e, w2, f, "book", m1, image.
       split; [done|]. split; [intros Ht; by rewrite (Hw2 Ht)|].
       split; [by right|]. done. }
  fold st3 in Hpage. unfold bind in Hpage. rewrite Hrow in Hpage. by left.
Qed.

Lemma page_without_key_aux
    (ui : App.widgets) (st : App.session_state) (w : world) :
  environ w !! "GEMINI_API_KEY" = None
  \/ environ w !! "GEMINI_API_KEY" = Some EmptyString ->
  page ui st w = (Ok st, w).
Proof.
  intros [H|H]; unfold App.page; rewrite H; [done|].
  by destruct (decide (EmptyString = EmptyString)).
Qed.

Lemma page_cases (ui : App.widgets) (st : App.session_state) (w : world) :
  page ui st w = (Ok st, w)
  \/ exists key st4 w3,
       environ w !! "GEMINI_API_KEY" = Some key /\ key <> EmptyString
       /\ main (without_reset ui) st w = (Ok st4, w3)
       /\ (page ui st w
           = (match App.merged_image st4 with
              | Some m =>
                  match st_image (Some m) with
                  | Ok _ =>
                      match save_png m with
                      | Ok _ => Ok (if App.reset_button ui
                                    then App.set_merged None st4 else st4)
                      | Raise e => Raise e
                      end
                  | Raise e => Raise e
                  end
              | None => Ok st4
              end, w3)
           \/ exists e w2 f image_type message image,
                page ui st w = (Raise e, w2)
                /\ (App.test_button ui = false -> calls w2 = calls w)
                /\ (image_type = "face" /\ App.face_file ui = Some f
                    \/ image_type = "book" /\ App.book_file ui = Some f)
                /\ validate_uploaded_image Image_open (Some f) image_type
                   = (true, message, Some image)
                /\ st_image (Some image) = Raise e).
Proof.
  destruct (environ w !! "GEMINI_API_KEY") as [key|] eqn:Hkey;
    [|left; apply page_without_key_aux; by left].
  destruct (decide (key = EmptyString)) as [->|Hne];
    [left; apply page_without_key_aux; by right|].
  right. destruct (page_results ui st w key Hkey Hne)
    as (st4 & w3 & Hmain & [Hpage|Hdraw]).
  - exists key, st4, w3. rewrite Hpage, results_section_cases.
    do 3 (split; [done|]). by left.
  - exists key, st4, w3. do 3 (split; [done|]). by right.
Qed.

(** What a run of the page can raise.  Everything done with the client
    is caught; a run raises only in one of three [st.image] calls or in
    writing the PNG buffer, and then raises what that call raised: the
    image is an upload the gate accepted in this run, or the stored
    result, which is the one the session held before the run or the one
    the merge of this run returned. *)
Theorem page_raises_only_drawing_or_png
    (ui : App.widgets) (st : App.session_state) (w w' : world) (e : exn) :
  App.page convert_pixels resample_pixels Image_open jpeg_encode service
    save_png st_image ui st w = (Raise e, w') ->
  (exists f image_type message image,
     (image_type = "face" /\ App.face_file ui = Some f
      \/ image_type = "book" /\ App.book_file ui = Some f)
     /\ validate_uploaded_image Image_open (Some f) image_type
        = (true, message, Some image)
     /\ st_image (Some image) = Raise e)
  \/ exists m,
       (st_image (Some m) = Raise e \/ save_png m = Raise e)
       /\ (App.merged_image st = Some m
           \/ (App.generate_button ui = true
               /\ exists c face book w0,
                    fst (GeminiImageClient.merge_face_into_book_cover
                           convert_pixels resample_pixels Image_open service
                           c face book (App.merge_style ui) w0)
                    = Ok (Some m))).
Proof.
  intros Hrun.
  destruct (page_cases ui st w)
    as [H|(key & st4 & w3 & _ & _ & Hmain
           & [Hpage|(e0 & w2 & f & ty & msg & image & Hpage & _ & Hrole
                     & Hv & Hdraw)])].
  - by rewrite H in Hrun.
  - rewrite Hpage in Hrun.
    destruct (App.merged_image st4) as [m|] eqn:Hm; [|done].
    right. exists m. split.
    + destruct (st_image (Some m)) as [u|e1];
        [|injection Hrun as -> _; by left].
      destruct (save_png m) as [png|e1];
        [done|injection Hrun as -> _; by right].
    + destruct (main_merged_image (without_reset ui) st st4 w w3 Hmain)
        as [H|[[H _]|(Hg & c & face & book & w0 & generated & _ & _ & Hmerge
                      & Hgen)]].
      * left. by rewrite <- H.
      * done.
      * right. split; [exact Hg|]. exists c, face, book, w0.
        rewrite Hm in Hgen. injection Hgen as ->. exact Hmerge.
  - rewrite Hpage in Hrun. injection Hrun as -> _.
    left. by exists f, ty, msg, image.
Qed.

(** A stored result that cannot be drawn or cannot be written as PNG
    blocks the page: with a usable key every run in which Generate is
    not pressed raises, whatever else is pressed, the reset button
    included, since the reset is read after the result is drawn and
    written. *)
Theorem page_blocked_by_result
    (ui : App.widgets) (st : App.session_state) (w : world) (key : string)
    (m : Image) :
  environ w !! "GEMINI_API_KEY" = Some key -> key <> EmptyString ->
  App.merged_image st = Some m ->
  raises (st_image (Some m)) \/ raises (save_png m) ->
  App.generate_button ui = false ->
  raises (fst (App.page convert_pixels resample_pixels Image_open
                 jpeg_encode service save_png st_image ui st w)).
Proof.
  intros Hkey Hne Hm Hbad Hgenerate.
  destruct (page_results ui st w key Hkey Hne)
    as (st4 & w3 & Hmain
        & [->|(e & w2 & f & ty & msg & image & -> & _)]); [|done].
  rewrite results_section_cases.
  destruct (main_merged_image (without_reset ui) st st4 w w3 Hmain)
    as [H|[[H _]|(Hg & _)]].
  - rewrite H, Hm. cbn [fst]. destruct Hbad as [Hd|Hs].
    + by destruct (st_image (Some m)).
    + destruct (st_image (Some m)); [|done]. by destruct (save_png m).
  - done.
  - cbn [App.generate_button] in Hg. congruence.
Qed.

(** The two image slots of the session only ever hold images that the
    gate accepted: if both slots are empty or hold images of at least
    100x100 before a run, they are so after it. *)
Theorem page_keeps_gate_sizes
    (ui : App.widgets) (st st' : App.session_state) (w w' : world) :
  at_least_100 (App.face_image st) ->
  at_least_100 (App.book_image st) ->
  App.page convert_pixels resample_pixels Image_open jpeg_encode service
    save_png st_image ui st w = (Ok st', w') ->
  at_least_100 (App.face_image st') /\ at_least_100 (App.book_image st').
Proof.
  intros Hface Hbook Hrun.
  destruct (page_cases ui st w)
    as [H|(key & st4 & w3 & _ & _ & Hmain
           & [Hpage|(e0 & w2 & f & ty & msg & image & Hpage & _)])].
  { rewrite H in Hrun. by injection Hrun as <- _. }
  2: { by rewrite Hpage in Hrun. }
  destruct (main_keeps_gate_sizes (without_reset ui) st st4 w w3
              Hface Hbook Hmain) as [Hf4 Hb4].
  rewrite Hpage in Hrun.
  destruct (App.merged_image st4) as [m|]; [|by injection Hrun as <- _].
  destruct (st_image (Some m)); [|done].
  destruct (save_png m); [|done].
  injection Hrun as <- _. by destruct (App.reset_button ui).
Qed.

(** Uploading and validating are local: a run in which none of the
    buttons Test, Analyze and Generate is pressed sends no request,
    whether or not it ends by raising. *)
Theorem page_uploads_are_local
    (ui : App.widgets) (st : App.session_state) (w : world) :
  App.test_button ui = false ->
  App.analyze_button ui = false ->
  App.generate_button ui = false ->
  calls (snd (App.page convert_pixels resample_pixels Image_open
                jpeg_encode service save_png st_image ui st w)) = calls w.
Proof.
  intros Htest Hanalyze Hgenerate.
  destruct (page_cases ui st w)
    as [H|(key & st4 & w3 & _ & _ & Hmain
           & [Hpage|(e0 & w2 & f & ty & msg & image & Hpage & Hw2 & _)])].
  - by rewrite H.
  - rewrite Hpage. cbn [snd].
    pose proof (main_uploads_are_local (without_reset ui) st w
                  Htest Hanalyze Hgenerate) as Hcalls.
    by rewrite Hmain in Hcalls.
  - rewrite Hpage. cbn [snd]. by apply Hw2.
Qed.

(** The stored result changes only through the reset button or a
    generation that returned an image: after a run that returns it is
    what it was, or it was cleared by the reset, or Generate was pressed
    with both slots filled and the merge returned it.  In particular a
    failed generation leaves the previous result in place. *)
Theorem page_merged_image
    (ui : App.widgets) (st st' : App.session_state) (w w' : world) :
  App.page convert_pixels resample_pixels Image_open jpeg_encode service
    save_png st_image ui st w = (Ok st', w') ->
  App.merged_image st' = App.merged_image st
  \/ (App.reset_button ui = true /\ App.merged_image st' = None)
  \/ (App.generate_button ui = true
      /\ exists c face book w0 generated,
           App.face_image st' = Some face
           /\ App.book_image st' = Some book
           /\ fst (GeminiImageClient.merge_face_into_book_cover
                     convert_pixels resample_pixels Image_open service
                     c face book (App.merge_style ui) w0)
              = Ok (Some generated)
           /\ App.merged_image st' = Some generated).
Proof.
  intros Hrun.
  destruct (page_cases ui st w)
    as [H|(key & st4 & w3 & _ & _ & Hmain
           & [Hpage|(e0 & w2 & f & ty & msg & image & Hpage & _)])].
  { rewrite H in Hrun. injection Hrun as <- _. by left. }
  2: { by rewrite Hpage in Hrun. }
  rewrite Hpage in Hrun.
  assert (Hst' : st' = st4
                 \/ (App.reset_button ui = true
                     /\ App.merged_image st' = None)).
  { destruct (App.merged_image st4) as [m|]; [|injection Hrun; by auto].
    destruct (st_image (Some m)); [|done].
    destruct (save_png m); [|done].
    injection Hrun as <- _. destruct (App.reset_button ui); by auto. }
  destruct Hst' as [->|Hreset]; [|by auto].
  destruct (main_merged_image (without_reset ui) st st4 w w3 Hmain)
    as [H|[[H _]|H]]; [by left|done|].
  right. right. exact H.
Qed.

(** The whole pipeline.  With a usable key, two uploads the gate accepts,
    both images preparable, only the Generate button pressed, a response
    whose first inline part decodes, and three images Streamlit can draw,
    the last of which the PNG writer can write, a run stores the two
    uploaded images and the decoded result in the session and sends
    exactly one request, the merge request for the prepared images and
    the selected style. *)
Theorem page_generates
    (ui : App.widgets) (st : App.session_state) (w : world) (key : string)
    (face_upload book_upload : UploadedFile)
    (face book face_img book_img generated : Image)
    (face_message book_message : string)
    (resp : Response) (before after : list Part) (part : Part)
    (blob : Blob) (png : list Byte.byte) :
  environ w !! "GEMINI_API_KEY" = Some key -> key <> EmptyString ->
  App.face_file ui = Some face_upload ->
  App.book_file ui = Some book_upload ->
  validate_uploaded_image Image_open (Some face_upload) "face"
    = (true, face_message, Some face) ->
  validate_uploaded_image Image_open (Some book_upload) "book"
    = (true, book_message, Some book) ->
  App.test_button ui = false -> App.analyze_button ui = false ->
  App.generate_button ui = true -> App.reset_button ui = false ->
  GeminiImageClient.prepare convert_pixels resample_pixels face
    = Ok face_img ->
  GeminiImageClient.prepare convert_pixels resample_pixels book
    = Ok book_img ->
  service (GeminiImageClient.merge_request
             (GeminiImageClient._create_merge_prompt (App.merge_style ui))
             face_img book_img) = Ok resp ->
  GeminiImageClient.response_parts resp
    = Ok (before ++ part :: after)%list ->
  Forall (fun part => inline_data part = None) before ->
  inline_data part = Some blob ->
  Image_open (data blob) = Ok generated ->
  returns (st_image (Some face)) ->
  returns (st_image (Some book)) ->
  returns (st_image (Some generated)) ->
  save_png generated = Ok png ->
  exists st' w',
    App.page convert_pixels resample_pixels Image_open jpeg_encode service
      save_png st_image ui st w = (Ok st', w')
    /\ App.face_image st' = Some face
    /\ App.book_image st' = Some book
    /\ App.merged_image st' = Some generated
    /\ calls w'
       = (calls w
            ++ [mkRequest "gemini-2.0-flash-preview-image-generation"
                  [TextPart (GeminiImageClient._create_merge_prompt
                               (App.merge_style ui));
                   ImagePart face_img; ImagePart book_img]
                  ["IMAGE"]])%list.
Proof.
  intros Hkey Hne Hff Hbf Hvf Hvb Htest Hanalyze Hgenerate Hreset
    Hpf Hpb Hservice Hparts Hbefore Hpart Hopen Hdf Hdb Hdg Hpng.
  destruct (main_generates (without_reset ui) st w key face_upload
              book_upload face book face_img book_img generated
              face_message book_message resp before after part blob
              Hkey Hne Hff Hbf Hvf Hvb Htest Hanalyze Hgenerate eq_refl
              Hpf Hpb Hservice Hparts Hbefore Hpart Hopen)
    as (st' & w' & Hmain & Hf & Hb & Hm & Hcalls).
  destruct (page_results ui st w key Hkey Hne)
    as (st4 & w3 & Hmain'
        & [Hpage|(e & w2 & f & ty & msg & image & _ & _ & Hrole & Hv
                  & Hdraw)]).
  - rewrite Hmain in Hmain'. injection Hmain' as <- <-.
    exists st', w'. rewrite Hpage, results_section_cases, Hm.
    destruct (st_image (Some generated)); [|done].
    by rewrite Hpng, Hreset.
  - exfalso. destruct Hrole as [[-> Hfile]|[-> Hfile]].
    + rewrite Hff in Hfile. injection Hfile as <-.
      rewrite Hvf in Hv. injection Hv as _ <-. by rewrite Hdraw in Hdf.
    + rewrite Hbf in Hfile. injection Hfile as <-.
      rewrite Hvb in Hv. injection Hv as _ <-. by rewrite Hdraw in Hdb.
Qed.

End PageMore.

Lemma page_raises_only_drawing_or_png_witness :
  (exists f image_type message image,
     (image_type = "face"
      /\ App.face_file (both_uploads false false false true) = Some f
      \/ image_type = "book"
         /\ App.book_file (both_uploads false false false true) = Some f)
     /\ validate_uploaded_image (decode_as (cmyk 300 300)) (Some f)
          image_type
        = (true, message, Some image)
     /\ draw_any (Some image)
        = Raise (OSError "cannot write mode CMYK as PNG"))
  \/ exists m,
       (draw_any (Some m) = Raise (OSError "cannot write mode CMYK as PNG")
        \/ png_writer m = Raise (OSError "cannot write mode CMYK as PNG"))
       /\ (App.merged_image fresh_session = Some m
           \/ (App.generate_button (both_uploads false false false true)
               = true
               /\ exists c face book w0,
                    fst (GeminiImageClient.merge_face_into_book_cover
                           plain_convert plain_resample
                           (decode_as (cmyk 300 300)) picture_service
                           c face book
                           (App.merge_style
                              (both_uploads false false false true)) w0)
                    = Ok (Some m))).
Proof.
  apply (page_raises_only_drawing_or_png plain_convert plain_resample
           (decode_as (cmyk 300 300)) encode_empty picture_service
           png_writer draw_any (both_uploads false false false true)
           fresh_session keyed_world
           (snd (App.page plain_convert plain_resample
                   (decode_as (cmyk 300 300)) encode_empty picture_service
                   png_writer draw_any
                   (both_uploads false false false true)
                   fresh_session keyed_world))).
  vm_compute. reflexivity.
Defined.

Lemma page_blocked_by_result_witness :
  raises
    (fst (App.page plain_convert plain_resample (decode_as (rgb 300 300))
            encode_empty quiet_service png_writer draw_rgb
            (App.mkWidgets None None "natural" false false false false true)
            (App.mkSession (Some sample_client) None None
               (Some (cmyk 640 480)))
            keyed_world)).
Proof.
  apply (page_blocked_by_result plain_convert plain_resample
           (decode_as (rgb 300 300)) encode_empty quiet_service png_writer
           draw_rgb
           (App.mkWidgets None None "natural" false false false false true)
           (App.mkSession (Some sample_client) None None
              (Some (cmyk 640 480)))
           keyed_world "key" (cmyk 640 480)).
  - reflexivity.
  - discriminate.
  - reflexivity.
  - left. vm_compute. exact I.
  - reflexivity.
Defined.

Lemma page_keeps_gate_sizes_witness :
  at_least_100 (Some (rgb 300 300)) /\ at_least_100 (Some (rgb 300 300)).
Proof.
  apply (page_keeps_gate_sizes plain_convert plain_resample
           (decode_as (rgb 300 300)) encode_empty quiet_service png_writer
           draw_rgb (both_uploads false false true true) fresh_session
           (App.mkSession (Some sample_client) (Some (rgb 300 300))
              (Some (rgb 300 300)) None)
           keyed_world
           (snd (App.page plain_convert plain_resample
                   (decode_as (rgb 300 300)) encode_empty quiet_service
                   png_writer draw_rgb (both_uploads false false true true)
                   fresh_session keyed_world))).
  - intros image H. discriminate H.
  - intros image H. discriminate H.
  - vm_compute. reflexivity.
Defined.

Lemma page_uploads_are_local_witness :
  calls (snd (App.page plain_convert plain_resample
                (decode_as (rgb 300 300)) encode_empty failing_service
                png_writer draw_rgb (both_uploads false false true false)
                fresh_session keyed_world))
  = calls keyed_world.
Proof.
  apply (page_uploads_are_local plain_convert plain_resample
           (decode_as (rgb 300 300)) encode_empty failing_service png_writer
           draw_rgb (both_uploads false false true false) fresh_session
           keyed_world);
    reflexivity.
Defined.

Lemma page_merged_image_witness :
  let st := App.mkSession (Some sample_client) None None
              (Some (rgb 640 480)) in
  let st' := App.mkSession (Some sample_client) (Some (rgb 300 300))
               (Some (rgb 300 300)) (Some (rgb 640 480)) in
  App.merged_image st' = App.merged_image st
  \/ (App.reset_button (both_uploads false false false true) = true
      /\ App.merged_image st' = None)
  \/ (App.generate_button (both_uploads false false false true) = true
      /\ exists c face book w0 generated,
           App.face_image st' = Some face
           /\ App.book_image st' = Some book
           /\ fst (GeminiImageClient.merge_face_into_book_cover
                     plain_convert plain_resample (decode_as (rgb 300 300))
                     failing_service c face book
                     (App.merge_style (both_uploads false false false true))
                     w0)
              = Ok (Some generated)
           /\ App.merged_image st' = Some generated).
Proof.
  cbv zeta.
  apply (page_merged_image plain_convert plain_resample
           (decode_as (rgb 300 300)) encode_empty failing_service png_writer
           draw_rgb (both_uploads false false false true)
           (App.mkSession (Some sample_client) None None (Some (rgb 640 480)))
           (App.mkSession (Some sample_client) (Some (rgb 300 300))
              (Some (rgb 300 300)) (Some (rgb 640 480)))
           keyed_world
           (snd (App.page plain_convert plain_resample
                   (decode_as (rgb 300 300)) encode_empty failing_service
                   png_writer draw_rgb (both_uploads false false false true)
                   (App.mkSession (Some sample_client) None None
                      (Some (rgb 640 480)))
                   keyed_world))).
  vm_compute. reflexivity.
Defined.

Lemma page_generates_witness :
  exists st' w',
    App.page plain_convert plain_resample (decode_as (rgb 300 300))
      encode_empty picture_service png_writer draw_rgb
      (both_uploads false false false true)
      fresh_session keyed_world = (Ok st', w')
    /\ App.face_image st' = Some (rgb 300 300)
    /\ App.book_image st' = Some (rgb 300 300)
    /\ App.merged_image st' = Some (rgb 300 300)
    /\ calls w'
       = (calls keyed_world
            ++ [mkRequest "gemini-2.0-flash-preview-image-generation"
                  [TextPart (GeminiImageClient._create_merge_prompt "cartoon");
                   ImagePart (rgb 300 300); ImagePart (rgb 300 300)]
                  ["IMAGE"]])%list.
Proof.
  apply (page_generates plain_convert plain_resample
           (decode_as (rgb 300 300)) encode_empty picture_service png_writer
           draw_rgb
           (both_uploads false false false true) fresh_session keyed_world
           "key" png_upload png_upload (rgb 300 300) (rgb 300 300)
           (rgb 300 300) (rgb 300 300) (rgb 300 300)
           "Face image uploaded successfully"
           "Book image uploaded successfully"
           picture_response [mkPart (Some "Here is the cover.") None] []
           (mkPart None (Some (mkBlob []))) (mkBlob [])
           [Byte.x89; Byte.x50; Byte.x4e; Byte.x47]);
    try reflexivity; try exact I.
  - discriminate.
  - repeat constructor.
Defined.

(** ** Rounding in binary64, from below *)

Module Binary64Lower.

Import PyFloat.
Import Binary64.

Lemma Zdigits2_upper (m k : Z) :
  0 <= m -> 0 <= k -> m < 2 ^ k -> Zdigits2 m <= k.
Proof.
  intros Hm0 Hk Hm. destruct (Z.eq_dec m 0) as [->|Hne]; [done|].
  pose proof (Zdigits2_lower m ltac:(lia)) as Hlow.
  pose proof (Zdigits2_nonneg m).
  destruct (Z_le_gt_dec (Zdigits2 m) k) as [|Hgt]; [done|].
  assert (2 ^ k <= 2 ^ (Zdigits2 m - 1)) by (apply pow2_le; lia).
  lia.
Qed.

Lemma div_pow2_lower (m a n : Z) :
  0 <= a -> 0 <= n -> 2 ^ (a + n) <= m -> 2 ^ a <= m / 2 ^ n.
Proof.
  intros Ha Hn Hm. rewrite (pow2_sum a n (a + n)) in Hm by lia.
  apply Z.div_le_lower_bound; [by apply pow2_pos|]. lia.
Qed.

(** Lower bound on the value a rounding returns, in the normal range: at
    most two units in the last place below the value rounded; the result
    is a finite number. *)
Lemma binary_round_aux_lower (s : bool) (m e : Z) (l : location) :
  0 < m -> - bias <= e -> -1021 <= Zdigits2 m + e ->
  e + shift_of m e + 1 <= 971 ->
  exists (m3 : positive) (e3 : Z),
    binary_round_aux prec emax s m e l = S754_finite s m3 e3
    /\ m * 2 ^ (e + bias)
       <= Zpos m3 * 2 ^ (e3 + bias) + 2 * 2 ^ (e + shift_of m e + bias).
Proof.
  intros Hm He Hnormal Hmax.
  pose proof (Zdigits2_lower m Hm) as Hdlo.
  pose proof (Zdigits2_nonneg m) as Hd0.
  assert (Hdpos : 1 <= Zdigits2 m) by (destruct m; cbn [Zdigits2] in *; lia).
  assert (Hdhi : m < 2 ^ Zdigits2 m).
  { destruct m as [|p|p]; try lia. cbn [Zdigits2].
    apply digits2_pos_bounds. }
  assert (Hn : shift_of m e = Z.max 0 (Zdigits2 m - 53)).
  { unfold shift_of. rewrite fexp_normal by lia. lia. }
  set (n := shift_of m e) in *.
  assert (Hn0 : 0 <= n) by lia.
  unfold binary_round_aux.
  pose proof (shr_fexp_spec m e l ltac:(lia)) as [H1m H1e].
  destruct (shr_fexp prec emax m e l) as [mrs1 e1].
  cbn [fst snd] in H1m, H1e. fold n in H1m, H1e.
  set (m2 := round_nearest_even (shr_m mrs1) (loc_of_shr_record mrs1)).
  pose proof (round_nearest_even_bounds (shr_m mrs1) (loc_of_shr_record mrs1))
    as Hr.
  fold m2 in Hr.
  (* the shifted mantissa has at most 53 digits and keeps the leading one *)
  assert (Hm1lo : 2 ^ (Zdigits2 m - 1 - n) <= shr_m mrs1).
  { rewrite H1m. apply div_pow2_lower; [lia|lia|].
    replace (Zdigits2 m - 1 - n + n) with (Zdigits2 m - 1) by lia. done. }
  assert (Hm1hi : shr_m mrs1 < 2 ^ 53).
  { rewrite H1m. apply Z.div_lt_upper_bound; [by apply pow2_pos|].
    rewrite <- (pow2_sum n 53 (n + 53)) by lia.
    assert (2 ^ Zdigits2 m <= 2 ^ (n + 53)) by (apply pow2_le; lia). lia. }
  pose proof (pow2_pos (Zdigits2 m - 1 - n) ltac:(lia)) as Hp1.
  assert (Hm2 : 0 < m2) by lia.
  assert (Hd2hi : Zdigits2 m2 <= 54).
  { apply Zdigits2_upper; [lia|lia|].
    assert (2 ^ 54 = 2 * 2 ^ 53) by (apply (pow2_sum 1 53 54); lia). lia. }
  assert (Hd2lo : Zdigits2 m - n <= Zdigits2 m2).
  { pose proof (Zdigits2_lower m2 Hm2) as H2lo.
    destruct m2 as [|p2|p2] eqn:Ep2; try lia. cbn [Zdigits2] in *.
    pose proof (digits2_pos_bounds p2) as [_ H2hi].
    assert (Zdigits2 m - 1 - n < Zpos (digits2_pos p2)); [|lia].
    apply pow2_lt_inv; lia. }
  pose proof (shr_fexp_spec m2 e1 loc_Exact ltac:(lia)) as [H2m H2e].
  destruct (shr_fexp prec emax m2 e1 loc_Exact) as [mrs2 e2].
  cbn [fst snd] in H2m, H2e.
  assert (Hn2 : shift_of m2 e1 = Z.max 0 (Zdigits2 m2 - 53)).
  { unfold shift_of. rewrite fexp_normal by lia. lia. }
  set (n2 := shift_of m2 e1) in *.
  assert (Hn2' : n2 = 0 \/ (n2 = 1 /\ Zdigits2 m2 = 54)) by lia.
  assert (Hm3 : 0 < shr_m mrs2 /\ m2 <= shr_m mrs2 * 2 ^ n2 + 1).
  { rewrite H2m. destruct Hn2' as [->|[-> Hd54]].
    - change (2 ^ 0) with 1. rewrite Z.div_1_r. lia.
    - change (2 ^ 1) with 2.
      pose proof (Zdigits2_lower m2 Hm2) as H2lo. rewrite Hd54 in H2lo.
      change (2 ^ (54 - 1)) with (2 ^ 53) in H2lo.
      pose proof (Z.div_mod m2 2 ltac:(lia)).
      pose proof (Z.mod_pos_bound m2 2 ltac:(lia)).
      assert (2 ^ 53 = 2 * 2 ^ 52) by (apply (pow2_sum 1 52 53); lia).
      pose proof (pow2_pos 52 ltac:(lia)). lia. }
  destruct Hm3 as [Hm3 Hm3v].
  destruct (shr_m mrs2) as [|m3|m3] eqn:Em3; try lia.
  assert (Hleb : (e2 <=? emax - prec) = true).
  { apply Z.leb_le. unfold emax, prec. lia. }
  rewrite Hleb. exists m3, e2. split; [done|].
  rewrite H2e, H1e.
  rewrite (pow2_sum n2 (n + (e + bias)) (e + n + n2 + bias)) by lia.
  rewrite (pow2_sum n (e + bias) (e + n + bias)) by lia.
  rewrite (pow2_sum n (e + bias) (n + (e + bias))) by lia.
  pose proof (pow2_pos (e + bias) ltac:(lia)) as HA.
  pose proof (pow2_pos n Hn0) as HB.
  pose proof (Z.div_mod m (2 ^ n) ltac:(lia)) as Hdm.
  pose proof (Z.mod_pos_bound m (2 ^ n) HB) as Hmod.
  rewrite <- H1m in Hdm.
  set (A := 2 ^ (e + bias)) in *. set (B := 2 ^ n) in *.
  set (C := 2 ^ n2) in *. set (m1 := shr_m mrs1) in *.
  set (r := m mod B) in *.
  clearbody A B C m1 r. clear - HA HB Hdm Hmod Hr Hm3v.
  assert (H1 : (m1 - 1) * (B * A) <= Zpos m3 * C * (B * A))
    by (apply Z.mul_le_mono_nonneg_r; nia).
  assert (H2 : r * A <= B * A) by (apply Z.mul_le_mono_nonneg_r; lia).
  subst m. nia.
Qed.


Lemma of_int_normal (z : Z) :
  0 < z < 2 ^ 31 ->
  exists (m : positive) (e : Z),
    of_int z = S754_finite false m e
    /\ e = Zdigits2 z - 53
    /\ 1 <= Zdigits2 z <= 31
    /\ Zpos m = z * 2 ^ (- e)
    /\ Zpos (digits2_pos m) = 53
    /\ 2 ^ 52 <= Zpos m < 2 ^ 53.
Proof.
  intros Hz.
  destruct (of_int_finite z Hz) as (m & e & Hm & He & Hv & Hd).
  exists m, e. split; [done|].
  destruct z as [|p|p]; try lia.
  destruct (of_int_pos false p ltac:(lia)) as (m' & e' & Hm' & _ & _ & He').
  change (of_int (Zpos p)) with (binary_round prec emax false p 0) in Hm.
  rewrite Hm in Hm'. injection Hm' as <- <-.
  cbn [Zdigits2] in *.
  assert (Hd53 : Zpos (digits2_pos m) = 53) by lia.
  pose proof (digits2_pos_bounds m) as Hb. rewrite Hd53 in Hb.
  change (2 ^ (53 - 1)) with (2 ^ 52) in Hb.
  repeat split; try lia.
Qed.

Lemma SFdiv_core_binary_lower (m1 m2 : positive) (e1 e2 : Z) :
  let '(q, e', l) := SFdiv_core_binary prec emax (Zpos m1) e1 (Zpos m2) e2 in
  Zpos m1 * 2 ^ (e1 - e2 - e') < (q + 1) * Zpos m2.
Proof.
  unfold SFdiv_core_binary. cbn [Zdigits2].
  set (e' := Z.min _ _).
  set (sh := e1 - e2 - e').
  assert (Hs : 0 <= sh) by (unfold sh, e'; lia).
  set (m' := match sh with
             | Z0 => Zpos m1
             | Zpos _ => Z.shiftl (Zpos m1) sh
             | Zneg _ => 0
             end).
  assert (Hm' : m' = Zpos m1 * 2 ^ sh).
  { unfold m'. destruct sh as [|k|k] eqn:Hk; [simpl; lia| |lia].
    by rewrite Z.shiftl_mul_pow2. }
  pose proof (Z.div_eucl_eq m' (Zpos m2) ltac:(lia)) as Heq.
  pose proof (Z.mod_pos_bound m' (Zpos m2) ltac:(lia)) as Hr.
  unfold Z.modulo in Hr.
  destruct (Z.div_eucl m' (Zpos m2)) as [q r].
  change (Z.pos m1 * 2 ^ sh < (q + 1) * Z.pos m2). rewrite <- Hm'. lia.
Qed.

Lemma Zdigits2_gt (m k : Z) : 0 <= k -> 2 ^ k <= m -> k < Zdigits2 m.
Proof.
  intros Hk Hm. pose proof (pow2_pos k Hk).
  destruct m as [|p|p]; try lia. cbn [Zdigits2].
  pose proof (digits2_pos_bounds p) as [_ Hhi].
  apply pow2_lt_inv; lia.
Qed.

(** The ratio [M / mx], for [0 < M < mx < 2^31]: a finite positive
    number within [2^-53] above and [5 * 2^-53] below the quotient. *)
Lemma ratio_bounds (M mx : Z) :
  0 < M < mx -> mx < 2 ^ 31 ->
  exists (mr : positive) (er : Z),
    SFdiv prec emax (of_int M) (of_int mx) = S754_finite false mr er
    /\ -84 <= er <= 0
    /\ Zpos mr * 2 ^ (er + bias) * mx
       <= M * 2 ^ bias + mx * 2 ^ (bias - 53)
    /\ M * 2 ^ bias
       <= Zpos mr * 2 ^ (er + bias) * mx + 5 * (mx * 2 ^ (bias - 53)).
Proof.
  intros HM Hmx.
  destruct (of_int_normal M ltac:(lia))
    as (mM & eM & HofM & HeM & HdM & HvM & HdmM & HbM).
  destruct (of_int_normal mx ltac:(lia))
    as (mX & eX & HofX & HeX & HdX & HvX & HdmX & HbX).
  pose proof (Zdigits2_mono M mx ltac:(lia)) as Hdig.
  pose proof (SFdiv_core_binary_spec mM mX eM eX) as Hcore.
  pose proof (SFdiv_core_binary_lower mM mX eM eX) as Hcore'.
  assert (Hdiv : SFdiv prec emax (of_int M) (of_int mx)
                 = let '(q, e', l) :=
                     SFdiv_core_binary prec emax (Zpos mM) eM (Zpos mX) eX in
                   binary_round_aux prec emax false q e' l).
  { by rewrite HofM, HofX. }
  destruct (SFdiv_core_binary prec emax (Zpos mM) eM (Zpos mX) eX)
    as [[q e'] l].
  destruct Hcore as (Hq & He' & Hqm).
  assert (He'v : e' = Zdigits2 M - Zdigits2 mx - 53).
  { rewrite He', HdmM, HdmX, fexp_normal by lia. lia. }
  assert (Hs : eM - eX - e' = 53) by lia.
  rewrite Hs in Hqm, Hcore'.
  (* the quotient has 53 or 54 digits *)
  assert (Hqlo : 2 ^ 52 <= q).
  { assert (2 ^ 52 * 2 ^ 53 <= Zpos mM * 2 ^ 53)
      by (apply Z.mul_le_mono_nonneg_r; lia).
    assert (2 ^ 52 * 2 ^ 53 < (q + 1) * 2 ^ 53); [nia|lia]. }
  pose proof (Zdigits2_gt q 52 ltac:(lia) Hqlo) as Hdq.
  assert (Hdq' : Zdigits2 q <= 54).
  { apply Zdigits2_upper; [lia|lia|].
    assert (q * 2 ^ 52 <= q * Zpos mX)
      by (apply Z.mul_le_mono_nonneg_l; lia).
    assert (Zpos mM * 2 ^ 53 < 2 ^ 53 * 2 ^ 53)
      by (apply Z.mul_lt_mono_pos_r; lia).
    assert (2 ^ 53 * 2 ^ 53 = 2 ^ 54 * 2 ^ 52) by reflexivity.
    apply (Z.mul_lt_mono_pos_r (2 ^ 52)); lia. }
  assert (Hshift : shift_of q e' = Z.max 0 (Zdigits2 q - 53)).
  { unfold shift_of. rewrite fexp_normal by lia. lia. }
  destruct (binary_round_aux_lower false q e' l ltac:(lia)
              ltac:(unfold bias; lia) ltac:(lia) ltac:(lia))
    as (mr & er & Hr & Hlow).
  rewrite Hr in Hdiv. exists mr, er. split; [done|].
  destruct (ratio_bound M mx false mr er HM Hmx Hdiv) as (_ & Her & Hup).
  destruct (binary_round_aux_value false q e' l false mr er Hq
              ltac:(unfold bias; lia) Hr) as (_ & HE3 & _).
  split; [lia|]. split; [done|].
  (* scale the bounds on the quotient *)
  assert (HP : M * 2 ^ bias < (q + 1) * 2 ^ (e' + bias) * mx).
  { rewrite (pow2_sum (- eX) (e' + bias + eX) (e' + bias))
      by (unfold bias; lia).
    rewrite (pow2_sum (- eM + 53) (e' + bias + eX) bias)
      by (unfold bias; lia).
    rewrite (pow2_sum (- eM) 53 (- eM + 53)) by lia.
    pose proof (pow2_pos (e' + bias + eX) ltac:(unfold bias; lia)) as HT.
    rewrite HvM, HvX in Hcore'.
    set (T := 2 ^ (e' + bias + eX)) in *.
    set (A := 2 ^ (- eX)) in *. set (B := 2 ^ (- eM)) in *.
    set (C := 2 ^ 53) in *. clearbody T A B C.
    assert (M * B * C * T < (q + 1) * (mx * A) * T)
      by (apply Z.mul_lt_mono_pos_r; lia).
    lia. }
  pose proof (pow2_le (e' + bias) (bias - 53) ltac:(unfold bias; lia)) as HPU.
  pose proof (pow2_le (e' + shift_of q e' + bias) (bias - 52)
                ltac:(unfold bias; lia)) as HXU.
  assert (HU2 : 2 ^ (bias - 52) = 2 * 2 ^ (bias - 53)).
  { change 2 with (2 ^ 1) at 2. apply pow2_sum; unfold bias; lia. }
  rewrite HU2 in HXU.
  pose proof (pow2_pos (e' + bias) ltac:(unfold bias; lia)) as HPpos.
  pose proof (pow2_pos (e' + shift_of q e' + bias) ltac:(unfold bias; lia))
    as HXpos.
  set (Vr := Zpos mr * 2 ^ (er + bias)) in *.
  set (P := 2 ^ (e' + bias)) in *. set (L := 2 ^ bias) in *.
  set (U := 2 ^ (bias - 53)) in *.
  set (X := 2 ^ (e' + shift_of q e' + bias)) in *.
  clearbody Vr P L U X. clear - HM HP HPU HXU HPpos HXpos Hlow Hq.
  assert (H1 : q * P * mx <= (Vr + 2 * X) * mx)
    by (apply Z.mul_le_mono_nonneg_r; lia).
  assert (H2 : P * mx <= U * mx) by (apply Z.mul_le_mono_nonneg_r; lia).
  assert (H3 : X * mx <= 2 * U * mx) by (apply Z.mul_le_mono_nonneg_r; lia).
  lia.
Qed.


(** The scaled dimension [w * (M / mx)], for [0 < w <= mx < 2^31] and
    [0 < M < mx]: a finite positive number within [2^-20] above and
    [2^-18] below the exact product. *)
Lemma scaled_value_bounds (w mx M : Z) :
  0 < w <= mx -> mx < 2 ^ 31 -> 0 < M < mx ->
  exists (m3 : positive) (e3 : Z),
    SFmul prec emax (of_int w) (SFdiv prec emax (of_int M) (of_int mx))
      = S754_finite false m3 e3
    /\ - bias <= e3
    /\ Zpos m3 * 2 ^ (e3 + bias) * mx
       <= w * M * 2 ^ bias + mx * 2 ^ (bias - 20)
    /\ w * M * 2 ^ bias
       <= Zpos m3 * 2 ^ (e3 + bias) * mx + mx * 2 ^ (bias - 18).
Proof.
  intros Hw Hmx HM.
  destruct (ratio_bounds M mx HM Hmx) as (mr & er & -> & Her & HVup & HVlo).
  destruct (of_int_normal w ltac:(lia))
    as (mW & eW & -> & HeW & HdW & HvW & _ & _).
  cbn [SFmul xorb].
  set (m := Zpos (mW * mr)). set (e := eW + er).
  assert (Hm : 0 < m) by (unfold m; lia).
  assert (He : -136 <= e <= -22) by (unfold e; lia).
  pose proof (pow2_pos bias ltac:(unfold bias; lia)) as HL.
  pose proof (pow2_pos (er + bias) ltac:(unfold bias; lia)) as HRr.
  pose proof (pow2_pos (bias - 53) ltac:(unfold bias; lia)) as HU.
  pose proof (pow2_pos (bias - 22) ltac:(unfold bias; lia)) as HU22.
  assert (HP : m * 2 ^ (e + bias) = w * (Zpos mr * 2 ^ (er + bias))).
  { unfold m, e. rewrite Pos2Z.inj_mul, HvW.
    rewrite (pow2_sum (- eW) (eW + er + bias) (er + bias))
      by (unfold bias; lia).
    ring. }
  assert (HUL : 2 ^ 31 * 2 ^ (bias - 53) = 2 ^ (bias - 22)).
  { symmetry. apply pow2_sum; unfold bias; lia. }
  assert (HUL1 : 2 ^ (bias - 21) = 2 * 2 ^ (bias - 22)).
  { change 2 with (2 ^ 1) at 2. apply pow2_sum; unfold bias; lia. }
  assert (HUL2 : 2 ^ (bias - 20) = 4 * 2 ^ (bias - 22)).
  { change 4 with (2 ^ 2). apply pow2_sum; unfold bias; lia. }
  assert (HUL3 : 2 ^ (bias - 18) = 16 * 2 ^ (bias - 22)).
  { change 16 with (2 ^ 4). apply pow2_sum; unfold bias; lia. }
  assert (HUL4 : 2 ^ (bias + 32) = 2 ^ 32 * 2 ^ bias).
  { apply pow2_sum; unfold bias; lia. }
  assert (HUL5 : 2 ^ bias = 2 ^ 22 * 2 ^ (bias - 22)).
  { apply pow2_sum; unfold bias; lia. }
  (* the ratio is below two *)
  assert (HVr2 : Zpos mr * 2 ^ (er + bias) < 2 * 2 ^ bias).
  { assert (2 ^ (bias - 53) < 2 ^ bias)
      by (apply Z.pow_lt_mono_r; unfold bias; lia).
    set (Vr := Zpos mr * 2 ^ (er + bias)) in *.
    set (L := 2 ^ bias) in *. set (U := 2 ^ (bias - 53)) in *.
    clearbody Vr L U. clear - HM HVup H HL.
    assert (M * L < mx * L) by (apply Z.mul_lt_mono_pos_r; lia).
    assert (mx * U < mx * L) by (apply Z.mul_lt_mono_pos_l; lia).
    apply (Z.mul_lt_mono_pos_r mx); [lia|]. lia. }
  (* the unit in the last place of the product is at most 2^-21 *)
  assert (Hdm : Zdigits2 m + e <= 32).
  { pose proof (Zdigits2_lower m Hm) as Hlow.
    pose proof (Zdigits2_nonneg m).
    assert (1 <= Zdigits2 m) by (unfold m; cbn [Zdigits2]; lia).
    assert (Zdigits2 m - 1 + (e + bias) < bias + 32); [|lia].
    apply pow2_lt_inv; [unfold bias; lia|unfold bias; lia|].
    rewrite (pow2_sum (Zdigits2 m - 1) (e + bias)
               (Zdigits2 m - 1 + (e + bias))) by (unfold bias; lia).
    rewrite HUL4.
    pose proof (pow2_pos (e + bias) ltac:(unfold bias; lia)) as HEE.
    set (D := 2 ^ (Zdigits2 m - 1)) in *.
    set (EE := 2 ^ (e + bias)) in *.
    set (Vr := Zpos mr * 2 ^ (er + bias)) in *.
    set (L := 2 ^ bias) in *. clearbody D EE Vr L.
    clear - Hlow HEE HP HVr2 Hw Hmx HL HRr.
    assert (D * EE <= m * EE) by (apply Z.mul_le_mono_nonneg_r; lia).
    assert (w * Vr <= 2 ^ 31 * Vr) by (apply Z.mul_le_mono_nonneg_r; nia).
    lia. }
  assert (Hd1 : 1 <= Zdigits2 m) by (unfold m; cbn [Zdigits2]; lia).
  assert (Hshift : e + shift_of m e
                   = Z.max e (Zdigits2 m + e - 53)).
  { unfold shift_of. rewrite fexp_normal by lia. lia. }
  destruct (binary_round_aux_lower false m e loc_Exact Hm
              ltac:(unfold bias; lia) ltac:(lia) ltac:(lia))
    as (m3 & e3 & HR & Hlow).
  exists m3, e3. split; [done|].
  destruct (binary_round_aux_value false m e loc_Exact false m3 e3
              ltac:(lia) ltac:(unfold bias; lia) HR) as (_ & HE3 & Hup).
  split; [unfold bias in *; lia|].
  pose proof (pow2_le (e + shift_of m e + bias) (bias - 21)
                ltac:(unfold bias in *; lia)) as Hulp.
  pose proof (pow2_pos (e + shift_of m e + bias)
                ltac:(unfold bias in *; lia)) as Hulp0.
  rewrite HP in Hlow, Hup.
  set (V3 := Zpos m3 * 2 ^ (e3 + bias)) in *.
  set (Vr := Zpos mr * 2 ^ (er + bias)) in *.
  set (L := 2 ^ bias) in *. set (U := 2 ^ (bias - 53)) in *.
  set (U22 := 2 ^ (bias - 22)) in *.
  set (X := 2 ^ (e + shift_of m e + bias)) in *.
  rewrite HUL2, HUL3. rewrite HUL1 in Hulp.
  clearbody V3 Vr L U U22 X.
  clear - Hw Hmx HM HVup HVlo Hlow Hup Hulp Hulp0 HUL HU HU22 HL.
  assert (H1 : w * (Vr * mx) <= w * (M * L + mx * U))
    by (apply Z.mul_le_mono_nonneg_l; lia).
  assert (H2 : w * (M * L) <= w * (Vr * mx + 5 * (mx * U)))
    by (apply Z.mul_le_mono_nonneg_l; lia).
  assert (H3 : w * (mx * U) <= 2 ^ 31 * (mx * U))
    by (apply Z.mul_le_mono_nonneg_r; nia).
  assert (H4 : V3 * mx <= (w * Vr + X) * mx)
    by (apply Z.mul_le_mono_nonneg_r; lia).
  assert (H5 : w * Vr * mx <= (V3 + 2 * X) * mx)
    by (apply Z.mul_le_mono_nonneg_r; lia).
  assert (H6 : X * mx <= 2 * U22 * mx)
    by (apply Z.mul_le_mono_nonneg_r; lia).
  assert (H7 : 2 ^ 31 * (mx * U) = mx * U22) by (rewrite <- HUL; ring).
  split; lia.
Qed.

Lemma float_floor_bounds (m : positive) (e : Z) :
  - bias <= e ->
  Z.shiftl (Zpos m) e * 2 ^ bias <= Zpos m * 2 ^ (e + bias)
  /\ Zpos m * 2 ^ (e + bias) < (Z.shiftl (Zpos m) e + 1) * 2 ^ bias.
Proof.
  intros He. destruct (Z_le_gt_dec 0 e) as [Hpos|Hneg].
  - rewrite Z.shiftl_mul_pow2 by done.
    rewrite (pow2_sum e bias (e + bias)) by (unfold bias; lia).
    pose proof (pow2_pos bias ltac:(unfold bias; lia)).
    pose proof (pow2_pos e Hpos). nia.
  - rewrite Z.shiftl_div_pow2 by lia.
    rewrite (pow2_sum (- e) (e + bias) bias) by lia.
    pose proof (pow2_pos (e + bias) ltac:(lia)) as HA.
    pose proof (pow2_pos (- e) ltac:(lia)) as HB.
    pose proof (Z.div_mod (Zpos m) (2 ^ (- e)) ltac:(lia)) as Hdm.
    pose proof (Z.mod_pos_bound (Zpos m) (2 ^ (- e)) HB) as Hmod.
    set (A := 2 ^ (e + bias)) in *. set (B := 2 ^ (- e)) in *.
    set (q := Zpos m / B) in *. set (r := Zpos m mod B) in *.
    clearbody A B q r. rewrite Hdm.
    assert (r * A <= (B - 1) * A) by (apply Z.mul_le_mono_nonneg_r; lia).
    nia.
Qed.

(** The scaled and truncated dimension, for [0 < w <= mx < 2^31] and
    [0 < M < mx]: the conversion to [int] succeeds, and the result is
    within one of the integer quotient [w * M / mx] and never above
    [w]. *)
Lemma scaled_dimension_bounds (w mx M : Z) :
  0 < w <= mx -> mx < 2 ^ 31 -> 0 < M < mx ->
  exists (ratio : float) (n : Z),
    truediv M mx = Ok ratio
    /\ to_int (mul_int w ratio) = Ok n
    /\ w * M / mx - 1 <= n <= w * M / mx + 1
    /\ n <= w.
Proof.
  intros Hw Hmx HM. unfold truediv, mul_int.
  destruct (Z.eqb_spec mx 0) as [|_]; [lia|].
  destruct (scaled_value_bounds w mx M Hw Hmx HM)
    as (m3 & e3 & Heq & He3 & Hup & Hlo).
  exists (SFdiv prec emax (of_int M) (of_int mx)), (Z.shiftl (Zpos m3) e3).
  split; [reflexivity|]. rewrite Heq.
  cbn [to_int cond_Zopp]. split; [reflexivity|].
  destruct (float_floor_bounds m3 e3 He3) as [Hfl Hfu].
  set (n := Z.shiftl (Zpos m3) e3) in *.
  assert (HL22 : 2 ^ bias = 2 ^ 20 * 2 ^ (bias - 20)).
  { apply pow2_sum; unfold bias; lia. }
  assert (HL18 : 2 ^ bias = 2 ^ 18 * 2 ^ (bias - 18)).
  { apply pow2_sum; unfold bias; lia. }
  pose proof (pow2_pos (bias - 20) ltac:(unfold bias; lia)) as Hu.
  pose proof (pow2_pos (bias - 18) ltac:(unfold bias; lia)) as Hv.
  (* the two bounds, freed of the scale *)
  assert (Hi : n * mx * 2 ^ 20 <= w * M * 2 ^ 20 + mx).
  { assert (H : n * 2 ^ bias * mx
                <= w * M * 2 ^ bias + mx * 2 ^ (bias - 20)).
    { assert (n * 2 ^ bias * mx <= Zpos m3 * 2 ^ (e3 + bias) * mx)
        by (apply Z.mul_le_mono_nonneg_r; lia). lia. }
    rewrite HL22 in H. set (u := 2 ^ (bias - 20)) in *. clearbody u.
    apply (Z.mul_le_mono_pos_r _ _ u); [lia|]. lia. }
  assert (Hii : w * M * 2 ^ 18 < (n + 1) * mx * 2 ^ 18 + mx).
  { assert (H : w * M * 2 ^ bias
                < (n + 1) * 2 ^ bias * mx + mx * 2 ^ (bias - 18)).
    { assert (Zpos m3 * 2 ^ (e3 + bias) * mx < (n + 1) * 2 ^ bias * mx)
        by (apply Z.mul_lt_mono_pos_r; lia). lia. }
    rewrite HL18 in H. set (v := 2 ^ (bias - 18)) in *. clearbody v.
    apply (Z.mul_lt_mono_pos_r v); [lia|]. lia. }
  pose proof (Z.div_mod (w * M) mx ltac:(lia)) as Hdm.
  pose proof (Z.mod_pos_bound (w * M) mx ltac:(lia)) as Hmod.
  set (k := w * M / mx) in *. set (r := (w * M) mod mx) in *.
  clearbody k r n.
  assert (Hk : k <= w - 1).
  { assert (w * M < w * mx) by (apply Z.mul_lt_mono_pos_l; lia).
    assert (k * mx < w * mx) by lia.
    assert (k < w); [|lia]. apply (Z.mul_lt_mono_pos_r mx); lia. }
  assert (Hn1 : n <= k + 1).
  { destruct (Z_le_gt_dec n (k + 1)) as [|Hgt]; [done|].
    assert ((k + 2) * mx <= n * mx)
      by (apply Z.mul_le_mono_nonneg_r; lia).
    assert ((k + 2) * mx * 2 ^ 20 <= n * mx * 2 ^ 20)
      by (apply Z.mul_le_mono_nonneg_r; lia).
    change (2 ^ 20) with 1048576 in *. lia. }
  assert (Hn2 : k - 1 <= n).
  { destruct (Z_le_gt_dec (k - 1) n) as [|Hgt]; [done|].
    assert ((n + 1) * mx <= (k - 1) * mx)
      by (apply Z.mul_le_mono_nonneg_r; lia).
    assert ((n + 1) * mx * 2 ^ 18 <= (k - 1) * mx * 2 ^ 18)
      by (apply Z.mul_le_mono_nonneg_r; lia).
    change (2 ^ 18) with 262144 in *. lia. }
  lia.
Qed.

End Binary64Lower.

(** ** The preprocessor, continued *)

Section PreprocessorMore.

Variable convert_pixels : string -> string -> Z * Z -> list Z -> outcome (list Z).
Variable resample_pixels : string -> Z * Z -> Z * Z -> list Z -> list Z.

(** Whatever the preprocessor returns for a valid image is in
    three-channel colour and its larger dimension is at most the
    maximum: the invariant of everything that is transmitted. *)
Theorem prepare_output_conforms (image image' : Image) (max_size : Z) :
  valid_image image ->
  _prepare_image_for_api convert_pixels resample_pixels image max_size
    = Ok image' ->
  mode image' = "RGB"
  /\ Z.max (width image') (height image') <= max_size.
Proof. apply prepare_result. Qed.

(** The image after the colour conversion: same size, mode RGB. *)
Lemma converted_image (image : Image) :
  match (if decide (mode image <> "RGB")
         then convert convert_pixels image "RGB" else Ok image) with
  | Ok im => mode im = "RGB" /\ size im = size image
  | Raise _ => True
  end.
Proof.
  unfold convert. destruct (decide (mode image <> "RGB")) as [Hne|He].
  - by destruct (convert_pixels _ _ _ _).
  - split; [|done]. by destruct (decide (mode image = "RGB")).
Qed.

(** What a resize does to the size, when the image is larger than the
    maximum: the scaled dimensions and their bounds. *)
Lemma prepare_resized (image image' : Image) (max_size : Z) :
  valid_image image ->
  0 < max_size < Z.max (width image) (height image) ->
  _prepare_image_for_api convert_pixels resample_pixels image max_size
    = Ok image' ->
  let mx := Z.max (width image) (height image) in
  (width image * max_size / mx - 1 <= width image'
     <= width image * max_size / mx + 1)
  /\ (height image * max_size / mx - 1 <= height image'
        <= height image * max_size / mx + 1)
  /\ width image' <= width image /\ height image' <= height image
  /\ 1 <= width image' /\ 1 <= height image'.
Proof.
  intros [Hw Hh] HM. unfold _prepare_image_for_api.
  pose proof (converted_image image) as Hc.
  destruct (if decide (mode image <> "RGB")
            then convert convert_pixels image "RGB" else Ok image)
    as [im|e]; cbn [obind]; [|done].
  destruct Hc as [Hmode Hsize].
  unfold width, height in *. rewrite <- Hsize in *.
  destruct (size im) as [w h] eqn:Hs. cbn [fst snd] in *.
  destruct (Z.gtb_spec (Z.max w h) max_size) as [Hgt|Hle]; [|lia].
  destruct (Binary64Lower.scaled_dimension_bounds w (Z.max w h) max_size
              ltac:(lia) ltac:(lia) HM)
    as (ratio & nw & Hratio & Hnw & Hbw & Hww).
  destruct (Binary64Lower.scaled_dimension_bounds h (Z.max w h) max_size
              ltac:(lia) ltac:(lia) HM)
    as (ratio' & nh & Hratio' & Hnh & Hbh & Hhh).
  rewrite Hratio in Hratio'. injection Hratio' as <-.
  rewrite Hratio. cbn [obind]. rewrite Hnw. cbn [obind]. rewrite Hnh.
  cbn [obind]. unfold resize. rewrite Hs.
  destruct (decide ((w, h) = (nw, nh))) as [[= <- <-]|Hne].
  - intros [= <-]. rewrite Hs. cbn [fst snd]. cbv zeta. lia.
  - cbn [fst snd].
    destruct (Z.ltb_spec nw 1); cbn [orb]; [done|].
    destruct (Z.ltb_spec nh 1); [done|].
    intros [= <-]. cbn [size fst snd]. cbv zeta. lia.
Qed.

(** A resize keeps the aspect ratio within one pixel and never enlarges.
    For a valid image larger than a positive maximum, each dimension of
    the result is within one of the integer quotient
    [dimension * max_size / larger dimension], is at least 1 and at most
    the original dimension, and the larger dimension of the result is
    [max_size] or [max_size - 1]. *)
Theorem prepare_resize_accuracy (image image' : Image) (max_size : Z) :
  valid_image image ->
  0 < max_size < Z.max (width image) (height image) ->
  _prepare_image_for_api convert_pixels resample_pixels image max_size
    = Ok image' ->
  let mx := Z.max (width image) (height image) in
  (width image * max_size / mx - 1 <= width image'
     <= width image * max_size / mx + 1)
  /\ (height image * max_size / mx - 1 <= height image'
        <= height image * max_size / mx + 1)
  /\ (1 <= width image' <= width image)
  /\ (1 <= height image' <= height image)
  /\ (max_size - 1 <= Z.max (width image') (height image') <= max_size).
Proof.
  intros Hvalid HM Hprep.
  destruct (prepare_resized image image' max_size Hvalid HM Hprep)
    as (Hw & Hh & Hww & Hhh & Hw1 & Hh1).
  destruct (prepare_result convert_pixels resample_pixels image image'
              max_size Hvalid Hprep) as [_ Hmax].
  cbv zeta in *. do 2 (split; [done|]). do 2 (split; [lia|]).
  split; [|done].
  destruct Hvalid as [Hvw Hvh].
  destruct (Z.max_spec (width image) (height image)) as [[_ Hm]|[_ Hm]];
    rewrite Hm in Hw, Hh.
  - rewrite Z.mul_comm, Z.div_mul in Hh by lia. lia.
  - rewrite Z.mul_comm, Z.div_mul in Hw by lia. lia.
Qed.


Lemma prepare_resize_call (image converted : Image) (max_size : Z) :
  valid_image image ->
  (if decide (mode image <> "RGB")
   then convert convert_pixels image "RGB" else Ok image) = Ok converted ->
  0 < max_size < Z.max (width image) (height image) ->
  2 * Z.max (width image) (height image)
    <= Z.min (width image) (height image) * max_size ->
  exists new_width new_height,
    _prepare_image_for_api convert_pixels resample_pixels image max_size
      = resize resample_pixels converted (new_width, new_height)
    /\ 1 <= new_width <= width image
    /\ 1 <= new_height <= height image.
Proof.
  intros [Hw Hh] Hconv HM Haspect. unfold _prepare_image_for_api.
  pose proof (converted_image image) as Hc. rewrite Hconv in Hc |- *.
  cbn [obind]. destruct Hc as [_ Hsize].
  unfold width, height in *. rewrite <- Hsize in *.
  destruct (size converted) as [w h] eqn:Hs. cbn [fst snd] in *.
  destruct (Z.gtb_spec (Z.max w h) max_size) as [Hgt|Hle]; [|lia].
  destruct (Binary64Lower.scaled_dimension_bounds w (Z.max w h) max_size
              ltac:(lia) ltac:(lia) ltac:(lia))
    as (ratio & nw & Hratio & Hnw & Hbw & Hww).
  destruct (Binary64Lower.scaled_dimension_bounds h (Z.max w h) max_size
              ltac:(lia) ltac:(lia) ltac:(lia))
    as (ratio' & nh & Hratio' & Hnh & Hbh & Hhh).
  rewrite Hratio in Hratio'. injection Hratio' as <-.
  rewrite Hratio. cbn [obind]. rewrite Hnw. cbn [obind]. rewrite Hnh.
  cbn [obind]. exists nw, nh. split; [done|].
  assert (Hkw : 2 <= w * max_size / Z.max w h).
  { apply Z.div_le_lower_bound; [lia|].
    assert (Z.min w h * max_size <= w * max_size)
      by (apply Z.mul_le_mono_nonneg_r; lia). lia. }
  assert (Hkh : 2 <= h * max_size / Z.max w h).
  { apply Z.div_le_lower_bound; [lia|].
    assert (Z.min w h * max_size <= h * max_size)
      by (apply Z.mul_le_mono_nonneg_r; lia). lia. }
  lia.
Qed.

(** The size arithmetic never gives a zero dimension for an image that
    is not too elongated.  For a valid image larger than a positive
    maximum whose smaller dimension times the maximum is at least twice
    the larger dimension, and whose colour conversion returned, the
    preprocessing is the resize of the converted image to a size whose
    two dimensions are at least 1 and at most the original ones: a size
    [resize] does not refuse.  Whether Pillow can then read the pixel
    data is not part of the statement. *)
Theorem prepare_resize_size (image converted : Image) (max_size : Z) :
  valid_image image ->
  (if decide (mode image <> "RGB")
   then convert convert_pixels image "RGB" else Ok image) = Ok converted ->
  0 < max_size < Z.max (width image) (height image) ->
  2 * Z.max (width image) (height image)
    <= Z.min (width image) (height image) * max_size ->
  exists new_width new_height,
    _prepare_image_for_api convert_pixels resample_pixels image max_size
      = resize resample_pixels converted (new_width, new_height)
    /\ 1 <= new_width <= width image
    /\ 1 <= new_height <= height image.
Proof. apply prepare_resize_call. Qed.

End PreprocessorMore.

Lemma prepare_output_conforms_witness :
  mode (mkImage "RGB" (1024, 512) []) = "RGB"
  /\ Z.max (width (mkImage "RGB" (1024, 512) []))
           (height (mkImage "RGB" (1024, 512) [])) <= 1024.
Proof.
  apply (prepare_output_conforms plain_convert plain_resample
           (rgba 2048 1025) (mkImage "RGB" (1024, 512) []) 1024).
  - unfold valid_image; cbn; lia.
  - vm_compute. reflexivity.
Defined.

Lemma prepare_resize_accuracy_witness :
  let image := rgb 1568 1000 in
  let image' := rgb 1023 653 in
  let mx := Z.max (width image) (height image) in
  (width image * 1024 / mx - 1 <= width image'
     <= width image * 1024 / mx + 1)
  /\ (height image * 1024 / mx - 1 <= height image'
        <= height image * 1024 / mx + 1)
  /\ (1 <= width image' <= width image)
  /\ (1 <= height image' <= height image)
  /\ (1024 - 1 <= Z.max (width image') (height image') <= 1024).
Proof.
  apply (prepare_resize_accuracy plain_convert plain_resample
           (rgb 1568 1000) (rgb 1023 653) 1024).
  - unfold valid_image; cbn; lia.
  - cbn; lia.
  - vm_compute. reflexivity.
Defined.

Lemma prepare_resize_size_witness :
  exists new_width new_height,
    _prepare_image_for_api plain_convert plain_resample (rgba 100 51200) 1024
      = resize plain_resample (rgb 100 51200) (new_width, new_height)
    /\ 1 <= new_width <= width (rgba 100 51200)
    /\ 1 <= new_height <= height (rgba 100 51200).
Proof.
  apply (prepare_resize_size plain_convert plain_resample (rgba 100 51200)
           (rgb 100 51200) 1024).
  - unfold valid_image; cbn; lia.
  - reflexivity.
  - cbn; lia.
  - cbn; lia.
Defined.

Section Transmission.

Variable convert_pixels : string -> string -> Z * Z -> list Z -> outcome (list Z).
Variable resample_pixels : string -> Z * Z -> Z * Z -> list Z -> list Z.
Variable Image_open : list Byte.byte -> outcome Image.
Variable service : Request -> outcome Response.

(** Every image in a list of contents is in three-channel colour and at
    most 1024 pixels on its larger side. *)
Lemma prepared_contents (face book face_img book_img : Image)
    (prompt : string) :
  valid_image face -> valid_image book ->
  GeminiImageClient.prepare convert_pixels resample_pixels face
    = Ok face_img ->
  GeminiImageClient.prepare convert_pixels resample_pixels book
    = Ok book_img ->
  forall im,
    ImagePart im ∈ [TextPart prompt; ImagePart face_img; ImagePart book_img] ->
    mode im = "RGB" /\ Z.max (width im) (height im) <= 1024.
Proof.
  intros Hvf Hvb Hpf Hpb im Him.
  rewrite !elem_of_cons, elem_of_nil in Him.
  destruct Him as [Him|[[= ->]|[[= ->]|[]]]]; [done| |].
  - exact (prepare_result convert_pixels resample_pixels face face_img 1024
             Hvf Hpf).
  - exact (prepare_result convert_pixels resample_pixels book book_img 1024
             Hvb Hpb).
Qed.

(** What is transmitted is prepared.  For valid images, the merge and
    the analysis each send at most one request, and every image a
    request carries is in three-channel colour and at most 1024 pixels
    on its larger side. *)
Theorem requests_carry_prepared_images
    (self : GeminiImageClient.t) (face book : Image) (style : string)
    (w : world) :
  valid_image face -> valid_image book ->
  let conforming (req : Request) :=
    forall im, ImagePart im ∈ req_contents req ->
               mode im = "RGB" /\ Z.max (width im) (height im) <= 1024 in
  (exists sent,
     calls (snd (GeminiImageClient.merge_face_into_book_cover
                   convert_pixels resample_pixels Image_open service
                   self face book style w))
       = (calls w ++ sent)%list
     /\ (length sent <= 1)%nat /\ Forall conforming sent)
  /\ (exists sent,
        calls (snd (GeminiImageClient.analyze_images
                      convert_pixels resample_pixels service
                      self face book w))
          = (calls w ++ sent)%list
        /\ (length sent <= 1)%nat /\ Forall conforming sent).
Proof.
  intros Hvf Hvb. cbv zeta.
  unfold GeminiImageClient.merge_face_into_book_cover,
    GeminiImageClient.analyze_images, try_except, bind, lift, ret, print,
    GeminiImageClient.generate_content.
  destruct (GeminiImageClient.prepare convert_pixels resample_pixels face)
    as [face_img|e] eqn:Hpf;
    [|split; exists []; cbn [fst snd calls length];
      rewrite app_nil_r; repeat split; auto].
  destruct (GeminiImageClient.prepare convert_pixels resample_pixels book)
    as [book_img|e] eqn:Hpb;
    [|split; exists []; cbn [fst snd calls length];
      rewrite app_nil_r; repeat split; auto].
  split.
  - exists [GeminiImageClient.merge_request
              (GeminiImageClient._create_merge_prompt style)
              face_img book_img].
    split; [|split; [cbn; lia|]].
    + destruct (service _) as [resp|e]; cbn [fst snd]; [|done].
      destruct (GeminiImageClient.response_parts resp) as [ps|e]; [|done].
      by destruct (GeminiImageClient.first_inline_image Image_open ps)
        as [[generated|]|e].
    + constructor; [|constructor].
      by apply (prepared_contents face book).
  - exists [GeminiImageClient.analyze_request face_img book_img].
    split; [|split; [cbn; lia|]].
    + destruct (service _) as [resp|e]; cbn [fst snd]; [|done].
      by destruct (GeminiImageClient.response_parts resp) as [ps|e].
    + constructor; [|constructor].
      by apply (prepared_contents face book).
Qed.


End Transmission.

Lemma requests_carry_prepared_images_witness :
  (exists sent,
     calls (snd (GeminiImageClient.merge_face_into_book_cover
                   plain_convert plain_resample (decode_as (rgb 300 300))
                   quiet_service sample_client (rgba 3000 2000)
                   (rgb 400 600) "natural" empty_world))
       = (calls empty_world ++ sent)%list
     /\ (length sent <= 1)%nat
     /\ Forall (fun req =>
                  forall im, ImagePart im ∈ req_contents req ->
                             mode im = "RGB"
                             /\ Z.max (width im) (height im) <= 1024) sent)
  /\ (exists sent,
        calls (snd (GeminiImageClient.analyze_images
                      plain_convert plain_resample quiet_service
                      sample_client (rgba 3000 2000) (rgb 400 600)
                      empty_world))
          = (calls empty_world ++ sent)%list
        /\ (length sent <= 1)%nat
        /\ Forall (fun req =>
                     forall im, ImagePart im ∈ req_contents req ->
                                mode im = "RGB"
                                /\ Z.max (width im) (height im) <= 1024)
             sent).
Proof.
  apply (requests_carry_prepared_images plain_convert plain_resample
           (decode_as (rgb 300 300)) quiet_service sample_client
           (rgba 3000 2000) (rgb 400 600) "natural" empty_world);
    vm_compute; repeat split.
Defined.


(** ** The download link *)

Module Base64Facts.

Import Base64.

Local Ltac divlia := Z.div_mod_to_equations; lia.

Lemma list_ind3 {A} (P : list A -> Prop) :
  P [] -> (forall a, P [a]) -> (forall a b, P [a; b]) ->
  (forall a b c rest, P rest -> P (a :: b :: c :: rest)) ->
  forall l, P l.
Proof.
  intros H0 H1 H2 H3.
  fix IH 1. intros [|a [|b [|c rest]]]; [done..|].
  apply H3, IH.
Qed.

Lemma sextets_ok : forallb sextet_ok (List.seq 0 64) = true.
Proof. vm_compute. reflexivity. Qed.

Lemma value_of_char_of (i : Z) :
  0 <= i < 64 ->
  value_of (char_of i) = Some i /\ Ascii.eqb (char_of i) pad = false.
Proof.
  intros Hi.
  pose proof (proj1 (forallb_forall sextet_ok (List.seq 0 64)) sextets_ok
                (Z.to_nat i)) as H.
  unfold sextet_ok in H. rewrite Z2Nat.id in H by lia.
  specialize (H ltac:(apply in_seq; lia)).
  destruct (value_of (char_of i)) as [v|]; [|done].
  apply andb_true_iff in H as [Hv Hp]. apply Z.eqb_eq in Hv as ->.
  split; [done|]. by destruct (Ascii.eqb (char_of i) pad).
Qed.

Lemma byte_val_bounds (b : Byte.byte) : 0 <= byte_val b < 256.
Proof.
  unfold byte_val. pose proof (Byte.to_N_bounded b). lia.
Qed.

Lemma byte_of_byte_val (b : Byte.byte) : byte_of (byte_val b) = Some b.
Proof.
  unfold byte_of, byte_val. rewrite N2Z.id. apply Byte.of_to_N.
Qed.

Lemma sextets_join (n : Z) :
  0 <= n ->
  n / 262144 * 64 + n / 4096 mod 64 = n / 4096
  /\ n / 4096 * 64 + n / 64 mod 64 = n / 64
  /\ n / 64 * 64 + n mod 64 = n.
Proof.
  intros Hn.
  replace (n / 262144) with (n / 4096 / 64) by (rewrite Z.div_div by lia; reflexivity).
  replace (n / 4096) with (n / 64 / 64) by (rewrite Z.div_div by lia; reflexivity).
  pose proof (Z.div_mod (n / 64 / 64) 64). pose proof (Z.div_mod (n / 64) 64).
  pose proof (Z.div_mod n 64). lia.
Qed.

Lemma bytes_split (n A B C : Z) :
  0 <= A -> 0 <= B < 256 -> 0 <= C < 256 ->
  n = A * 65536 + B * 256 + C ->
  n / 65536 = A /\ n / 256 mod 256 = B /\ n mod 256 = C.
Proof.
  intros HA HB HC ->.
  assert (H1 : (A * 65536 + B * 256 + C) / 65536 = A).
  { symmetry. apply Z.div_unique with (r := B * 256 + C); lia. }
  assert (H2 : (A * 65536 + B * 256 + C) / 256 = A * 256 + B).
  { symmetry. apply Z.div_unique with (r := C); lia. }
  repeat split; [done| |].
  - rewrite H2. symmetry. apply Z.mod_unique with (q := A); lia.
  - symmetry. apply Z.mod_unique with (q := A * 256 + B); lia.
Qed.

Lemma b64decode_fuel_encode (data : list Byte.byte) :
  forall fuel, (length data < fuel)%nat ->
               b64decode_fuel fuel (b64encode data) = Some data.
Proof.
  induction data as [|a|a b|a b c rest IH] using list_ind3;
    intros [|fuel] Hfuel; cbn [length] in Hfuel; try lia.
  - done.
  - pose proof (byte_val_bounds a) as Ha.
    cbn [b64encode b64decode_fuel]. cbv zeta.
    set (n := byte_val a * 65536).
    destruct (value_of_char_of (n / 262144) ltac:(unfold n; divlia)) as [-> _].
    destruct (value_of_char_of (n / 4096 mod 64) ltac:(unfold n; divlia)) as [-> _].
    cbn [mbind option_bind]. rewrite Ascii.eqb_refl.
    destruct (sextets_join n ltac:(unfold n; lia)) as (-> & _ & _).
    rewrite Z.div_div by lia. change (4096 * 16) with 65536.
    destruct (bytes_split n (byte_val a) 0 0) as (-> & _ & _);
      [lia|lia|lia|unfold n; lia|].
    rewrite !byte_of_byte_val. cbn [mbind option_bind]. done.
  - pose proof (byte_val_bounds a) as Ha. pose proof (byte_val_bounds b) as Hb.
    cbn [b64encode b64decode_fuel]. cbv zeta.
    set (n := byte_val a * 65536 + byte_val b * 256).
    destruct (value_of_char_of (n / 262144) ltac:(unfold n; divlia)) as [-> _].
    destruct (value_of_char_of (n / 4096 mod 64) ltac:(unfold n; divlia)) as [-> _].
    destruct (value_of_char_of (n / 64 mod 64) ltac:(unfold n; divlia)) as [-> ->].
    cbn [mbind option_bind]. rewrite Ascii.eqb_refl.
    destruct (sextets_join n ltac:(unfold n; lia)) as (-> & -> & _).
    rewrite !Z.div_div by lia.
    change (64 * 1024) with 65536. change (64 * 4) with 256.
    destruct (bytes_split n (byte_val a) (byte_val b) 0) as (-> & -> & _);
      [lia|lia|lia|unfold n; lia|].
    rewrite !byte_of_byte_val. cbn [mbind option_bind]. done.
  - pose proof (byte_val_bounds a) as Ha. pose proof (byte_val_bounds b) as Hb.
    pose proof (byte_val_bounds c) as Hc.
    cbn [b64encode b64decode_fuel]. cbv zeta.
    set (n := byte_val a * 65536 + byte_val b * 256 + byte_val c).
    destruct (value_of_char_of (n / 262144) ltac:(unfold n; divlia)) as [-> _].
    destruct (value_of_char_of (n / 4096 mod 64) ltac:(unfold n; divlia)) as [-> _].
    destruct (value_of_char_of (n / 64 mod 64) ltac:(unfold n; divlia)) as [-> ->].
    destruct (value_of_char_of (n mod 64) ltac:(unfold n; divlia)) as [-> ->].
    cbn [mbind option_bind].
    destruct (sextets_join n ltac:(unfold n; lia)) as (-> & -> & ->).
    destruct (bytes_split n (byte_val a) (byte_val b) (byte_val c))
      as (-> & -> & ->); [lia|lia|lia|done|].
    rewrite !byte_of_byte_val. cbn [mbind option_bind].
    cbn [mbind option_bind].
    rewrite IH by lia. done.
Qed.

Lemma b64encode_length (data : list Byte.byte) :
  Z.of_nat (String.length (b64encode data))
  = 4 * ((Z.of_nat (length data) + 2) / 3).
Proof.
  induction data as [|a|a b|a b c rest IH] using list_ind3;
    cbn [b64encode String.length length]; cbv zeta; try reflexivity.
  cbn [String.length]. rewrite !Nat2Z.inj_succ, IH. divlia.
Qed.

Lemma b64decode_encode (data : list Byte.byte) :
  b64decode (b64encode data) = Some data.
Proof.
  unfold b64decode. apply b64decode_fuel_encode.
  pose proof (b64encode_length data). divlia.
Qed.

Lemma b64encode_alphabet (data : list Byte.byte) :
  string_forall b64_char (b64encode data).
Proof.
  assert (Hc : forall i, 0 <= i < 64 -> b64_char (char_of i)).
  { intros i Hi. left. destruct (value_of_char_of i Hi) as [-> _]. done. }
  induction data as [|a|a b|a b c rest IH] using list_ind3;
    cbn [b64encode string_forall]; cbv zeta; [done|..].
  - pose proof (byte_val_bounds a).
    repeat split; try (by right); apply Hc; divlia.
  - pose proof (byte_val_bounds a). pose proof (byte_val_bounds b).
    repeat split; try (by right); apply Hc; divlia.
  - pose proof (byte_val_bounds a). pose proof (byte_val_bounds b).
    pose proof (byte_val_bounds c).
    repeat split; try done; apply Hc; divlia.
Qed.

Lemma b64_char_not_quote (c : ascii) : b64_char c -> c <> "034"%char.
Proof.
  intros [[v Hv]|Hpad] Hq; subst c; [by vm_compute in Hv|done].
Qed.

Lemma string_forall_impl (P Q : ascii -> Prop) (s : string) :
  (forall c, P c -> Q c) -> string_forall P s -> string_forall Q s.
Proof.
  intros HPQ. induction s as [|c s IH]; [done|].
  cbn. intros [Hc Hs]. split; [by apply HPQ|by apply IH].
Qed.

Lemma append_nil (t : string) : EmptyString +:+ t = t.
Proof. reflexivity. Qed.

Lemma append_cons (c : ascii) (s t : string) :
  String c s +:+ t = String c (s +:+ t).
Proof. reflexivity. Qed.

Lemma append_inj_l (s t1 t2 : string) : s +:+ t1 = s +:+ t2 -> t1 = t2.
Proof.
  induction s as [|c s IH]; rewrite ?append_nil, ?append_cons; [done|].
  intros [= H]. by apply IH.
Qed.

Lemma append_length (s t : string) :
  String.length (s +:+ t) = (String.length s + String.length t)%nat.
Proof.
  induction s as [|c s IH]; [done|].
  rewrite append_cons. cbn [String.length]. by rewrite IH.
Qed.

Lemma append_inj_r (s1 s2 t : string) : s1 +:+ t = s2 +:+ t -> s1 = s2.
Proof.
  revert s2. induction s1 as [|c s1 IH]; intros [|d s2] H.
  - done.
  - apply (f_equal String.length) in H.
    rewrite !append_length in H. cbn [String.length] in H. lia.
  - apply (f_equal String.length) in H.
    rewrite !append_length in H. cbn [String.length] in H. lia.
  - rewrite !append_cons in H. injection H as -> H. by rewrite (IH s2 H).
Qed.

(** A text that is free of a character is determined by what follows
    it up to the first occurrence of that character. *)
Lemma prefix_unique (q : ascii) (p1 p2 r1 r2 : string) :
  string_forall (fun c => c <> q) p1 ->
  string_forall (fun c => c <> q) p2 ->
  p1 +:+ String q r1 = p2 +:+ String q r2 ->
  p1 = p2 /\ r1 = r2.
Proof.
  revert p2. induction p1 as [|c p1 IH]; intros [|d p2] H1 H2 H;
    rewrite ?append_nil, ?append_cons in H; cbn [string_forall] in H1, H2.
  - by injection H as ->.
  - injection H as -> _. by destruct H2.
  - injection H as -> _. by destruct H1.
  - injection H as -> H. destruct H1 as [_ H1], H2 as [_ H2].
    destruct (IH p2 H1 H2 H) as [-> ->]. done.
Qed.

End Base64Facts.

Section DownloadLink.

Import Base64 Base64Facts.

Variable save_png : Image -> outcome (list Byte.byte).

Lemma download_link_payload_aux (image : Image) (filename : string)
    (img_data : list Byte.byte) :
  save_png image = Ok img_data ->
  App.create_download_link save_png image filename
  = Ok ("<a href=" +:+ App.dquote +:+ "data:image/png;base64,"
        +:+ b64encode img_data +:+ App.dquote +:+ " download="
        +:+ App.dquote +:+ filename +:+ App.dquote
        +:+ ">Download Merged Image</a>").
Proof. intros H. unfold App.create_download_link. by rewrite H. Qed.

(** The link carries the image: when the PNG writer returns, the text
    between the data-URI prefix and the closing quote of the link decodes
    back to exactly the bytes written, is made of base64 characters only
    (so it cannot end the attribute it sits in), and is four characters
    for every three bytes, rounded up. *)
Theorem download_link_payload (image : Image) (filename : string)
    (img_data : list Byte.byte) :
  save_png image = Ok img_data ->
  exists payload,
    App.create_download_link save_png image filename
    = Ok ("<a href=" +:+ App.dquote +:+ "data:image/png;base64,"
          +:+ payload +:+ App.dquote +:+ " download="
          +:+ App.dquote +:+ filename +:+ App.dquote
          +:+ ">Download Merged Image</a>")
    /\ Base64.b64decode payload = Some img_data
    /\ Base64.string_forall (fun c => c <> "034"%char) payload
    /\ Z.of_nat (String.length payload)
       = 4 * ((Z.of_nat (length img_data) + 2) / 3).
Proof.
  intros H. exists (b64encode img_data).
  split; [by apply download_link_payload_aux|].
  split; [apply b64decode_encode|].
  split; [|apply b64encode_length].
  apply (string_forall_impl b64_char); [apply b64_char_not_quote|].
  apply b64encode_alphabet.
Qed.

(** Nothing is lost in the link: two calls that return the same link
    were given the same file name and images with the same PNG bytes. *)
Theorem download_link_injective (image1 image2 : Image)
    (filename1 filename2 link : string) :
  App.create_download_link save_png image1 filename1 = Ok link ->
  App.create_download_link save_png image2 filename2 = Ok link ->
  save_png image1 = save_png image2 /\ filename1 = filename2.
Proof.
  intros H1 H2.
  destruct (save_png image1) as [d1|e1] eqn:Hd1;
    [|unfold App.create_download_link in H1; by rewrite Hd1 in H1].
  destruct (save_png image2) as [d2|e2] eqn:Hd2;
    [|unfold App.create_download_link in H2; by rewrite Hd2 in H2].
  rewrite (download_link_payload_aux image1 filename1 d1 Hd1) in H1.
  rewrite (download_link_payload_aux image2 filename2 d2 Hd2) in H2.
  rewrite <- H2 in H1. clear H2. injection H1 as H.
  repeat apply append_inj_l in H.
  change (b64encode d1
          +:+ String "034"%char
                (" download=" +:+ App.dquote +:+ filename1 +:+ App.dquote
                 +:+ ">Download Merged Image</a>")
          = b64encode d2
            +:+ String "034"%char
                  (" download=" +:+ App.dquote +:+ filename2 +:+ App.dquote
                   +:+ ">Download Merged Image</a>")) in H.
  apply prefix_unique in H as [Hb H].
  - repeat apply append_inj_l in H. apply append_inj_r in H.
    split; [|done]. f_equal.
    pose proof (b64decode_encode d1) as Hr. rewrite Hb in Hr.
    rewrite b64decode_encode in Hr. by injection Hr.
  - apply (string_forall_impl b64_char); [apply b64_char_not_quote|].
    apply b64encode_alphabet.
  - apply (string_forall_impl b64_char); [apply b64_char_not_quote|].
    apply b64encode_alphabet.
Qed.

End DownloadLink.

Lemma download_link_payload_witness :
  exists payload,
    App.create_download_link png_writer (rgb 400 600) "merged_book_cover.png"
    = Ok ("<a href=" +:+ App.dquote +:+ "data:image/png;base64,"
          +:+ payload +:+ App.dquote +:+ " download="
          +:+ App.dquote +:+ "merged_book_cover.png" +:+ App.dquote
          +:+ ">Download Merged Image</a>")
    /\ Base64.b64decode payload
       = Some [Byte.x89; Byte.x50; Byte.x4e; Byte.x47]
    /\ Base64.string_forall (fun c => c <> "034"%char) payload
    /\ Z.of_nat (String.length payload)
       = 4 * ((Z.of_nat (length [Byte.x89; Byte.x50; Byte.x4e; Byte.x47])
               + 2) / 3).
Proof.
  apply (download_link_payload png_writer (rgb 400 600)
           "merged_book_cover.png"
           [Byte.x89; Byte.x50; Byte.x4e; Byte.x47]).
  reflexivity.
Defined.

Lemma download_link_injective_witness :
  png_writer (rgb 400 600) = png_writer (rgba 400 600)
  /\ "cover.png" = "cover.png".
Proof.
  apply (download_link_injective png_writer (rgb 400 600) (rgba 400 600)
           "cover.png" "cover.png"
           ("<a href=" +:+ App.dquote +:+ "data:image/png;base64,iVBORw=="
            +:+ App.dquote +:+ " download=" +:+ App.dquote +:+ "cover.png"
            +:+ App.dquote +:+ ">Download Merged Image</a>"));
    reflexivity.
Defined.
